(** * DaanaRx backend: inventory allocation core

    A shallow embedding of the unit store ([unitService.ts]) and of the
    transaction ledger with its FEFO allocator ([transactionService.ts]),
    followed by the properties of the specification that concern them.

    The storage collaborator (the Supabase client) is modelled as a
    record of tables threaded through a state-and-exception monad.  Every
    storage call of the source is a [Site]; an environment says, per site
    and per row, whether that call reports an error.  A call that reports
    an error leaves the tables as they were. *)

From stdpp Require Import base option list gmap strings pretty sorting fin_maps.
From Stdlib Require SpecFloat.

Open Scope string_scope.
Open Scope Z_scope.

(** ** Rows of the tables

    Column names are those of the source.  A DATE or TIMESTAMP column is
    kept as its ISO-8601 text, which [String.le] orders chronologically.
    Quantities are JavaScript numbers restricted to whole numbers below
    2^53, on which the sums, differences and comparisons of the code are
    exact: the model computes them on [Z].  The arithmetic of the
    allocator is run on binary64 numbers as well, further down. *)

Inductive TxType := adjust | check_out | check_in.

Record DrugRow := {
  medication_name : string;
  generic_name : string;
  strength : Z;
  strength_unit : string;
  ndc_id : string;
  form : string
}.

Record LotRow := {
  lot_source : string;
  lot_note : option string;
  lot_date_created : string;
  location_id : string;
  lot_clinic_id : string;
  max_capacity : option Z
}.

Record UserRow := {
  username : string;
  email : string;
  user_clinic_id : string;
  user_role : string;
  created_at : string;
  updated_at : string
}.

(** The primary key [unit_id] is the key of the [units] map. *)
Record UnitRow := {
  total_quantity : Z;
  available_quantity : Z;
  patient_reference_id : option string;
  lot_id : string;
  expiry_date : string;
  date_created : string;
  user_id : string;
  drug_id : string;
  qr_code : option string;
  optional_notes : option string;
  manufacturer_lot_number : option string;
  clinic_id : string
}.

Record TxRow := {
  transaction_id : string;
  timestamp : string;
  tx_type : TxType;
  quantity : Z;
  tx_unit_id : string;
  patient_name : option string;
  tx_patient_reference_id : option string;
  tx_user_id : string;
  notes : option string;
  tx_clinic_id : string
}.

Global Instance TxType_eq_dec : EqDecision TxType.
Proof. solve_decision. Defined.
Global Instance DrugRow_eq_dec : EqDecision DrugRow.
Proof. solve_decision. Defined.
Global Instance LotRow_eq_dec : EqDecision LotRow.
Proof. solve_decision. Defined.
Global Instance UserRow_eq_dec : EqDecision UserRow.
Proof. solve_decision. Defined.
Global Instance UnitRow_eq_dec : EqDecision UnitRow.
Proof. solve_decision. Defined.
Global Instance TxRow_eq_dec : EqDecision TxRow.
Proof. solve_decision. Defined.

(** Column updates on a unit row. *)
Definition set_total_quantity (v : Z) (r : UnitRow) : UnitRow :=
  {| total_quantity := v; available_quantity := available_quantity r;
     patient_reference_id := patient_reference_id r; lot_id := lot_id r;
     expiry_date := expiry_date r; date_created := date_created r;
     user_id := user_id r; drug_id := drug_id r; qr_code := qr_code r;
     optional_notes := optional_notes r;
     manufacturer_lot_number := manufacturer_lot_number r;
     clinic_id := clinic_id r |}.

Definition set_available_quantity (v : Z) (r : UnitRow) : UnitRow :=
  {| total_quantity := total_quantity r; available_quantity := v;
     patient_reference_id := patient_reference_id r; lot_id := lot_id r;
     expiry_date := expiry_date r; date_created := date_created r;
     user_id := user_id r; drug_id := drug_id r; qr_code := qr_code r;
     optional_notes := optional_notes r;
     manufacturer_lot_number := manufacturer_lot_number r;
     clinic_id := clinic_id r |}.

Definition set_expiry_date (v : string) (r : UnitRow) : UnitRow :=
  {| total_quantity := total_quantity r;
     available_quantity := available_quantity r;
     patient_reference_id := patient_reference_id r; lot_id := lot_id r;
     expiry_date := v; date_created := date_created r;
     user_id := user_id r; drug_id := drug_id r; qr_code := qr_code r;
     optional_notes := optional_notes r;
     manufacturer_lot_number := manufacturer_lot_number r;
     clinic_id := clinic_id r |}.

Definition set_optional_notes (v : option string) (r : UnitRow) : UnitRow :=
  {| total_quantity := total_quantity r;
     available_quantity := available_quantity r;
     patient_reference_id := patient_reference_id r; lot_id := lot_id r;
     expiry_date := expiry_date r; date_created := date_created r;
     user_id := user_id r; drug_id := drug_id r; qr_code := qr_code r;
     optional_notes := v;
     manufacturer_lot_number := manufacturer_lot_number r;
     clinic_id := clinic_id r |}.

Definition set_qr_code (v : option string) (r : UnitRow) : UnitRow :=
  {| total_quantity := total_quantity r;
     available_quantity := available_quantity r;
     patient_reference_id := patient_reference_id r; lot_id := lot_id r;
     expiry_date := expiry_date r; date_created := date_created r;
     user_id := user_id r; drug_id := drug_id r; qr_code := v;
     optional_notes := optional_notes r;
     manufacturer_lot_number := manufacturer_lot_number r;
     clinic_id := clinic_id r |}.

Definition set_quantity (v : Z) (t : TxRow) : TxRow :=
  {| transaction_id := transaction_id t; timestamp := timestamp t;
     tx_type := tx_type t; quantity := v; tx_unit_id := tx_unit_id t;
     patient_name := patient_name t;
     tx_patient_reference_id := tx_patient_reference_id t;
     tx_user_id := tx_user_id t; notes := notes t;
     tx_clinic_id := tx_clinic_id t |}.

Definition set_notes (v : option string) (t : TxRow) : TxRow :=
  {| transaction_id := transaction_id t; timestamp := timestamp t;
     tx_type := tx_type t; quantity := quantity t; tx_unit_id := tx_unit_id t;
     patient_name := patient_name t;
     tx_patient_reference_id := tx_patient_reference_id t;
     tx_user_id := tx_user_id t; notes := v;
     tx_clinic_id := tx_clinic_id t |}.

(** ** The store and the console *)

Inductive LogLevel := LInfo | LError.

Record World := {
  units : gmap string UnitRow;
  transactions : list TxRow;
  drugs : gmap string DrugRow;
  lots : gmap string LotRow;
  users : gmap string UserRow;
  console : list (LogLevel * string)
}.

Definition with_units (m : gmap string UnitRow) (w : World) : World :=
  {| units := m; transactions := transactions w; drugs := drugs w;
     lots := lots w; users := users w; console := console w |}.

Definition with_transactions (l : list TxRow) (w : World) : World :=
  {| units := units w; transactions := l; drugs := drugs w;
     lots := lots w; users := users w; console := console w |}.

Definition with_console (c : list (LogLevel * string)) (w : World) : World :=
  {| units := units w; transactions := transactions w; drugs := drugs w;
     lots := lots w; users := users w; console := c |}.

(** ** Call sites of the storage collaborator

    [Cu*]: in [createUnit], the insert of the unit, the update of its QR
    code, the insert of the check-in row, the joined re-read.  [GuFetch],
    [LuQuery], [UuUpdate], [AqQuery]: the one query of [getUnitById],
    [getUnits], [updateUnit], [getUnitsAdvanced].  [Fefo*]: in
    [checkOutMedicationFEFO], the drug lookup, the units query, then per
    unit the update, the ledger insert and the joined re-read, and in the
    compensation the re-read and the write per used unit (the two failure
    branches hold the same loop, and one call runs at most one of them)
    and the write to the current unit.  [Co*]: in [checkOutUnit], the
    read, the update, the ledger insert, the restoring write, the joined
    re-read.  [UtUpdate]: the update of [updateTransaction]. *)

Inductive Site :=
  | CuInsert | CuQrCode | CuTxInsert | CuFetch
  | GuFetch | LuQuery | UuUpdate | AqQuery
  | FefoDrug | FefoUnits | FefoUpdate | FefoInsert | FefoFetch
  | FefoRbRead | FefoRbWrite | FefoRbCurrent
  | CoRead | CoUpdate | CoInsert | CoRollback | CoFetch
  | UtUpdate.

Global Instance Site_eq_dec : EqDecision Site.
Proof. solve_decision. Defined.

(** ** Results and the monad *)

Inductive Res (A : Type) :=
  | Ok (a : A)
  | Throw (msg : string).
Arguments Ok {A} a.
Arguments Throw {A} msg.

Definition M (A : Type) : Type := World -> Res A * World.

Definition ret {A} (a : A) : M A := fun w => (Ok a, w).

Definition bind {A B} (c : M A) (k : A -> M B) : M B :=
  fun w => match c w with
           | (Ok a, w') => k a w'
           | (Throw e, w') => (Throw e, w')
           end.

Definition throw {A} (msg : string) : M A := fun w => (Throw msg, w).

Definition get_world : M World := fun w => (Ok w, w).

Definition modify (f : World -> World) : M unit := fun w => (Ok tt, f w).

(** What the outside decides during one call: which storage calls report
    an error (with the error's [message]), the identifiers and timestamps
    the store assigns to new rows, the calendar, and the collaborators
    whose code is elsewhere: the drug catalogue ([getOrCreateDrug] of
    drugService), the store's [ilike] operator and the engine's
    [localeCompare]. *)
Record Env := {
  fault : Site -> string -> option string;
  fresh_unit_id : string;
  fresh_tx_id : nat -> string;
  clock : string;
  today_plus : nat -> string;
  getOrCreateDrug : DrugRow -> M string;
  ilike : string -> string -> bool;
  localeCompare : string -> string -> Z
}.

Notation "'let*' x ':=' c 'in' k" := (bind c (fun x => k))
  (at level 10, x name, c at level 100, k at level 200).

Definition console_error (label msg : string) : M unit :=
  modify (fun w => with_console (console w ++ [(LError, label ++ " " ++ msg)]) w).

Definition console_log (label : string) : M unit :=
  modify (fun w => with_console (console w ++ [(LInfo, label)]) w).

(** ** JavaScript fragments *)

(** [s || d] on strings: the empty string is falsy. *)
Definition or_default (s d : string) : string :=
  match s with "" => d | _ => s end.

(** Truthiness of an optional string, number. *)
Definition truthy_str (o : option string) : bool :=
  match o with Some (String _ _) => true | _ => false end.

Definition truthy_num (o : option Z) : bool :=
  match o with Some z => negb (z =? 0)%Z | None => false end.

Definition lower_ascii (c : Ascii.ascii) : Ascii.ascii :=
  let n := Ascii.nat_of_ascii c in
  if ((65 <=? n) && (n <=? 90))%nat then Ascii.ascii_of_nat (n + 32) else c.

(** [String.prototype.toLowerCase] on ASCII text. *)
Fixpoint toLowerCase (s : string) : string :=
  match s with
  | "" => ""
  | String c s' => String (lower_ascii c) (toLowerCase s')
  end.

(** [String.prototype.includes]. *)
Definition includes (s sub : string) : bool :=
  match String.index 0 sub s with Some _ => true | None => false end.

(** The message PostgREST gives when [.single()] does not find one row. *)
Definition single_row_message : string :=
  "JSON object requested, multiple (or no) rows returned".

(** ** Storage primitives

    Joined rows, as a [select] embedding the drug, the lot and the user
    returns them: a missing parent row is [null]. *)

Record UnitJoined := {
  j_id : string;
  j_row : UnitRow;
  j_drug : option DrugRow;
  j_lot : option LotRow;
  j_user : option UserRow
}.

Definition join (w : World) (id : string) (r : UnitRow) : UnitJoined :=
  {| j_id := id; j_row := r;
     j_drug := drugs w !! drug_id r;
     j_lot := lots w !! lot_id r;
     j_user := users w !! user_id r |}.

(** All unit rows, each with its parents. *)
Definition all_units (w : World) : list UnitJoined :=
  (fun p => join w p.1 p.2) <$> map_to_list (units w).

(** [.update(f).eq('unit_id', id).eq('clinic_id', c)] on the units table. *)
Definition update_unit_where (id clinic : string) (f : UnitRow -> UnitRow)
    (m : gmap string UnitRow) : gmap string UnitRow :=
  match m !! id with
  | Some r => if decide (clinic_id r = clinic) then <[id := f r]> m else m
  | None => m
  end.

(** [.select(..).eq('unit_id', id).eq('clinic_id', c).single()]. *)
Definition select_unit_where (id clinic : string)
    (m : gmap string UnitRow) : option UnitRow :=
  match m !! id with
  | Some r => if decide (clinic_id r = clinic) then Some r else None
  | None => None
  end.

(** A storage write at site [s] on row [key]: it yields the [error] field
    of the response, and takes effect only when there is none. *)
Definition storage_write (env : Env) (s : Site) (key : string)
    (f : World -> World) : M (option string) :=
  fun w => match fault env s key with
           | Some e => (Ok (Some e), w)
           | None => (Ok None, f w)
           end.

(** [.range(from, to)]: sent as offset [from] and limit [to - from + 1]. *)
Definition range {A} (from to : Z) (l : list A) : list A :=
  take (Z.to_nat (to - from + 1)) (drop (Z.to_nat from) l).

Definition range_message : string := "Requested range not satisfiable".

(** [.order(column, { ascending })] for a column read by [key] and ordered
    by [R]. *)
Definition ordered {A} (R : relation A) (key : UnitJoined -> A)
    (ascending : bool) : relation UnitJoined :=
  fun a b => if ascending then R (key a) (key b) else R (key b) (key a).

Global Instance ordered_dec {A} (R : relation A) `{!RelDecision R}
    (key : UnitJoined -> A) (ascending : bool) :
  RelDecision (ordered R key ascending).
Proof. intros a b. unfold ordered. destruct ascending; apply _. Defined.

Global Instance ordered_total {A} (R : relation A) `{!Total R}
    (key : UnitJoined -> A) (ascending : bool) :
  Total (ordered R key ascending).
Proof. intros a b. unfold ordered. destruct ascending; apply total, _. Qed.

Definition order_by {A} (R : relation A) `{!RelDecision R}
    (key : UnitJoined -> A) (ascending : bool)
    (l : list UnitJoined) : list UnitJoined :=
  merge_sort (ordered R key ascending) l.

Definition sumZ (l : list Z) : Z := foldr Z.add 0 l.

(** ** Domain objects *)

(** [formatUnit] copies the columns of the row one by one under camelCase
    names and nests the three parents; the record keeps the row and the
    parents as they are. *)
Record Unit := {
  unitId : string;
  unitRow : UnitRow;
  drug : DrugRow;
  lot : LotRow;
  user : UserRow
}.

Definition totalQuantity (u : Unit) : Z := total_quantity (unitRow u).

Definition null_read (field : string) : string :=
  "Cannot read properties of null (reading '" ++ field ++ "')".

(** [formatUnit]: reading a column of a missing parent is a TypeError. *)
Definition formatUnit (j : UnitJoined) : Res Unit :=
  match j_drug j with
  | None => Throw (null_read "drug_id")
  | Some d =>
    match j_lot j with
    | None => Throw (null_read "lot_id")
    | Some l =>
      match j_user j with
      | None => Throw (null_read "user_id")
      | Some u =>
        Ok {| unitId := j_id j; unitRow := j_row j;
              drug := d; lot := l; user := u |}
      end
    end
  end.

(** [rows.map(formatUnit)]: the first TypeError aborts the map. *)
Fixpoint map_formatUnit (l : list UnitJoined) : Res (list Unit) :=
  match l with
  | [] => Ok []
  | j :: l' =>
    match formatUnit j with
    | Throw e => Throw e
    | Ok u =>
      match map_formatUnit l' with
      | Throw e => Throw e
      | Ok us => Ok (u :: us)
      end
    end
  end.

(** What [createUnit] hands back: the formatted unit, or the bare row when
    the joined re-read fails. *)
Inductive UnitView :=
  | FormattedUnit (u : Unit)
  | RawUnit (id : string) (r : UnitRow).

Definition view_id (v : UnitView) : string :=
  match v with FormattedUnit u => unitId u | RawUnit id _ => id end.

Definition view_row (v : UnitView) : UnitRow :=
  match v with FormattedUnit u => unitRow u | RawUnit _ r => r end.

(** ** Lot capacity (locationService) *)

(** Modelled from the spec: [getLotById] of locationService.ts, which is
    not among the sources.  The lot of that id in the tenant, or null. *)
Definition getLotById (lotId clinicId : string) (w : World) : option LotRow :=
  match lots w !! lotId with
  | Some l => if decide (lot_clinic_id l = clinicId) then Some l else None
  | None => None
  end.

(** Modelled from the spec: [getLotCurrentCapacity] of locationService.ts,
    which is not among the sources.  The sum of [totalQuantity] across all
    units in that lot, recomputed on demand. *)
Definition getLotCurrentCapacity (lotId : string) (w : World) : Z :=
  sumZ ((fun p => total_quantity p.2) <$>
        filter (fun p => lot_id p.2 = lotId) (map_to_list (units w))).

(** ** unitService.ts *)

Record CreateUnitRequest := {
  cu_totalQuantity : Z;
  cu_availableQuantity : Z;
  cu_lotId : string;
  cu_expiryDate : string;
  cu_drugId : option string;
  cu_drugData : option DrugRow;
  cu_patientReferenceId : option string;
  cu_optionalNotes : option string;
  cu_manufacturerLotNumber : option string
}.

Definition capacity_message (current max attempted : Z) : string :=
  "Cannot add unit: Would exceed lot capacity. " ++
  "Current: " ++ pretty current ++ "/" ++ pretty max ++ ", " ++
  "Attempting to add: " ++ pretty attempted ++ ", " ++
  "Available: " ++ pretty (max - current).

Definition duplicate_key_message : string :=
  "duplicate key value violates unique constraint".

(** The row [createUnit] inserts; [date_created] is the column default. *)
Definition new_unit_row (env : Env) (input : CreateUnitRequest)
    (drugId userId clinicId : string) : UnitRow :=
  {| total_quantity := cu_totalQuantity input;
     available_quantity := cu_availableQuantity input;
     patient_reference_id := None;
     lot_id := cu_lotId input;
     expiry_date := cu_expiryDate input;
     date_created := clock env;
     user_id := userId;
     drug_id := drugId;
     qr_code := None;
     optional_notes := cu_optionalNotes input;
     manufacturer_lot_number := cu_manufacturerLotNumber input;
     clinic_id := clinicId |}.

(** [.from('units').insert(row).select().single()]: the error, or the id
    the store gave to the row. *)
Definition insert_unit (env : Env) (row : UnitRow) : M (string + string) :=
  fun w =>
    match fault env CuInsert (fresh_unit_id env) with
    | Some e => (Ok (inl e), w)
    | None =>
      match units w !! fresh_unit_id env with
      | Some _ => (Ok (inl duplicate_key_message), w)
      | None =>
        (Ok (inr (fresh_unit_id env)),
         with_units (<[fresh_unit_id env := row]> (units w)) w)
      end
    end.

Definition check_in_row (env : Env) (w : World) (q : Z)
    (unitId userId clinicId : string) : TxRow :=
  {| transaction_id := fresh_tx_id env (length (transactions w));
     timestamp := clock env;
     tx_type := check_in;
     quantity := q;
     tx_unit_id := unitId;
     patient_name := None;
     tx_patient_reference_id := None;
     tx_user_id := userId;
     notes := Some "Initial check-in";
     tx_clinic_id := clinicId |}.

Definition append_tx (t : TxRow) (w : World) : World :=
  with_transactions (transactions w ++ [t]) w.

(** The first lines of [createUnit]: the drug id of the request, or the
    one the catalogue gives for [drugData]. *)
Definition resolve_unit_drug (env : Env) (input : CreateUnitRequest)
    : M (option string) :=
  match cu_drugData input with
  | Some data =>
    if truthy_str (cu_drugId input) then ret (cu_drugId input)
    else let* d := getOrCreateDrug env data in ret (Some d)
  | None => ret (cu_drugId input)
  end.

(** [createUnit] from the test on the resolved drug id onwards. *)
Definition createUnit_for (env : Env) (input : CreateUnitRequest)
    (drugId : option string) (userId clinicId : string) : M UnitView :=
  match drugId with
  | None | Some "" => throw "Either drugId or drugData must be provided"
  | Some drugId =>
    let* w := get_world in
    match getLotById (cu_lotId input) clinicId w with
    | None => throw "Lot not found"
    | Some lot =>
      let* _ :=
        match max_capacity lot with
        | Some maxCapacity =>
          let currentCapacity := getLotCurrentCapacity (cu_lotId input) w in
          let newTotalCapacity := currentCapacity + cu_totalQuantity input in
          if maxCapacity <? newTotalCapacity
          then throw (capacity_message currentCapacity maxCapacity
                        (cu_totalQuantity input))
          else ret tt
        | None => ret tt
        end in
      let* ins :=
        insert_unit env (new_unit_row env input drugId userId clinicId) in
      match ins with
      | inl e =>
        let* _ := console_error "[UnitService] Error creating unit:" e in
        throw ("Failed to create unit: " ++ or_default e "Unknown error")
      | inr unit_id =>
        let* _ := console_log "[UnitService] Unit created successfully:" in
        let* qrError := storage_write env CuQrCode unit_id (fun w =>
          with_units (alter (set_qr_code (Some unit_id)) unit_id (units w)) w) in
        let* _ :=
          match qrError with
          | Some e => console_error "Error updating QR code:" e
          | None => ret tt
          end in
        let unit := set_qr_code (Some unit_id)
                      (new_unit_row env input drugId userId clinicId) in
        let* transactionError := storage_write env CuTxInsert unit_id (fun w =>
          append_tx (check_in_row env w (cu_totalQuantity input)
                       unit_id userId clinicId) w) in
        let* _ :=
          match transactionError with
          | Some e => console_error "Error creating transaction:" e
          | None => ret tt
          end in
        let* w' := get_world in
        match fault env CuFetch unit_id, units w' !! unit_id with
        | None, Some r =>
          match formatUnit (join w' unit_id r) with
          | Ok u => ret (FormattedUnit u)
          | Throw e => throw e
          end
        | Some e, _ =>
          let* _ := console_error "Error fetching complete unit:" e in
          ret (RawUnit unit_id unit)
        | None, None =>
          let* _ := console_error "Error fetching complete unit:"
                      single_row_message in
          ret (RawUnit unit_id unit)
        end
      end
    end
  end.

Definition createUnit (env : Env) (input : CreateUnitRequest)
    (userId clinicId : string) : M UnitView :=
  let* _ := console_log "[UnitService] Creating unit with input:" in
  let* drugId := resolve_unit_drug env input in
  createUnit_for env input drugId userId clinicId.

Definition getUnitById (env : Env) (unitId clinicId : string)
    : M (option Unit) :=
  let* w := get_world in
  match fault env GuFetch unitId,
        select_unit_where unitId clinicId (units w) with
  | None, Some r =>
    match formatUnit (join w unitId r) with
    | Ok u => ret (Some u)
    | Throw e => throw e
    end
  | _, _ => ret None
  end.

Record UnitPage := {
  p_units : list Unit;
  p_total : Z;
  p_page : Z;
  p_pageSize : Z
}.

Definition str_has (s q : string) : bool :=
  match s with "" => false | _ => includes (toLowerCase s) q end.

Definition opt_has (o : option string) (q : string) : bool :=
  match o with Some s => str_has s q | None => false end.

(** [n && n.toString().includes(q)] for a quantity. *)
Definition num_has (n : Z) (q : string) : bool :=
  negb (n =? 0) && includes (pretty n) q.

Definition on_parent {A} (o : option A) (f : A -> bool) : bool :=
  match o with Some a => f a | None => false end.

(** The client-side search predicate of [getUnits]. *)
Definition unit_matches (searchLower : string) (j : UnitJoined) : bool :=
  opt_has (optional_notes (j_row j)) searchLower
  || on_parent (j_drug j) (fun d => str_has (medication_name d) searchLower)
  || on_parent (j_drug j) (fun d => str_has (generic_name d) searchLower)
  || on_parent (j_drug j) (fun d => str_has (ndc_id d) searchLower)
  || on_parent (j_drug j) (fun d => str_has (form d) searchLower)
  || on_parent (j_lot j) (fun l => str_has (lot_source l) searchLower)
  || on_parent (j_lot j) (fun l => opt_has (lot_note l) searchLower)
  || str_has (j_id j) searchLower
  || num_has (available_quantity (j_row j)) searchLower
  || num_has (total_quantity (j_row j)) searchLower
  || on_parent (j_user j) (fun u => str_has (username u) searchLower).

Definition in_clinic (clinicId : string) (j : UnitJoined) : bool :=
  bool_decide (clinic_id (j_row j) = clinicId).

(** The rows the page query of [getUnits] returns, and the exact count. *)
Definition units_page (w : World) (clinicId : string) (from to : Z)
    : list UnitJoined :=
  range from to
    (order_by String.le (fun j => date_created (j_row j)) false
       (filter (fun j => in_clinic clinicId j) (all_units w))).

Definition units_count (w : World) (clinicId : string) : Z :=
  Z.of_nat (length (filter (fun j => in_clinic clinicId j) (all_units w))).

(** The query is one call: the store either reports an error, refuses a
    negative offset or limit, or answers with the page and the count. *)
Definition getUnits (env : Env) (clinicId : string) (page pageSize : Z)
    (search : option string) : M UnitPage :=
  let from := (page - 1) * pageSize in
  let to := from + pageSize - 1 in
  let* w := get_world in
  match fault env LuQuery clinicId with
  | Some e => throw ("Failed to get units: " ++ e)
  | None =>
    if (from <? 0) || (to - from + 1 <? 0)
    then throw ("Failed to get units: " ++ range_message)
    else
      let units := units_page w clinicId from to in
      let count := units_count w clinicId in
      let filteredUnits :=
        match search with
        | Some (String _ _ as search) =>
          filter (fun j => unit_matches (toLowerCase search) j) units
        | _ => units
        end in
      match map_formatUnit filteredUnits with
      | Throw e => throw e
      | Ok formatted =>
        ret {| p_units := formatted;
               p_total := if truthy_str search
                          then Z.of_nat (length filteredUnits)
                          else count;
               p_page := page;
               p_pageSize := pageSize |}
      end
  end.

Record UnitUpdates := {
  up_totalQuantity : option Z;
  up_availableQuantity : option Z;
  up_expiryDate : option string;
  up_optionalNotes : option string
}.

Definition apply_opt {A B} (f : A -> B -> B) (o : option A) (b : B) : B :=
  match o with Some a => f a b | None => b end.

(** The columns [updateUnit] puts into [updateData], applied to a row. *)
Definition apply_unit_updates (updates : UnitUpdates) (r : UnitRow) : UnitRow :=
  apply_opt (fun v => set_optional_notes (Some v)) (up_optionalNotes updates)
    (apply_opt set_expiry_date (up_expiryDate updates)
       (apply_opt set_available_quantity (up_availableQuantity updates)
          (apply_opt set_total_quantity (up_totalQuantity updates) r))).

Definition updateUnit (env : Env) (unitId : string) (updates : UnitUpdates)
    (clinicId : string) : M Unit :=
  let* w := get_world in
  match fault env UuUpdate unitId with
  | Some e => throw ("Failed to update unit: " ++ e)
  | None =>
    match select_unit_where unitId clinicId (units w) with
    | None => throw ("Failed to update unit: " ++ single_row_message)
    | Some _ =>
      let* _ := modify (fun w =>
        with_units (update_unit_where unitId clinicId
                      (apply_unit_updates updates) (units w)) w) in
      let* w' := get_world in
      match units w' !! unitId with
      | Some r =>
        match formatUnit (join w' unitId r) with
        | Ok u => ret u
        | Throw e => throw e
        end
      | None => throw ("Failed to update unit: " ++ single_row_message)
      end
    end
  end.

Inductive ExpirationWindow :=
  | EXPIRED | EXPIRING_7_DAYS | EXPIRING_30_DAYS
  | EXPIRING_60_DAYS | EXPIRING_90_DAYS | ALL.

Inductive SortField :=
  | EXPIRY_DATE | MEDICATION_NAME | QUANTITY | CREATED_DATE | STRENGTH.

Inductive SortOrder := ASC | DESC.

Record UnitFilters := {
  f_expiryDateFrom : option string;
  f_expiryDateTo : option string;
  f_locationIds : option (list string);
  f_minStrength : option Z;
  f_maxStrength : option Z;
  f_strengthUnit : option string;
  f_expirationWindow : option ExpirationWindow;
  f_medicationName : option string;
  f_genericName : option string;
  f_ndcId : option string;
  f_sortBy : option SortField;
  f_sortOrder : option SortOrder
}.

Definition expiry (j : UnitJoined) : string := expiry_date (j_row j).

(** [today <= expiry_date <= today + n days], as [.gte(..).lte(..)]. *)
Definition expiring_within (env : Env) (n : nat) (j : UnitJoined) : bool :=
  String.leb (today_plus env 0) (expiry j)
  && String.leb (expiry j) (today_plus env n).

(** The [switch] on [filters.expirationWindow]. *)
Definition window_filter (env : Env) (win : option ExpirationWindow)
    (j : UnitJoined) : bool :=
  match win with
  | Some EXPIRED => String.ltb (expiry j) (today_plus env 0)
  | Some EXPIRING_7_DAYS => expiring_within env 7 j
  | Some EXPIRING_30_DAYS => expiring_within env 30 j
  | Some EXPIRING_60_DAYS => expiring_within env 60 j
  | Some EXPIRING_90_DAYS => expiring_within env 90 j
  | Some ALL | None => true
  end.

(** The two [if]s on [expiryDateFrom] and [expiryDateTo]. *)
Definition date_range_filter (from to : option string) (j : UnitJoined) : bool :=
  match from with
  | Some (String _ _ as d) => String.leb d (expiry j)
  | _ => true
  end
  && match to with
     | Some (String _ _ as d) => String.leb (expiry j) d
     | _ => true
     end.

(** The server-side predicate the query of [getUnitsAdvanced] accumulates. *)
Definition advanced_server_filter (env : Env) (clinicId : string)
    (filters : UnitFilters) (j : UnitJoined) : bool :=
  in_clinic clinicId j
  && window_filter env (f_expirationWindow filters) j
  && date_range_filter (f_expiryDateFrom filters) (f_expiryDateTo filters) j.

Definition advanced_server_order (sortField : SortField) (ascending : bool)
    (l : list UnitJoined) : list UnitJoined :=
  match sortField with
  | EXPIRY_DATE => order_by String.le expiry ascending l
  | CREATED_DATE =>
    order_by String.le (fun j => date_created (j_row j)) ascending l
  | QUANTITY =>
    order_by Z.le (fun j => available_quantity (j_row j)) ascending l
  | MEDICATION_NAME | STRENGTH => order_by String.le expiry ascending l
  end.

(** The client-side predicate of [getUnitsAdvanced]. *)
Definition advanced_client_filter (filters : UnitFilters)
    (j : UnitJoined) : bool :=
  match f_locationIds filters with
  | Some ((_ :: _) as ids) =>
    on_parent (j_lot j) (fun l => bool_decide (location_id l ∈ ids))
  | _ => true
  end
  && match j_drug j with
     | None => true
     | Some d =>
       match f_minStrength filters with
       | Some m => negb (strength d <? m)
       | None => true
       end
       && match f_maxStrength filters with
          | Some m => negb (m <? strength d)
          | None => true
          end
       && match f_strengthUnit filters with
          | Some (String _ _ as u) => bool_decide (strength_unit d = u)
          | _ => true
          end
       && match f_medicationName filters with
          | Some (String _ _ as n) =>
            includes (toLowerCase (medication_name d)) (toLowerCase n)
          | _ => true
          end
       && match f_genericName filters with
          | Some (String _ _ as n) =>
            includes (toLowerCase (generic_name d)) (toLowerCase n)
          | _ => true
          end
       && match f_ndcId filters with
          | Some (String _ _ as n) => bool_decide (ndc_id d = n)
          | _ => true
          end
     end.

(** [Array.prototype.sort(cmp)]: a stable sort; an element moves behind
    those that the comparator puts before it. *)
Fixpoint sort_insert {A} (cmp : A -> A -> Z) (x : A) (l : list A) : list A :=
  match l with
  | [] => [x]
  | y :: l' => if 0 <? cmp x y then y :: sort_insert cmp x l' else x :: l
  end.

Definition array_sort {A} (cmp : A -> A -> Z) (l : list A) : list A :=
  foldr (sort_insert cmp) [] l.

Definition name_of (j : UnitJoined) : string :=
  match j_drug j with Some d => medication_name d | None => "" end.

Definition strength_of (j : UnitJoined) : Z :=
  match j_drug j with Some d => strength d | None => 0 end.

Definition advanced_client_sort (env : Env) (sortField : SortField)
    (ascending : bool) (l : list UnitJoined) : list UnitJoined :=
  match sortField with
  | MEDICATION_NAME =>
    array_sort (fun a b =>
      if ascending then localeCompare env (name_of a) (name_of b)
      else localeCompare env (name_of b) (name_of a)) l
  | STRENGTH =>
    array_sort (fun a b =>
      if ascending then strength_of a - strength_of b
      else strength_of b - strength_of a) l
  | _ => l
  end.

Definition getUnitsAdvanced (env : Env) (clinicId : string)
    (filters : UnitFilters) (page pageSize : Z) : M UnitPage :=
  let sortField := default EXPIRY_DATE (f_sortBy filters) in
  let ascending :=
    match default ASC (f_sortOrder filters) with ASC => true | DESC => false end in
  let from := (page - 1) * pageSize in
  let to := from + pageSize - 1 in
  let* w := get_world in
  match fault env AqQuery clinicId with
  | Some e => throw ("Failed to get units: " ++ e)
  | None =>
    if (from <? 0) || (to - from + 1 <? 0)
    then throw ("Failed to get units: " ++ range_message)
    else
      let selected :=
        filter (fun j => advanced_server_filter env clinicId filters j)
          (all_units w) in
      let units := range from to (advanced_server_order sortField ascending selected) in
      let count := Z.of_nat (length selected) in
      let filteredUnits :=
        advanced_client_sort env sortField ascending
          (filter (fun j => advanced_client_filter filters j) units) in
      match map_formatUnit filteredUnits with
      | Throw e => throw e
      | Ok formatted =>
        ret {| p_units := formatted; p_total := count;
               p_page := page; p_pageSize := pageSize |}
      end
  end.

(** ** transactionService.ts

    [formatTransaction] renames the columns of a ledger row to camelCase
    and copies the embedded unit and user when they are present; it has no
    failing case and the model keeps the row. *)

Record FEFOCheckoutRequest := {
  fq_ndcId : option string;
  fq_medicationName : option string;
  fq_strength : option Z;
  fq_strengthUnit : option string;
  fq_quantity : Z;
  fq_patientName : option string;
  fq_patientReferenceId : option string;
  fq_notes : option string
}.

Record UnitUsed := {
  uu_unitId : string;
  quantityTaken : Z;
  uu_expiryDate : string;
  uu_medicationName : string
}.

Record FEFOCheckoutResult := {
  r_transactions : list TxRow;
  totalQuantityDispensed : Z;
  unitsUsed : list UnitUsed
}.

(** [.from('transactions').insert(row).select().single()] at site [s]:
    the error, or the row as stored. *)
Definition insert_tx (env : Env) (s : Site) (key : string)
    (row : World -> TxRow) : M (string + TxRow) :=
  fun w =>
    match fault env s key with
    | Some e => (Ok (inl e), w)
    | None => (Ok (inr (row w)), append_tx (row w) w)
    end.

Definition check_out_row (env : Env) (q : Z) (unitId : string)
    (patientName patientReferenceId : option string) (userId : string)
    (note : option string) (clinicId : string) (w : World) : TxRow :=
  {| transaction_id := fresh_tx_id env (length (transactions w));
     timestamp := clock env;
     tx_type := check_out;
     quantity := q;
     tx_unit_id := unitId;
     patient_name := patientName;
     tx_patient_reference_id := patientReferenceId;
     tx_user_id := userId;
     notes := note;
     tx_clinic_id := clinicId |}.

Definition from_str (o : option string) : string := default "" o.

(** The drug ids the request designates: one by NDC, or all those of the
    name, strength and unit. *)
Definition resolve_drugs (env : Env) (input : FEFOCheckoutRequest)
    (w : World) : Res (list string) :=
  match fq_ndcId input with
  | Some (String _ _ as ndc) =>
    match fault env FefoDrug ndc with
    | Some _ => Throw ("No medication found with NDC: " ++ ndc)
    | None =>
      match filter (fun p => ndc_id p.2 = ndc) (map_to_list (drugs w)) with
      | [p] => Ok [p.1]
      | _ => Throw ("No medication found with NDC: " ++ ndc)
      end
    end
  | _ =>
    let name := from_str (fq_medicationName input) in
    let str := default 0 (fq_strength input) in
    let unit := from_str (fq_strengthUnit input) in
    let none := "No medication found matching: " ++ name ++ " "
                ++ pretty str ++ unit in
    match fault env FefoDrug name with
    | Some _ => Throw none
    | None =>
      match filter (fun p => ilike env (medication_name p.2) name = true
                             ∧ strength p.2 = str
                             ∧ strength_unit p.2 = unit)
                   (map_to_list (drugs w)) with
      | [] => Throw none
      | ds => Ok (fst <$> ds)
      end
    end
  end.

(** The units query of the allocator: the tenant's units of those drugs
    with stock left, soonest expiry first. *)
Definition fefo_candidates (w : World) (clinicId : string)
    (drugIds : list string) : list UnitJoined :=
  order_by String.le expiry true
    (filter (fun j => clinic_id (j_row j) = clinicId
                      ∧ 0 < available_quantity (j_row j)
                      ∧ drug_id (j_row j) ∈ drugIds)
            (all_units w)).

Record FefoAcc := {
  remainingQuantity : Z;
  acc_transactions : list TxRow;
  acc_unitsUsed : list UnitUsed
}.

(** The loop over [unitsUsed] that both failure branches run: re-read the
    unit and write back what it holds now plus what was taken. *)
Fixpoint fefo_rollback (env : Env) (clinicId : string)
    (used : list UnitUsed) : M unit :=
  match used with
  | [] => ret tt
  | usedUnit :: rest =>
    let* w := get_world in
    let* _ :=
      match fault env FefoRbRead (uu_unitId usedUnit),
            select_unit_where (uu_unitId usedUnit) clinicId (units w) with
      | None, Some rollbackUnit =>
        let* _ := storage_write env FefoRbWrite (uu_unitId usedUnit) (fun w =>
          with_units (update_unit_where (uu_unitId usedUnit) clinicId
            (set_available_quantity
               (available_quantity rollbackUnit + quantityTaken usedUnit))
            (units w)) w) in
        ret tt
      | _, _ => ret tt
      end in
    fefo_rollback env clinicId rest
  end.

Definition fefo_note (input : FEFOCheckoutRequest) (used : list UnitUsed)
    : string :=
  match fq_notes input with
  | Some (String _ _ as n) => n
  | _ => "FEFO checkout - Unit " ++ pretty (Z.of_nat (length used) + 1)
         ++ " of batch"
  end.

(** One turn of the loop body, past the [break] test. *)
Definition fefo_step (env : Env) (input : FEFOCheckoutRequest)
    (userId clinicId : string) (unit : UnitJoined) (acc : FefoAcc)
    : M FefoAcc :=
  let available := available_quantity (j_row unit) in
  let quantityToTake := Z.min (remainingQuantity acc) available in
  let newAvailableQuantity := available - quantityToTake in
  let* updateError := storage_write env FefoUpdate (j_id unit) (fun w =>
    with_units (update_unit_where (j_id unit) clinicId
                  (set_available_quantity newAvailableQuantity) (units w)) w) in
  match updateError with
  | Some e =>
    let* _ := console_error "FEFO: Error updating unit quantity:" e in
    let* _ := fefo_rollback env clinicId (acc_unitsUsed acc) in
    throw ("Failed to update unit: " ++ e)
  | None =>
    let* ins := insert_tx env FefoInsert (j_id unit)
      (check_out_row env quantityToTake (j_id unit) (fq_patientName input)
         (fq_patientReferenceId input) userId
         (Some (fefo_note input (acc_unitsUsed acc))) clinicId) in
    match ins with
    | inl e =>
      let* _ := console_error "FEFO: Error creating transaction:" e in
      let* _ := fefo_rollback env clinicId (acc_unitsUsed acc) in
      let* _ := storage_write env FefoRbCurrent (j_id unit) (fun w =>
        with_units (update_unit_where (j_id unit) clinicId
                      (set_available_quantity available) (units w)) w) in
      throw ("Failed to create transaction: " ++ or_default e "Unknown error")
    | inr transaction =>
      let* _ :=
        match fault env FefoFetch (transaction_id transaction) with
        | Some e => console_error "FEFO: Error fetching complete transaction:" e
        | None => ret tt
        end in
      match j_drug unit with
      | None => throw (null_read "medication_name")
      | Some d =>
        ret {| remainingQuantity := remainingQuantity acc - quantityToTake;
               acc_transactions := acc_transactions acc ++ [transaction];
               acc_unitsUsed := acc_unitsUsed acc ++
                 [{| uu_unitId := j_id unit;
                     quantityTaken := quantityToTake;
                     uu_expiryDate := expiry unit;
                     uu_medicationName := medication_name d |}] |}
      end
    end
  end.

(** [for (const unit of units) { if (remainingQuantity <= 0) break; .. }] *)
Fixpoint fefo_loop (env : Env) (input : FEFOCheckoutRequest)
    (userId clinicId : string) (units : list UnitJoined) (acc : FefoAcc)
    : M FefoAcc :=
  match units with
  | [] => ret acc
  | unit :: rest =>
    if remainingQuantity acc <=? 0 then ret acc
    else
      let* acc' := fefo_step env input userId clinicId unit acc in
      fefo_loop env input userId clinicId rest acc'
  end.

Definition insufficient_message (available requested : Z) : string :=
  "Insufficient quantity. Available: " ++ pretty available
  ++ ", Requested: " ++ pretty requested.

(** [units.reduce((sum, unit) => sum + unit.available_quantity, 0)] *)
Definition total_available (units : list UnitJoined) : Z :=
  foldl (fun sum unit => sum + available_quantity (j_row unit)) 0 units.

(** [!ndcId && (!medicationName || !strength || !strengthUnit)] *)
Definition fefo_invalid (input : FEFOCheckoutRequest) : bool :=
  negb (truthy_str (fq_ndcId input))
  && (negb (truthy_str (fq_medicationName input))
      || negb (truthy_num (fq_strength input))
      || negb (truthy_str (fq_strengthUnit input))).

Definition checkOutMedicationFEFO (env : Env) (input : FEFOCheckoutRequest)
    (userId clinicId : string) : M FEFOCheckoutResult :=
  if fefo_invalid input
  then throw "Must provide either NDC or medication name with strength and unit"
  else if fq_quantity input <=? 0
  then throw "Quantity must be greater than 0"
  else
    let* w := get_world in
    match resolve_drugs env input w with
    | Throw e => throw e
    | Ok drugIds =>
      match fault env FefoUnits clinicId with
      | Some e => throw ("Failed to fetch units: " ++ e)
      | None =>
        let units := fefo_candidates w clinicId drugIds in
        match units with
        | [] => throw "No units available for this medication"
        | _ =>
          let totalAvailable := total_available units in
          if totalAvailable <? fq_quantity input
          then throw (insufficient_message totalAvailable (fq_quantity input))
          else
            let* acc := fefo_loop env input userId clinicId units
                          {| remainingQuantity := fq_quantity input;
                             acc_transactions := [];
                             acc_unitsUsed := [] |} in
            ret {| r_transactions := acc_transactions acc;
                   totalQuantityDispensed := fq_quantity input;
                   unitsUsed := acc_unitsUsed acc |}
        end
      end
    end.

(** ** The numbers of the allocator

    The quantities of the code are binary64 floating-point numbers.  The
    arithmetic of [checkOutMedicationFEFO] is set apart here over any
    numbers [N], to be run on the whole numbers of the model and on
    binary64 numbers. *)

Record Numbers (N : Type) := {
  n_zero : N;
  n_add : N -> N -> N;
  n_sub : N -> N -> N;
  n_leb : N -> N -> bool;
  n_ltb : N -> N -> bool;
  n_min : N -> N -> N
}.
Arguments n_zero {N} _.
Arguments n_add {N} _ _ _.
Arguments n_sub {N} _ _ _.
Arguments n_leb {N} _ _ _.
Arguments n_ltb {N} _ _ _.
Arguments n_min {N} _ _ _.

(** [units.reduce((sum, unit) => sum + unit.available_quantity, 0)] *)
Definition total_of {N} (A : Numbers N) (available : list N) : N :=
  foldl (n_add A) (n_zero A) available.

(** The quantities the loop takes, unit after unit:
    [if (remainingQuantity <= 0) break], then
    [Math.min(remainingQuantity, unit.available_quantity)], then
    [remainingQuantity -= quantityToTake]. *)
Fixpoint takes {N} (A : Numbers N) (remainingQuantity : N)
    (available : list N) : list N :=
  match available with
  | [] => []
  | a :: rest =>
    if n_leb A remainingQuantity (n_zero A) then []
    else
      let quantityToTake := n_min A remainingQuantity a in
      quantityToTake :: takes A (n_sub A remainingQuantity quantityToTake) rest
  end.

(** What a call takes from candidates that hold [available], when the
    store answers every call; nothing when one of the three guards
    throws ([quantity <= 0], no candidate, [totalAvailable < quantity]). *)
Definition fefo_takes {N} (A : Numbers N) (quantity : N)
    (available : list N) : option (list N) :=
  if n_leb A quantity (n_zero A) then None
  else
    match available with
    | [] => None
    | _ =>
      if n_ltb A (total_of A available) quantity then None
      else Some (takes A quantity available)
    end.

(** The whole numbers of the model. *)
Definition whole : Numbers Z :=
  {| n_zero := 0; n_add := Z.add; n_sub := Z.sub;
     n_leb := Z.leb; n_ltb := Z.ltb; n_min := Z.min |}.

(** Binary64 numbers, with the operations of IEEE 754 in the rounding
    to nearest, ties to even, of JavaScript. *)
Module Binary64.

Definition number : Type := SpecFloat.spec_float.

Definition of_whole (n : Z) : number :=
  SpecFloat.binary_normalize 53 1024 n 0 false.

Definition add : number -> number -> number := SpecFloat.SFadd 53 1024.
Definition sub : number -> number -> number := SpecFloat.SFsub 53 1024.
Definition div : number -> number -> number := SpecFloat.SFdiv 53 1024.

(** [Math.min]: [NaN] when an argument is, and [-0] below [+0]. *)
Definition min (a b : number) : number :=
  match a, b with
  | SpecFloat.S754_nan, _ | _, SpecFloat.S754_nan => SpecFloat.S754_nan
  | SpecFloat.S754_zero sa, SpecFloat.S754_zero sb =>
    SpecFloat.S754_zero (sa || sb)
  | _, _ => if SpecFloat.SFltb a b then a else b
  end.

(** The decimal literal [n/10], such as [0.9]: the binary64 number
    nearest to it. *)
Definition tenths (n : Z) : number := div (of_whole n) (of_whole 10).

(** The value of a finite number, in units of 2^-1074. *)
Definition scaled (x : number) : Z :=
  match x with
  | SpecFloat.S754_finite s m e =>
    (if s then -1 else 1) * Z.pos m * 2 ^ (e + 1074)
  | _ => 0
  end.

End Binary64.

Definition binary64 : Numbers Binary64.number :=
  {| n_zero := Binary64.of_whole 0;
     n_add := Binary64.add; n_sub := Binary64.sub;
     n_leb := SpecFloat.SFleb; n_ltb := SpecFloat.SFltb;
     n_min := Binary64.min |}.

Record CheckOutRequest := {
  co_unitId : string;
  co_quantity : Z;
  co_patientName : option string;
  co_patientReferenceId : option string;
  co_notes : option string
}.

Definition checkOutUnit (env : Env) (input : CheckOutRequest)
    (userId clinicId : string) : M TxRow :=
  let* w := get_world in
  match fault env CoRead (co_unitId input),
        select_unit_where (co_unitId input) clinicId (units w) with
  | None, Some unit =>
    if available_quantity unit <? co_quantity input
    then throw (insufficient_message (available_quantity unit)
                  (co_quantity input))
    else
      let newAvailableQuantity := available_quantity unit - co_quantity input in
      let* updateError := storage_write env CoUpdate (co_unitId input) (fun w =>
        with_units (update_unit_where (co_unitId input) clinicId
                      (set_available_quantity newAvailableQuantity)
                      (units w)) w) in
      match updateError with
      | Some e =>
        let* _ := console_error "Error updating unit quantity:" e in
        throw ("Failed to update unit: " ++ e)
      | None =>
        let* ins := insert_tx env CoInsert (co_unitId input)
          (check_out_row env (co_quantity input) (co_unitId input)
             (co_patientName input) (co_patientReferenceId input) userId
             (co_notes input) clinicId) in
        match ins with
        | inl e =>
          let* _ := console_error "Error creating checkout transaction:" e in
          let* _ := storage_write env CoRollback (co_unitId input) (fun w =>
            with_units (update_unit_where (co_unitId input) clinicId
                          (set_available_quantity (available_quantity unit))
                          (units w)) w) in
          throw ("Failed to create transaction: "
                 ++ or_default e "Unknown error")
        | inr transaction =>
          match fault env CoFetch (transaction_id transaction) with
          | Some e =>
            let* _ := console_error "Error fetching complete transaction:" e in
            ret transaction
          | None => ret transaction
          end
        end
      end
  | _, _ => throw "Unit not found"
  end.

Record TxUpdates := {
  tu_quantity : option Z;
  tu_notes : option string
}.

Definition apply_tx_updates (updates : TxUpdates) (t : TxRow) : TxRow :=
  apply_opt (fun v => set_notes (Some v)) (tu_notes updates)
    (apply_opt set_quantity (tu_quantity updates) t).

Definition tx_selected (transactionId clinicId : string) (t : TxRow) : bool :=
  bool_decide (transaction_id t = transactionId)
  && bool_decide (tx_clinic_id t = clinicId).

Definition updateTransaction (env : Env) (transactionId : string)
    (updates : TxUpdates) (clinicId : string) : M TxRow :=
  let* w := get_world in
  match fault env UtUpdate transactionId with
  | Some e => throw ("Failed to update transaction: " ++ e)
  | None =>
    match filter (fun t => tx_selected transactionId clinicId t)
                 (transactions w) with
    | [t] =>
      let* _ := modify (fun w =>
        with_transactions
          ((fun t => if tx_selected transactionId clinicId t
                     then apply_tx_updates updates t else t)
           <$> transactions w) w) in
      ret (apply_tx_updates updates t)
    | _ => throw ("Failed to update transaction: " ++ single_row_message)
    end
  end.

(** ** Properties stated by the specification *)

(** The unit invariant of the data model. *)
Definition unit_inv (r : UnitRow) : Prop :=
  0 <= available_quantity r <= total_quantity r.

Global Instance unit_inv_dec r : Decision (unit_inv r).
Proof. unfold unit_inv. apply _. Defined.

(** Every unit that satisfies the invariant in [m] and is still there in
    [m'] satisfies it in [m']. *)
Definition preserves_inv (m m' : gmap string UnitRow) : Prop :=
  forall id r r', m !! id = Some r -> unit_inv r -> m' !! id = Some r' ->
                  unit_inv r'.

(** The storage reports exactly one error during the call: at [site], on
    the row [key], with message [e]. *)
Definition only_fault (env : Env) (site : Site) (key e : string) : Prop :=
  forall s k, fault env s k
              = if decide (s = site /\ k = key) then Some e else None.

(** What a candidate of the allocator is, seen from the store [m] it was
    read from. *)
Definition candidate_of (m : gmap string UnitRow) (clinicId : string)
    (j : UnitJoined) : Prop :=
  m !! j_id j = Some (j_row j)
  /\ clinic_id (j_row j) = clinicId
  /\ 0 < available_quantity (j_row j).

(** The units map after [fefo_rollback]. *)
Fixpoint rollback_units (env : Env) (clinicId : string)
    (used : list UnitUsed) (m : gmap string UnitRow) : gmap string UnitRow :=
  match used with
  | [] => m
  | usedUnit :: rest =>
    rollback_units env clinicId rest
      match fault env FefoRbRead (uu_unitId usedUnit),
            select_unit_where (uu_unitId usedUnit) clinicId m with
      | None, Some rollbackUnit =>
        match fault env FefoRbWrite (uu_unitId usedUnit) with
        | Some _ => m
        | None =>
          update_unit_where (uu_unitId usedUnit) clinicId
            (set_available_quantity
               (available_quantity rollbackUnit + quantityTaken usedUnit)) m
        end
      | _, _ => m
      end
  end.

(** The state of the walk: [used] have been decremented in [m], the units
    of [us] are still as in the store [m0] the candidates were read from. *)
Definition walk_inv (m0 : gmap string UnitRow) (clinicId : string)
    (used : list UnitUsed) (us : list UnitJoined)
    (m : gmap string UnitRow) : Prop :=
  NoDup ((uu_unitId <$> used) ++ (j_id <$> us))
  /\ Forall (candidate_of m0 clinicId) us
  /\ Forall (fun u => exists r0,
               m0 !! uu_unitId u = Some r0
               /\ clinic_id r0 = clinicId
               /\ m !! uu_unitId u
                  = Some (set_available_quantity
                            (available_quantity r0 - quantityTaken u) r0)
               /\ 0 <= quantityTaken u <= available_quantity r0) used
  /\ (forall id, id ∉ (uu_unitId <$> used) -> m !! id = m0 !! id).

(** Each row of [m'] is the row of [m] with an available quantity that is
    the same or lower, and not negative when it changed. *)
Definition tracks (m m' : gmap string UnitRow) : Prop :=
  forall id,
    match m !! id with
    | None => m' !! id = None
    | Some r => exists a, m' !! id = Some (set_available_quantity a r)
                          /\ (a = available_quantity r
                              \/ 0 <= a <= available_quantity r)
    end.

(** The [unitsUsed] entry, the amount and the write of one turn. *)
Definition used_entry (j : UnitJoined) (take : Z) (name : string) : UnitUsed :=
  {| uu_unitId := j_id j; quantityTaken := take;
     uu_expiryDate := expiry j; uu_medicationName := name |}.

Definition take_of (acc : FefoAcc) (j : UnitJoined) : Z :=
  Z.min (remainingQuantity acc) (available_quantity (j_row j)).

Definition decrement (clinicId : string) (j : UnitJoined) (take : Z)
    (m : gmap string UnitRow) : gmap string UnitRow :=
  update_unit_where (j_id j) clinicId
    (set_available_quantity (available_quantity (j_row j) - take)) m.

(** The write that undoes the decrement of the current unit. *)
Definition restore_current (env : Env) (clinicId : string) (j : UnitJoined)
    (m : gmap string UnitRow) : gmap string UnitRow :=
  match fault env FefoRbCurrent (j_id j) with
  | Some _ => m
  | None =>
    update_unit_where (j_id j) clinicId
      (set_available_quantity (available_quantity (j_row j))) m
  end.

(** The compensation of a used unit goes through: the store answers the
    re-read and accepts the write that follows it. *)
Definition compensated (env : Env) (unitId : string) : bool :=
  bool_decide (fault env FefoRbRead unitId = None)
  && bool_decide (fault env FefoRbWrite unitId = None).

(** In the store [m] the unit [unitId] is the row [r] with [a] available. *)
Definition holds (m : gmap string UnitRow) (unitId : string) (r : UnitRow)
    (a : Z) : Prop :=
  exists r', m !! unitId = Some r'
             /\ available_quantity r' = a
             /\ r' = set_available_quantity a r.

(** The store once [createUnit] has logged its input, where it resolves
    the drug. *)
Definition entering (w : World) : World :=
  with_console
    (console w ++ [(LInfo, "[UnitService] Creating unit with input:")]) w.

(** ** A clinic used in the examples *)

Module Scenario.

Definition no_fault : Site -> string -> option string := fun _ _ => None.

Definition fault_at (site : Site) (key e : string)
    : Site -> string -> option string :=
  fun s k => if decide (s = site /\ k = key) then Some e else None.

Definition env_with (f : Site -> string -> option string) : Env :=
  {| fault := f;
     fresh_unit_id := "unit-3";
     fresh_tx_id := fun n => "tx-" ++ pretty (Z.of_nat n);
     clock := "2025-03-01T09:00:00Z";
     today_plus := fun n =>
       match n with
       | O => "2025-03-01" | 7%nat => "2025-03-08" | 30%nat => "2025-03-31"
       | 60%nat => "2025-04-30" | _ => "2025-05-30"
       end;
     getOrCreateDrug := fun d => ret ("drug-" ++ ndc_id d);
     ilike := fun v p => String.eqb (toLowerCase v) (toLowerCase p);
     localeCompare := fun a b =>
       match String.compare a b with Lt => -1 | Eq => 0 | Gt => 1 end |}.

Definition env0 : Env := env_with no_fault.

Definition aspirin : DrugRow :=
  {| medication_name := "Aspirin"; generic_name := "acetylsalicylic acid";
     strength := 100; strength_unit := "mg"; ndc_id := "0001";
     form := "tablet" |}.

Definition shelf : LotRow :=
  {| lot_source := "donor"; lot_note := None;
     lot_date_created := "2024-12-01"; location_id := "loc-1";
     lot_clinic_id := "clinic-1"; max_capacity := Some 1000 |}.

Definition alice : UserRow :=
  {| username := "alice"; email := "alice@clinic.example";
     user_clinic_id := "clinic-1"; user_role := "admin";
     created_at := "2024-11-01"; updated_at := "2024-11-01" |}.

Definition stock (total available : Z) (expires created : string) : UnitRow :=
  {| total_quantity := total; available_quantity := available;
     patient_reference_id := None; lot_id := "lot-1";
     expiry_date := expires; date_created := created; user_id := "user-1";
     drug_id := "drug-1"; qr_code := None; optional_notes := None;
     manufacturer_lot_number := None; clinic_id := "clinic-1" |}.

Definition clinic_with (m : gmap string UnitRow) (l : list TxRow) : World :=
  {| units := m; transactions := l;
     drugs := {[ "drug-1" := aspirin ]};
     lots := {[ "lot-1" := shelf ]};
     users := {[ "user-1" := alice ]};
     console := [] |}.

(** Two units of the same drug, 30 available each. *)
Definition two_units : World :=
  clinic_with (<[ "unit-2" := stock 30 30 "2025-06-01" "2024-12-03" ]>
               (<[ "unit-1" := stock 30 30 "2025-01-01" "2024-12-02" ]> ∅)) [].

(** One unit of 900 in a lot capped at 1000. *)
Definition nearly_full : World :=
  clinic_with {[ "unit-1" := stock 900 900 "2025-06-01" "2024-12-02" ]} [].

(** One unit with 10 available, and its check-in in the ledger. *)
Definition ledger_row : TxRow :=
  {| transaction_id := "tx-0"; timestamp := "2024-12-02T10:00:00Z";
     tx_type := check_in; quantity := 10; tx_unit_id := "unit-1";
     patient_name := None; tx_patient_reference_id := None;
     tx_user_id := "user-1"; notes := Some "Initial check-in";
     tx_clinic_id := "clinic-1" |}.

Definition one_unit : World :=
  clinic_with {[ "unit-1" := stock 10 10 "2025-06-01" "2024-12-02" ]}
              [ledger_row].

(** The drug is in the catalogue, nothing is in stock. *)
Definition no_stock : World := clinic_with ∅ [].

Definition by_ndc (q : Z) : FEFOCheckoutRequest :=
  {| fq_ndcId := Some "0001"; fq_medicationName := None;
     fq_strength := None; fq_strengthUnit := None; fq_quantity := q;
     fq_patientName := None; fq_patientReferenceId := None;
     fq_notes := None |}.

Definition take_from (id : string) (q : Z) : CheckOutRequest :=
  {| co_unitId := id; co_quantity := q; co_patientName := None;
     co_patientReferenceId := None; co_notes := None |}.

Definition check_in_of (total : Z) : CreateUnitRequest :=
  {| cu_totalQuantity := total; cu_availableQuantity := total;
     cu_lotId := "lot-1"; cu_expiryDate := "2025-09-01";
     cu_drugId := Some "drug-1"; cu_drugData := None;
     cu_patientReferenceId := None; cu_optionalNotes := None;
     cu_manufacturerLotNumber := None |}.

Definition no_filters : UnitFilters :=
  {| f_expiryDateFrom := None; f_expiryDateTo := None;
     f_locationIds := None; f_minStrength := None; f_maxStrength := None;
     f_strengthUnit := None; f_expirationWindow := None;
     f_medicationName := None; f_genericName := None; f_ndcId := None;
     f_sortBy := None; f_sortOrder := None |}.

(** An explicit expiry range, with or without a window. *)
Definition range_filters (win : option ExpirationWindow) : UnitFilters :=
  {| f_expiryDateFrom := Some "2025-05-01";
     f_expiryDateTo := Some "2025-12-31";
     f_locationIds := None; f_minStrength := None; f_maxStrength := None;
     f_strengthUnit := None; f_expirationWindow := win;
     f_medicationName := None; f_genericName := None; f_ndcId := None;
     f_sortBy := None; f_sortOrder := None |}.

End Scenario.

(** * The read paths of the two services

    Each of the functions below makes one storage call; the [error] of its
    response is an argument of the function ([None]: the store answered). *)

(** ** unitService.ts: inventory of a location *)

(** [.eq('clinic_id', clinicId).gt('available_quantity', 0)] *)
Definition in_stock (clinicId : string) (j : UnitJoined) : bool :=
  in_clinic clinicId j && (0 <? available_quantity (j_row j)).

(** The query of [getInventoryByLocation] and of [getExpiryReport]: the
    tenant's units with stock left, soonest expiry first. *)
Definition stock_by_expiry (w : World) (clinicId : string) : list UnitJoined :=
  order_by String.le expiry true
    (filter (fun j => in_stock clinicId j) (all_units w)).

(** [unit.lot?.location_id === locationId] *)
Definition at_location (locationId : string) (j : UnitJoined) : bool :=
  on_parent (j_lot j) (fun l => bool_decide (location_id l = locationId)).

Definition getInventoryByLocation (error : option string)
    (locationId clinicId : string) : M (list Unit) :=
  let* w := get_world in
  match error with
  | Some e => throw ("Failed to get inventory by location: " ++ e)
  | None =>
    let filteredUnits :=
      filter (fun j => at_location locationId j) (stock_by_expiry w clinicId) in
    match map_formatUnit filteredUnits with
    | Ok units => ret units
    | Throw e => throw e
    end
  end.

(** ** unitService.ts: expiry reports *)














Inductive ExpiryBucket :=
  | BExpired | B7Days | B30Days | B60Days | B90Days | BLater.

Global Instance ExpiryBucket_eq_dec : EqDecision ExpiryBucket.
Proof. solve_decision. Defined.






(** ** unitService.ts: quick search *)

(** The engine's string primitives the search relies on:
    [String.prototype.trim], and [length], which counts UTF-16 code
    units. *)
Record JsString := {
  js_trim : string -> string;
  js_length : string -> nat
}.

(** [String.prototype.trim] on text whose white space is ASCII. *)
Fixpoint trim_start (s : string) : string :=
  match s with
  | String c s' => if Ascii.is_space c then trim_start s' else s
  | "" => ""
  end.

Definition trim (s : string) : string :=
  String.rev (trim_start (String.rev (trim_start s))).

(** [/^[a-f0-9-]+$/i.test(s)] *)
Definition hex_or_dash (c : Ascii.ascii) : bool :=
  let n := Ascii.nat_of_ascii c in
  ((48 <=? n) && (n <=? 57) || (97 <=? n) && (n <=? 102)
   || (65 <=? n) && (n <=? 70) || (n =? 45))%nat.

Fixpoint all_chars (p : Ascii.ascii -> bool) (s : string) : bool :=
  match s with
  | "" => true
  | String c s' => p c && all_chars p s'
  end.

(** The [length] of a text held as UTF-8 bytes: one code unit per
    character, two for a character of four bytes; the bytes that continue
    a character count for nothing. *)
Fixpoint utf16_length (s : string) : nat :=
  match s with
  | "" => 0%nat
  | String c s' =>
    let n := Ascii.nat_of_ascii c in
    ((if (n <? 128) || (192 <=? n) && (n <? 240) then 1
      else if 240 <=? n then 2 else 0) + utf16_length s')%nat
  end.

(** [trimmedQuery.length >= 8 && /^[a-f0-9-]+$/i.test(trimmedQuery)] *)
Definition looks_like_unit_id (str : JsString) (trimmedQuery : string)
    : bool :=
  (8 <=? js_length str trimmedQuery)%nat
  && all_chars hex_or_dash trimmedQuery.

(** [s.replace(/%/g, '\\%').replace(/_/g, '\\_')] *)
Fixpoint escape_like (s : string) : string :=
  match s with
  | "" => ""
  | String c s' =>
    if String.eqb (String c "") "%" then "\%" ++ escape_like s'
    else if String.eqb (String c "") "_" then "\_" ++ escape_like s'
    else String c (escape_like s')
  end.

(** What [Number(s)] gives: not a number, or a number, with its value when
    that is a whole one. *)
Inductive JsNumber :=
  | NaN
  | Num (whole : option Z).

(** The predicate of the client-side filter of [searchUnits]. *)
Definition search_matches (numericValue : JsNumber) (queryLower : string)
    (j : UnitJoined) : bool :=
  match j_drug j with
  | None => false
  | Some drug =>
    let unitIdMatch := str_has (j_id j) queryLower in
    let medicationMatch := str_has (medication_name drug) queryLower in
    let genericMatch := str_has (generic_name drug) queryLower in
    let strengthStr := pretty (strength drug) in
    let strengthMatch :=
      match numericValue with
      | Num v =>
        bool_decide (v = Some (strength drug)) || includes strengthStr queryLower
      | NaN =>
        includes strengthStr queryLower || includes queryLower strengthStr
      end in
    unitIdMatch || medicationMatch || genericMatch || strengthMatch
  end.

(** The rows the query of [searchUnits] returns. *)
Definition search_rows (str : JsString) (env : Env) (w : World)
    (trimmedQuery clinicId : string) : list UnitJoined :=
  let base := filter (fun j => in_stock clinicId j) (all_units w) in
  if looks_like_unit_id str trimmedQuery
  then take 50 (filter (fun j =>
                  ilike env (j_id j) ("%" ++ escape_like trimmedQuery ++ "%"))
                  base)
  else take 100 (order_by String.le (fun j => date_created (j_row j)) false base).

(** [try { c } catch (error) { handler(error.message) }] *)
Definition try_catch {A} (c : M A) (handler : string -> M A) : M A :=
  fun w => match c w with
           | (Ok a, w') => (Ok a, w')
           | (Throw e, w') => handler e w'
           end.

(** [searchUnits]; [str] holds the engine's [trim] and [length], and
    [toNumber] is its [Number]. *)
Definition searchUnits (str : JsString) (toNumber : string -> JsNumber)
    (error : option string) (env : Env) (query clinicId : string)
    : M (list Unit) :=
  match query with
  | "" => ret []
  | _ =>
    let trimmedQuery := js_trim str query in
    if (js_length str trimmedQuery <? 2)%nat then ret []
    else
      let queryLower := toLowerCase trimmedQuery in
      let numericValue := toNumber queryLower in
      try_catch
        (let* w := get_world in
         match error with
         | Some e =>
           let* _ := console_error "Error searching units:" e in
           throw ("Failed to search units: " ++ e)
         | None =>
           match search_rows str env w trimmedQuery clinicId with
           | [] => ret []
           | units =>
             let filteredUnits :=
               filter (fun j => search_matches numericValue queryLower j)
                      units in
             match map_formatUnit (take 20 filteredUnits) with
             | Ok found => ret found
             | Throw e => throw e
             end
           end
         end)
        (fun message =>
           let* _ := console_error "Error in searchUnits:" message in
           throw ("Failed to search units: "
                  ++ or_default message "Unknown error"))
  end.

(** ** transactionService.ts: reading the ledger *)

Record LocationRow := {
  loc_name : string;
  loc_temp : string;
  loc_clinic_id : string
}.

(** A ledger row with what the [select] embeds: the unit with its drug
    and, in [getTransactions], its lot with the lot's location; and the
    acting user.  A parent that is not there is [null]. *)
Record TxUnitJoined := {
  xu_row : UnitRow;
  xu_drug : option DrugRow;
  xu_lot : option (LotRow * option LocationRow)
}.

Record TxJoined := {
  x_row : TxRow;
  x_unit : option TxUnitJoined;
  x_user : option UserRow
}.

(** ["room temp"] of the store is written ["room_temp"]. *)
Definition normalize_temp (l : LocationRow) : LocationRow :=
  {| loc_name := loc_name l;
     loc_temp := if String.eqb (loc_temp l) "room temp" then "room_temp"
                 else loc_temp l;
     loc_clinic_id := loc_clinic_id l |}.

(** [formatTransaction]: it copies the columns under camelCase names and
    the embedded rows that are present; the records keep the rows. *)
Definition format_lot (p : LotRow * option LocationRow)
    : LotRow * option LocationRow :=
  (p.1, normalize_temp <$> p.2).

Definition format_unit (u : TxUnitJoined) : TxUnitJoined :=
  {| xu_row := xu_row u; xu_drug := xu_drug u;
     xu_lot := format_lot <$> xu_lot u |}.

Definition formatTransaction (x : TxJoined) : TxJoined :=
  {| x_row := x_row x;
     x_unit := format_unit <$> x_unit x;
     x_user := x_user x |}.

(** The embedding of [getTransactions]. *)
Definition tx_join_full (locations : gmap string LocationRow) (w : World)
    (t : TxRow) : TxJoined :=
  {| x_row := t;
     x_unit :=
       match units w !! tx_unit_id t with
       | Some r =>
         Some {| xu_row := r;
                 xu_drug := drugs w !! drug_id r;
                 xu_lot :=
                   match lots w !! lot_id r with
                   | Some l => Some (l, locations !! location_id l)
                   | None => None
                   end |}
       | None => None
       end;
     x_user := users w !! tx_user_id t |}.

(** The embedding of [getTransactionById]. *)
Definition tx_join_unit (w : World) (t : TxRow) : TxJoined :=
  {| x_row := t;
     x_unit :=
       match units w !! tx_unit_id t with
       | Some r =>
         Some {| xu_row := r; xu_drug := drugs w !! drug_id r;
                 xu_lot := None |}
       | None => None
       end;
     x_user := users w !! tx_user_id t |}.

Definition tx_type_name (t : TxType) : string :=
  match t with
  | adjust => "adjust" | check_out => "check_out" | check_in => "check_in"
  end.

(** The client-side search predicate of [getTransactions]. *)
Definition tx_matches (searchLower : string) (x : TxJoined) : bool :=
  opt_has (notes (x_row x)) searchLower
  || opt_has (tx_patient_reference_id (x_row x)) searchLower
  || str_has (tx_type_name (tx_type (x_row x))) searchLower
  || num_has (quantity (x_row x)) searchLower
  || on_parent (x_user x) (fun u => str_has (username u) searchLower)
  || on_parent (x_user x) (fun u => str_has (email u) searchLower)
  || on_parent (x_unit x) (fun u =>
       on_parent (xu_drug u) (fun d => str_has (medication_name d) searchLower))
  || on_parent (x_unit x) (fun u =>
       on_parent (xu_drug u) (fun d => str_has (generic_name d) searchLower)).

(** The server-side predicate: the tenant's rows, of one unit if given. *)
Definition tx_selected_by (clinicId : string) (unitId : option string)
    (t : TxRow) : bool :=
  bool_decide (tx_clinic_id t = clinicId)
  && match unitId with
     | Some (String _ _ as u) => bool_decide (tx_unit_id t = u)
     | _ => true
     end.

(** [.order('timestamp', { ascending: false })] *)
Definition newest_first : relation TxRow :=
  fun a b => String.le (timestamp b) (timestamp a).

Global Instance newest_first_dec : RelDecision newest_first.
Proof. intros a b. unfold newest_first. apply _. Defined.

Global Instance newest_first_total : Total newest_first.
Proof. intros a b. unfold newest_first. apply total, _. Qed.

Definition tx_page (w : World) (clinicId : string) (unitId : option string)
    (from to : Z) : list TxRow :=
  range from to
    (merge_sort newest_first
       (filter (fun t => tx_selected_by clinicId unitId t) (transactions w))).

Definition tx_count (w : World) (clinicId : string) (unitId : option string)
    : Z :=
  Z.of_nat (length (filter (fun t => tx_selected_by clinicId unitId t)
                      (transactions w))).

Record TxPage := {
  tp_transactions : list TxJoined;
  tp_total : Z;
  tp_page : Z;
  tp_pageSize : Z
}.

(** [getTransactions]: the store either reports an error, refuses a
    negative offset or limit, or answers with the page and the count. *)
Definition getTransactions (error : option string)
    (locations : gmap string LocationRow) (clinicId : string)
    (page pageSize : Z) (search unitId : option string) : M TxPage :=
  let from := (page - 1) * pageSize in
  let to := from + pageSize - 1 in
  let* w := get_world in
  match error with
  | Some e => throw ("Failed to get transactions: " ++ e)
  | None =>
    if (from <? 0) || (to - from + 1 <? 0)
    then throw ("Failed to get transactions: " ++ range_message)
    else
      let transactions :=
        tx_join_full locations w <$> tx_page w clinicId unitId from to in
      let count := tx_count w clinicId unitId in
      let filteredTransactions :=
        match search with
        | Some (String _ _ as search) =>
          filter (fun x => tx_matches (toLowerCase search) x) transactions
        | _ => transactions
        end in
      ret {| tp_transactions := formatTransaction <$> filteredTransactions;
             tp_total := if truthy_str search
                         then Z.of_nat (length filteredTransactions)
                         else count;
             tp_page := page;
             tp_pageSize := pageSize |}
  end.

Definition getTransactionById (error : option string)
    (transactionId clinicId : string) : M (option TxJoined) :=
  let* w := get_world in
  match error,
        filter (fun t => tx_selected transactionId clinicId t)
               (transactions w) with
  | None, [t] => ret (Some (formatTransaction (tx_join_unit w t)))
  | _, _ => ret None
  end.

(** ** What the operations leave alone *)

(** No unit of [m] is gone from [m'] or filed elsewhere: each is still
    there, in the same lot, of the same drug and of the same tenant. *)
Definition keeps_units (m m' : gmap string UnitRow) : Prop :=
  forall id r, m !! id = Some r ->
    exists r', m' !! id = Some r'
      /\ lot_id r' = lot_id r /\ drug_id r' = drug_id r
      /\ clinic_id r' = clinic_id r.

(** The units of the tenants other than [clinicId] are the same rows. *)
Definition other_tenants_untouched (clinicId : string)
    (m m' : gmap string UnitRow) : Prop :=
  forall id r, m !! id = Some r -> clinic_id r <> clinicId ->
               m' !! id = Some r.

(** The check-out row that goes with an entry of [unitsUsed]. *)
Definition records (userId clinicId : string) (t : TxRow) (u : UnitUsed)
    : Prop :=
  tx_type t = check_out /\ quantity t = quantityTaken u
  /\ tx_unit_id t = uu_unitId u /\ tx_user_id t = userId
  /\ tx_clinic_id t = clinicId.

(** A ledger row of that type, on that unit, by that user, in that
    tenant. *)
Definition ledger_row_of (type : TxType) (unitId userId clinicId : string)
    (t : TxRow) : Prop :=
  tx_type t = type /\ tx_unit_id t = unitId /\ tx_user_id t = userId
  /\ tx_clinic_id t = clinicId.

(** ** What a group of the expiry reports is *)





(** ** A second tenant, a ledger, a calendar *)

Module Ward.


Definition fridge : LocationRow :=
  {| loc_name := "Fridge A"; loc_temp := "room temp";
     loc_clinic_id := "clinic-1" |}.

Definition locations : gmap string LocationRow := {[ "loc-1" := fridge ]}.

Definition to_number (s : string) : JsNumber :=
  if String.eqb s "100" then Num (Some 100) else NaN.

(** An engine on UTF-8 text whose white space is ASCII. *)
Definition strings : JsString :=
  {| js_trim := trim; js_length := utf16_length |}.

Definition checked_out : TxRow :=
  {| transaction_id := "tx-1"; timestamp := "2025-01-05T10:00:00Z";
     tx_type := check_out; quantity := 3; tx_unit_id := "unit-1";
     patient_name := None; tx_patient_reference_id := Some "P-17";
     tx_user_id := "user-1"; notes := Some "evening round";
     tx_clinic_id := "clinic-1" |}.

Definition elsewhere : TxRow :=
  {| transaction_id := "tx-2"; timestamp := "2025-01-06T10:00:00Z";
     tx_type := check_out; quantity := 3; tx_unit_id := "unit-9";
     patient_name := None; tx_patient_reference_id := None;
     tx_user_id := "user-9"; notes := None;
     tx_clinic_id := "clinic-2" |}.

(** The clinic of one unit, with a ledger of three rows, one of them of
    another tenant. *)
Definition ledger : World :=
  Scenario.clinic_with
    {[ "unit-1" := Scenario.stock 10 7 "2025-06-01" "2024-12-02" ]}
    [Scenario.ledger_row; checked_out; elsewhere].

Definition foreign_stock : UnitRow :=
  {| total_quantity := 5; available_quantity := 5;
     patient_reference_id := None; lot_id := "lot-1";
     expiry_date := "2025-02-01"; date_created := "2024-12-01";
     user_id := "user-1"; drug_id := "drug-1"; qr_code := None;
     optional_notes := None; manufacturer_lot_number := None;
     clinic_id := "clinic-2" |}.

(** Two tenants: two units of the one, one unit of the other. *)
Definition two_tenants : World :=
  Scenario.clinic_with
    (<[ "unit-9" := foreign_stock ]> (units Scenario.two_units)) [].

End Ward.

(** * Proofs *)

(** ** Running the monad *)

Ltac run :=
  repeat (unfold bind, ret, throw, get_world, modify,
            console_error, console_log, storage_write, insert_tx; simpl).

Lemma with_units_same w : with_units (units w) w = w.
Proof. by destruct w. Qed.

(** ** The ledger correction path *)

(** C9: [updateTransaction], whatever it changes in the ledger row and
    whether it succeeds or throws, leaves every unit record as it was; in
    particular the available and total quantity of the referenced unit. *)
Theorem updateTransaction_leaves_units env transactionId updates clinicId w :
  units (updateTransaction env transactionId updates clinicId w).2 = units w.
Proof.
  unfold updateTransaction. run.
  destruct (fault env UtUpdate transactionId); [done|].
  destruct (filter _ (transactions w)) as [|t [|t' l]]; done.
Qed.

(** A correction of the ledger row of a unit from 10 to 4 leaves the unit
    with its 10 available of 10. *)
Example updateTransaction_corrects_ledger_only :
  let run := updateTransaction Scenario.env0 "tx-0"
               {| tu_quantity := Some 4; tu_notes := None |} "clinic-1"
               Scenario.one_unit in
  quantity <$> transactions run.2 = [4]
  /\ units run.2 = units Scenario.one_unit.
Proof. split; vm_compute; reflexivity. Qed.

(** ** The candidates of the allocator *)

Lemma foldl_available (us : list UnitJoined) (a : Z) :
  foldl (fun sum unit => sum + available_quantity (j_row unit)) a us
  = a + sumZ ((fun j => available_quantity (j_row j)) <$> us).
Proof.
  revert a. induction us as [|j us IH]; intros a; csimpl; [lia|].
  rewrite IH. unfold sumZ. simpl. lia.
Qed.

Lemma total_available_cons j us :
  total_available (j :: us)
  = available_quantity (j_row j) + total_available us.
Proof. unfold total_available. simpl. rewrite !foldl_available. lia. Qed.

Lemma total_available_nonneg m clinicId us :
  Forall (candidate_of m clinicId) us -> 0 <= total_available us.
Proof.
  induction 1 as [|j us (_ & _ & Hpos) _ IH]; [done|].
  rewrite total_available_cons. lia.
Qed.

Lemma elem_of_all_units w j :
  j ∈ all_units w ->
  units w !! j_id j = Some (j_row j) /\ j_drug j = drugs w !! drug_id (j_row j).
Proof.
  unfold all_units. intros ([id r] & -> & Hin)%list_elem_of_fmap.
  by apply elem_of_map_to_list in Hin.
Qed.

Lemma NoDup_all_units w : NoDup (j_id <$> all_units w).
Proof.
  unfold all_units. rewrite <- list_fmap_compose.
  apply (NoDup_fst_map_to_list (units w)).
Qed.

Lemma NoDup_filter_ids (P : UnitJoined -> Prop) `{!forall j, Decision (P j)}
    (l : list UnitJoined) :
  NoDup (j_id <$> l) -> NoDup (j_id <$> filter P l).
Proof.
  induction l as [|j l IH]; simpl; [done|].
  intros [Hj Hl]%NoDup_cons. rewrite filter_cons.
  destruct (decide (P j)); simpl; [|by auto].
  apply NoDup_cons. split; [|by auto].
  intros (j' & Heq & Hin)%list_elem_of_fmap. apply Hj.
  apply list_elem_of_fmap. exists j'. split; [done|].
  by apply list_elem_of_filter in Hin as [_ ?].
Qed.

Lemma fefo_candidates_perm w clinicId drugIds :
  fefo_candidates w clinicId drugIds
  ≡ₚ filter (fun j => clinic_id (j_row j) = clinicId
                      /\ 0 < available_quantity (j_row j)
                      /\ drug_id (j_row j) ∈ drugIds) (all_units w).
Proof. unfold fefo_candidates, order_by. apply merge_sort_Permutation. Qed.

Lemma fefo_candidates_of w clinicId drugIds :
  Forall (candidate_of (units w) clinicId) (fefo_candidates w clinicId drugIds).
Proof.
  apply Forall_forall. intros j Hj.
  rewrite fefo_candidates_perm in Hj.
  apply list_elem_of_filter in Hj as [(Hc & Hpos & _) Hin].
  apply elem_of_all_units in Hin as [Hm _]. by repeat split.
Qed.

Lemma fefo_candidates_NoDup w clinicId drugIds :
  NoDup (j_id <$> fefo_candidates w clinicId drugIds).
Proof.
  rewrite fefo_candidates_perm.
  apply NoDup_filter_ids, NoDup_all_units.
Qed.

Lemma fefo_candidates_sorted w clinicId drugIds :
  Sorted String.le (expiry <$> fefo_candidates w clinicId drugIds).
Proof.
  unfold fefo_candidates, order_by.
  apply (Sorted_fmap expiry (ordered String.le expiry true)).
  - by intros a b.
  - apply Sorted_merge_sort, _.
Qed.

(** ** Insufficient stock *)

(** C2, as the code has it: when the request is well formed, the drug is
    found, the units query answers with at least one candidate, and the
    candidates together hold less than the requested quantity, the call
    throws the insufficient-quantity error naming both figures and leaves
    the whole store (units, ledger, the rest) exactly as it was.  With no
    candidate at all the earlier guard throws another error instead. *)
Theorem fefo_insufficient_quantity env input userId clinicId w drugIds :
  fefo_invalid input = false ->
  resolve_drugs env input w = Ok drugIds ->
  fault env FefoUnits clinicId = None ->
  fefo_candidates w clinicId drugIds <> [] ->
  total_available (fefo_candidates w clinicId drugIds) < fq_quantity input ->
  checkOutMedicationFEFO env input userId clinicId w
  = (Throw (insufficient_message
              (total_available (fefo_candidates w clinicId drugIds))
              (fq_quantity input)), w).
Proof.
  intros Hvalid Hdrugs Hfault Hne Hlt.
  pose proof (total_available_nonneg _ _ _ (fefo_candidates_of w clinicId drugIds)).
  unfold checkOutMedicationFEFO. rewrite Hvalid.
  destruct (Z.leb_spec (fq_quantity input) 0); [lia|].
  run. rewrite Hdrugs, Hfault.
  destruct (fefo_candidates w clinicId drugIds) as [|j us] eqn:Hc; [done|].
  destruct (Z.ltb_spec (total_available (j :: us)) (fq_quantity input)); [done|lia].
Qed.

Lemma fefo_insufficient_quantity_witness :
  checkOutMedicationFEFO Scenario.env0 (Scenario.by_ndc 100) "user-1"
    "clinic-1" Scenario.two_units
  = (Throw "Insufficient quantity. Available: 60, Requested: 100",
     Scenario.two_units).
Proof.
  apply (fefo_insufficient_quantity Scenario.env0 (Scenario.by_ndc 100)
           "user-1" "clinic-1" Scenario.two_units ["drug-1"]);
    vm_compute; congruence.
Defined.

(** C2 as stated fails when no unit of the drug has stock: the candidates
    hold 0, less than the 10 requested, and the error is not the
    insufficient-quantity one. *)
Lemma fefo_no_candidates_counterexample :
  let cands := fefo_candidates Scenario.no_stock "clinic-1" ["drug-1"] in
  resolve_drugs Scenario.env0 (Scenario.by_ndc 10) Scenario.no_stock
  = Ok ["drug-1"]
  /\ total_available cands < fq_quantity (Scenario.by_ndc 10)
  /\ checkOutMedicationFEFO Scenario.env0 (Scenario.by_ndc 10) "user-1"
       "clinic-1" Scenario.no_stock
     = (Throw "No units available for this medication", Scenario.no_stock)
  /\ (checkOutMedicationFEFO Scenario.env0 (Scenario.by_ndc 10) "user-1"
        "clinic-1" Scenario.no_stock).1
     <> Throw (insufficient_message (total_available cands)
                 (fq_quantity (Scenario.by_ndc 10))).
Proof. vm_compute. repeat split; congruence. Qed.

(** ** One turn of the walk *)

Lemma fefo_rollback_run env clinicId used w :
  fefo_rollback env clinicId used w
  = (Ok tt, with_units (rollback_units env clinicId used (units w)) w).
Proof.
  revert w. induction used as [|u used IH]; intros w; simpl.
  - unfold ret. by rewrite with_units_same.
  - run. destruct (fault env FefoRbRead (uu_unitId u));
      [by rewrite IH|].
    destruct (select_unit_where _ _ _); [|by rewrite IH].
    run. destruct (fault env FefoRbWrite (uu_unitId u)); run;
      rewrite IH; [done|]. by destruct w.
Qed.

(** A turn that succeeds took [min(remaining, available)] from the unit,
    wrote the decrement, appended one check-out row and one ledger entry. *)
Lemma fefo_step_ok env input userId clinicId j acc w acc' w' :
  fefo_step env input userId clinicId j acc w = (Ok acc', w') ->
  exists name t,
    fault env FefoUpdate (j_id j) = None
    /\ fault env FefoInsert (j_id j) = None
    /\ remainingQuantity acc' = remainingQuantity acc - take_of acc j
    /\ acc_unitsUsed acc'
       = (acc_unitsUsed acc ++ [used_entry j (take_of acc j) name])%list
    /\ acc_transactions acc' = (acc_transactions acc ++ [t])%list
    /\ tx_type t = check_out /\ quantity t = take_of acc j
    /\ tx_unit_id t = j_id j
    /\ units w' = decrement clinicId j (take_of acc j) (units w)
    /\ transactions w' = (transactions w ++ [t])%list.
Proof.
  unfold fefo_step. run.
  destruct (fault env FefoUpdate (j_id j)) as [e|]; run.
  { rewrite fefo_rollback_run. by run. }
  destruct (fault env FefoInsert (j_id j)) as [e|]; run.
  { rewrite fefo_rollback_run. run.
    by destruct (fault env FefoRbCurrent (j_id j)). }
  destruct (fault env FefoFetch _); run;
    (destruct (j_drug j) as [d|]; run; [|done]);
    intros [= <- <-]; simpl;
    eexists (medication_name d), _; by repeat split.
Qed.

(** ** Quantity and order of a successful allocation *)

Lemma sumZ_app (l1 l2 : list Z) : sumZ (l1 ++ l2) = sumZ l1 + sumZ l2.
Proof.
  unfold sumZ. induction l1 as [|x l1 IH]; simpl; [done|]. rewrite IH. lia.
Qed.

Lemma fefo_loop_ok env input userId clinicId us :
  forall acc w acc' w',
    fefo_loop env input userId clinicId us acc w = (Ok acc', w') ->
    exists done rest,
      us = (done ++ rest)%list
      /\ uu_expiryDate <$> acc_unitsUsed acc'
         = ((uu_expiryDate <$> acc_unitsUsed acc) ++ (expiry <$> done))%list
      /\ sumZ (quantityTaken <$> acc_unitsUsed acc')
         = sumZ (quantityTaken <$> acc_unitsUsed acc)
           + (remainingQuantity acc - remainingQuantity acc')
      /\ (0 <= remainingQuantity acc -> 0 <= remainingQuantity acc')
      /\ (Forall (fun j => 0 < available_quantity (j_row j)) us ->
          remainingQuantity acc <= total_available us ->
          remainingQuantity acc' <= 0).
Proof.
  induction us as [|j us IH]; intros acc w acc' w'; simpl.
  - intros [= <- <-]. exists [], []. simpl. rewrite app_nil_r.
    split_and!; [done|done|lia|done|].
    intros _. unfold total_available. simpl. lia.
  - destruct (Z.leb_spec (remainingQuantity acc) 0) as [Hle|Hgt].
    { intros [= <- <-]. exists [], (j :: us). simpl. rewrite app_nil_r.
      split_and!; [done|done|lia|done|intros; lia]. }
    unfold bind at 1.
    destruct (fefo_step env input userId clinicId j acc w)
      as [[acc1|e] w1] eqn:Hstep; [|done].
    intros Hloop.
    apply fefo_step_ok in Hstep
      as (name & t & _ & _ & Hrem & Hused & _).
    apply IH in Hloop as (done & rest & -> & Hexp & Hsum & Hpos & Hend).
    exists (j :: done), rest. unfold take_of in *.
    rewrite Hused in Hexp, Hsum.
    rewrite fmap_app in Hexp. rewrite fmap_app, sumZ_app in Hsum.
    simpl in Hexp, Hsum.
    split; [done|]. split.
    { by rewrite Hexp, <- app_assoc. }
    split; [unfold sumZ in *; simpl in *; lia|].
    split; [lia|].
    intros [Hj Hus]%Forall_cons Htot. rewrite total_available_cons in Htot.
    apply Hend; [done|].
    assert (0 <= total_available (done ++ rest)).
    { clear -Hus. induction Hus as [|x l Hx _ IHl]; [done|].
      rewrite total_available_cons. lia. }
    lia.
Qed.

Lemma Sorted_le_prefix (l1 l2 : list string) :
  Sorted String.le (l1 ++ l2)%list -> Sorted String.le l1.
Proof.
  intros Hs. apply StronglySorted_Sorted.
  apply Sorted_StronglySorted in Hs; [|apply _].
  by apply StronglySorted_app_1_l in Hs.
Qed.

(** C1: on whole-number quantities, a successful FEFO checkout was asked
    a positive quantity; what its [unitsUsed] entries took adds up to
    [totalQuantityDispensed], which is the requested quantity; and the
    entries are in non-decreasing order of expiry date. *)
Theorem fefo_success_quantity_and_order env input userId clinicId w r w' :
  checkOutMedicationFEFO env input userId clinicId w = (Ok r, w') ->
  0 < fq_quantity input
  /\ sumZ (quantityTaken <$> unitsUsed r) = totalQuantityDispensed r
  /\ totalQuantityDispensed r = fq_quantity input
  /\ Sorted String.le (uu_expiryDate <$> unitsUsed r).
Proof.
  unfold checkOutMedicationFEFO.
  destruct (fefo_invalid input); [done|].
  destruct (Z.leb_spec (fq_quantity input) 0) as [|Hq]; [done|].
  unfold bind at 1. run.
  destruct (resolve_drugs env input w) as [drugIds|]; [|done].
  destruct (fault env FefoUnits clinicId); [done|].
  pose proof (fefo_candidates_of w clinicId drugIds) as Hcand.
  pose proof (fefo_candidates_sorted w clinicId drugIds) as Hsorted.
  destruct (fefo_candidates w clinicId drugIds) as [|j us] eqn:Hc; [done|].
  destruct (Z.ltb_spec (total_available (j :: us)) (fq_quantity input))
    as [|Htot]; [done|].
  unfold bind.
  destruct (fefo_loop _ _ _ _ _ _ w) as [[acc|e] w1] eqn:Hloop; [|done].
  intros [= <- <-]. simpl.
  apply fefo_loop_ok in Hloop
    as (done & rest & Hsplit & Hexp & Hsum & Hpos & Hend).
  rewrite Hsplit in Hsorted, Hcand, Htot, Hend.
  simpl in Hexp, Hsum, Hpos, Hend.
  assert (remainingQuantity acc <= 0).
  { apply Hend; [|lia]. eapply Forall_impl; [exact Hcand|].
    by intros x (_ & _ & ?). }
  split_and!; [done|unfold sumZ in *; simpl in *; lia|done|].
  rewrite Hexp. rewrite fmap_app in Hsorted.
  by apply Sorted_le_prefix in Hsorted.
Qed.

Lemma fefo_success_quantity_and_order_witness :
  exists r w',
    checkOutMedicationFEFO Scenario.env0 (Scenario.by_ndc 40) "user-1"
      "clinic-1" Scenario.two_units = (Ok r, w')
    /\ quantityTaken <$> unitsUsed r = [30; 10]
    /\ sumZ (quantityTaken <$> unitsUsed r) = totalQuantityDispensed r
    /\ totalQuantityDispensed r = 40
    /\ Sorted String.le (uu_expiryDate <$> unitsUsed r).
Proof.
  eexists _, _. split; [vm_compute; reflexivity|].
  split; [reflexivity|].
  eapply (fefo_success_quantity_and_order Scenario.env0 (Scenario.by_ndc 40)
            "user-1" "clinic-1" Scenario.two_units).
  vm_compute. reflexivity.
Defined.

(** The quantities of the theorem above are whole numbers.  The walk of
    the model takes what [takes] computes on them. *)
Lemma fefo_loop_takes env input userId clinicId us :
  forall acc w acc' w',
    fefo_loop env input userId clinicId us acc w = (Ok acc', w') ->
    quantityTaken <$> acc_unitsUsed acc'
    = ((quantityTaken <$> acc_unitsUsed acc)
       ++ takes whole (remainingQuantity acc)
            ((fun j => available_quantity (j_row j)) <$> us))%list.
Proof.
  induction us as [|j us IH]; intros acc w acc' w'; simpl.
  - intros [= <- <-]. by rewrite app_nil_r.
  - destruct (remainingQuantity acc <=? 0).
    { intros [= <- <-]. by rewrite app_nil_r. }
    unfold bind at 1.
    destruct (fefo_step env input userId clinicId j acc w)
      as [[acc1|e] w1] eqn:Hstep; [|done].
    intros Hloop. apply IH in Hloop.
    apply fefo_step_ok in Hstep as (name & t & _ & _ & Hrem & Hused & _).
    rewrite Hloop, Hused, Hrem, fmap_app, <- app_assoc. done.
Qed.

Lemma total_available_total_of (us : list UnitJoined) :
  total_available us
  = total_of whole ((fun j => available_quantity (j_row j)) <$> us).
Proof.
  unfold total_available, total_of. simpl. generalize 0.
  induction us as [|j us IH]; intros a; simpl; [done|]. apply IH.
Qed.

(** What a successful call returns in [quantityTaken] is what
    [fefo_takes] computes on the whole numbers, from the requested
    quantity and the available quantities of the candidates. *)
Lemma fefo_success_takes env input userId clinicId w r w' :
  checkOutMedicationFEFO env input userId clinicId w = (Ok r, w') ->
  exists drugIds,
    resolve_drugs env input w = Ok drugIds
    /\ fefo_takes whole (fq_quantity input)
         ((fun j => available_quantity (j_row j))
          <$> fefo_candidates w clinicId drugIds)
       = Some (quantityTaken <$> unitsUsed r).
Proof.
  unfold checkOutMedicationFEFO.
  destruct (fefo_invalid input); [done|].
  destruct (fq_quantity input <=? 0) eqn:Hq; [done|].
  unfold bind at 1. run.
  destruct (resolve_drugs env input w) as [drugIds|]; [|done].
  destruct (fault env FefoUnits clinicId); [done|].
  intros Hrun. exists drugIds. split; [done|]. revert Hrun.
  unfold fefo_takes. rewrite <- total_available_total_of.
  change (n_leb whole (fq_quantity input) (n_zero whole))
    with (fq_quantity input <=? 0).
  change (n_ltb whole) with Z.ltb. rewrite Hq.
  destruct (fefo_candidates w clinicId drugIds) as [|j us] eqn:Hc; [done|].
  rewrite fmap_cons.
  destruct (total_available (j :: us) <? fq_quantity input); [done|].
  unfold bind.
  destruct (fefo_loop _ _ _ _ _ _ w) as [[acc|e] w1] eqn:Hloop; [|done].
  intros [= <- <-]. apply fefo_loop_takes in Hloop. simpl in Hloop.
  simpl unitsUsed. rewrite Hloop. done.
Qed.

(** The same arithmetic on binary64 numbers, which is what the code runs:
    0.9 is asked of three units that hold 0.1, 0.2 and 0.7.  The guards
    pass (0.9 > 0, and the units hold 1 in all), and the walk takes 0.1,
    0.2 and then 0.6000000000000001, the binary64 result of
    0.9 - 0.1 - 0.2.  What was taken adds up to 0.9000000000000001 and
    not to the 0.9 that [totalQuantityDispensed] reports, whether the sum
    is rounded or exact. *)
Lemma fefo_fractional_quantity_counterexample :
  let quantity := Binary64.tenths 9 in
  let available :=
    [Binary64.tenths 1; Binary64.tenths 2; Binary64.tenths 7] in
  let taken :=
    [Binary64.tenths 1; Binary64.tenths 2;
     SpecFloat.S754_finite false 5404319552844596 (-53)] in
  fefo_takes binary64 quantity available = Some taken
  /\ total_of binary64 available = Binary64.of_whole 1
  /\ SpecFloat.SFeqb (total_of binary64 taken) quantity = false
  /\ Binary64.scaled (total_of binary64 taken) - Binary64.scaled quantity
     = 2 ^ (1074 - 53)
  /\ sumZ (Binary64.scaled <$> taken) - Binary64.scaled quantity
     = 3 * 2 ^ (1074 - 55).
Proof. split_and!; vm_compute; reflexivity. Qed.

(** ** Writes to one unit *)

Lemma set_available_quantity_same r :
  set_available_quantity (available_quantity r) r = r.
Proof. by destruct r. Qed.

Lemma set_available_quantity_twice a b r :
  set_available_quantity a (set_available_quantity b r)
  = set_available_quantity a r.
Proof. by destruct r. Qed.

Lemma lookup_update_unit_where_ne id id' clinicId f (m : gmap string UnitRow) :
  id <> id' -> update_unit_where id clinicId f m !! id' = m !! id'.
Proof.
  intros Hne. unfold update_unit_where.
  destruct (m !! id) as [r|]; [|done].
  destruct (decide _); [|done]. by rewrite lookup_insert_ne.
Qed.

Lemma lookup_update_unit_where_eq id clinicId f (m : gmap string UnitRow) r :
  m !! id = Some r -> clinic_id r = clinicId ->
  update_unit_where id clinicId f m !! id = Some (f r).
Proof.
  intros Hm Hc. unfold update_unit_where. rewrite Hm.
  rewrite decide_True by done. by rewrite lookup_insert_eq.
Qed.

Lemma select_unit_where_eq id clinicId (m : gmap string UnitRow) r :
  m !! id = Some r -> clinic_id r = clinicId ->
  select_unit_where id clinicId m = Some r.
Proof.
  intros Hm Hc. unfold select_unit_where. rewrite Hm.
  by rewrite decide_True.
Qed.

Lemma select_unit_where_Some id clinicId (m : gmap string UnitRow) r :
  select_unit_where id clinicId m = Some r ->
  m !! id = Some r /\ clinic_id r = clinicId.
Proof.
  unfold select_unit_where. destruct (m !! id) as [r'|]; [|done].
  destruct (decide _); [|done]. by intros [= <-].
Qed.

(** ** The compensation loop, unit by unit *)

Section Compensation.

Context (env : Env) (clinicId : string).

(** One turn of the compensation loop on the units map. *)
Lemma rollback_units_cons u used m :
  exists m1,
    rollback_units env clinicId (u :: used) m
    = rollback_units env clinicId used m1
    /\ (forall id, id <> uu_unitId u -> m1 !! id = m !! id)
    /\ (m1 !! uu_unitId u = m !! uu_unitId u
        \/ exists r, m !! uu_unitId u = Some r /\ clinic_id r = clinicId
             /\ m1 !! uu_unitId u
                = Some (set_available_quantity
                          (available_quantity r + quantityTaken u) r))
    /\ (fault env FefoRbRead (uu_unitId u) = None ->
        fault env FefoRbWrite (uu_unitId u) = None ->
        forall r, m !! uu_unitId u = Some r -> clinic_id r = clinicId ->
        m1 !! uu_unitId u
        = Some (set_available_quantity
                  (available_quantity r + quantityTaken u) r)).
Proof.
  simpl. eexists. split; [reflexivity|].
  destruct (fault env FefoRbRead (uu_unitId u)) as [e|];
    [by split_and!; [done|left|]|].
  destruct (select_unit_where (uu_unitId u) clinicId m) as [r|] eqn:Hsel.
  - apply select_unit_where_Some in Hsel as [Hm Hc].
    destruct (fault env FefoRbWrite (uu_unitId u)) as [e|];
      [by split_and!; [done|left|]|].
    split_and!.
    + intros id Hne. by apply lookup_update_unit_where_ne.
    + right. exists r. split_and!; [done..|].
      by apply lookup_update_unit_where_eq.
    + intros _ _ r' Hm' _. rewrite Hm in Hm'. injection Hm' as <-.
      by apply lookup_update_unit_where_eq.
  - split_and!; [done|by left|].
    intros _ _ r Hm Hc.
    by rewrite (select_unit_where_eq _ _ _ _ Hm Hc) in Hsel.
Qed.

Lemma rollback_units_other used :
  forall m id, id ∉ (uu_unitId <$> used) ->
               rollback_units env clinicId used m !! id = m !! id.
Proof.
  induction used as [|u used IH]; intros m id Hid; [done|].
  apply not_elem_of_cons in Hid as [Hne Hid].
  destruct (rollback_units_cons u used m)
    as (m1 & -> & Hother & _).
  rewrite IH by done. by apply Hother.
Qed.

(** Each unit of the list ends as it was, or with what it held plus what
    had been taken from it. *)
Lemma rollback_units_used used :
  forall m u,
    NoDup (uu_unitId <$> used) -> u ∈ used ->
    rollback_units env clinicId used m !! uu_unitId u = m !! uu_unitId u
    \/ exists r, m !! uu_unitId u = Some r /\ clinic_id r = clinicId
         /\ rollback_units env clinicId used m !! uu_unitId u
            = Some (set_available_quantity
                      (available_quantity r + quantityTaken u) r).
Proof.
  induction used as [|u0 used IH]; intros m u Hnd Hu;
    [by apply elem_of_nil in Hu|].
  apply NoDup_cons in Hnd as [Hu0 Hnd].
  destruct (rollback_units_cons u0 used m)
    as (m1 & -> & Hother & Hhere & _).
  apply elem_of_cons in Hu as [->|Hu].
  - rewrite rollback_units_other by done. destruct Hhere; eauto.
  - assert (uu_unitId u <> uu_unitId u0) as Hne.
    { intros Heq. apply Hu0. rewrite <- Heq.
      apply list_elem_of_fmap. eauto. }
    rewrite <- (Hother _ Hne). by apply IH.
Qed.

(** When the store answers every read and write of the loop, each unit of
    the list gets back what had been taken from it. *)
Lemma rollback_units_restored used :
  (forall k, fault env FefoRbRead k = None) ->
  (forall k, fault env FefoRbWrite k = None) ->
  forall m u r,
    NoDup (uu_unitId <$> used) -> u ∈ used ->
    m !! uu_unitId u = Some r -> clinic_id r = clinicId ->
    rollback_units env clinicId used m !! uu_unitId u
    = Some (set_available_quantity
              (available_quantity r + quantityTaken u) r).
Proof.
  intros Hread Hwrite.
  induction used as [|u0 used IH]; intros m u r Hnd Hu Hm Hc;
    [by apply elem_of_nil in Hu|].
  apply NoDup_cons in Hnd as [Hu0 Hnd].
  destruct (rollback_units_cons u0 used m)
    as (m1 & -> & Hother & _ & Hhere).
  apply elem_of_cons in Hu as [->|Hu].
  - rewrite rollback_units_other by done. by apply Hhere.
  - assert (uu_unitId u <> uu_unitId u0) as Hne.
    { intros Heq. apply Hu0. rewrite <- Heq.
      apply list_elem_of_fmap. eauto. }
    apply IH; [done..| |done]. by rewrite Hother.
Qed.

End Compensation.

(** ** The state of the walk *)

Lemma tracks_refl m : tracks m m.
Proof.
  intros id. destruct (m !! id) as [r|] eqn:Hm; [|done].
  exists (available_quantity r).
  by rewrite set_available_quantity_same; auto.
Qed.

Create HintDb store discriminated.
#[global] Hint Resolve tracks_refl : store.

(** Writing an available quantity between 0 and the original one keeps
    the map on track. *)
Lemma tracks_update m0 m id clinicId a :
  tracks m0 m ->
  (forall r0, m0 !! id = Some r0 ->
              a = available_quantity r0 \/ 0 <= a <= available_quantity r0) ->
  tracks m0 (update_unit_where id clinicId (set_available_quantity a) m).
Proof.
  intros Ht Ha id'. specialize (Ht id').
  destruct (decide (id = id')) as [<-|Hne];
    [|by rewrite lookup_update_unit_where_ne].
  destruct (m0 !! id) as [r0|] eqn:Hm0.
  - destruct Ht as (a' & Hm & Ha'). unfold update_unit_where. rewrite Hm.
    destruct (decide _); [|by eauto].
    rewrite lookup_insert_eq, set_available_quantity_twice. eauto.
  - unfold update_unit_where. by rewrite Ht.
Qed.

Lemma walk_inv_init m0 clinicId us :
  Forall (candidate_of m0 clinicId) us -> NoDup (j_id <$> us) ->
  walk_inv m0 clinicId [] us m0.
Proof. intros Hc Hnd. by split_and!; [|done|constructor|]. Qed.

Lemma walk_inv_used_lookup m0 clinicId used us m u :
  walk_inv m0 clinicId used us m -> u ∈ used ->
  exists r0, m0 !! uu_unitId u = Some r0 /\ clinic_id r0 = clinicId
    /\ m !! uu_unitId u
       = Some (set_available_quantity
                 (available_quantity r0 - quantityTaken u) r0)
    /\ 0 <= quantityTaken u <= available_quantity r0.
Proof.
  intros (_ & _ & Hused & _) Hu.
  by apply (proj1 (Forall_forall _ _) Hused) in Hu.
Qed.

Lemma walk_inv_head m0 clinicId used j us m :
  walk_inv m0 clinicId used (j :: us) m ->
  m !! j_id j = Some (j_row j) /\ m0 !! j_id j = Some (j_row j)
  /\ clinic_id (j_row j) = clinicId /\ 0 < available_quantity (j_row j)
  /\ j_id j ∉ (uu_unitId <$> used).
Proof.
  intros (Hnd & Hc & _ & Hother).
  apply Forall_cons in Hc as [(Hm0 & Hcl & Hpos) _].
  assert (j_id j ∉ (uu_unitId <$> used)) as Hj.
  { apply NoDup_app in Hnd as (_ & Hdisj & _). intros Hin.
    apply (Hdisj _ Hin). simpl. apply elem_of_cons. by left. }
  split_and!; [|done..]. by rewrite Hother.
Qed.

Lemma walk_inv_tracks m0 clinicId used us m :
  walk_inv m0 clinicId used us m -> tracks m0 m.
Proof.
  intros Hw id.
  destruct (decide (id ∈ (uu_unitId <$> used))) as [Hin|Hout].
  - apply list_elem_of_fmap in Hin as (u & -> & Hu).
    destruct (walk_inv_used_lookup _ _ _ _ _ _ Hw Hu)
      as (r0 & -> & _ & -> & Hrange).
    eexists. split; [done|]. right. lia.
  - destruct Hw as (_ & _ & _ & Hother). rewrite (Hother _ Hout).
    apply tracks_refl.
Qed.

(** After a turn that took [take] from the head candidate. *)
Lemma walk_inv_step m0 clinicId used j us m take name :
  walk_inv m0 clinicId used (j :: us) m ->
  0 <= take <= available_quantity (j_row j) ->
  walk_inv m0 clinicId (used ++ [used_entry j take name]) us
    (decrement clinicId j take m).
Proof.
  intros Hw Htake.
  destruct (walk_inv_head _ _ _ _ _ _ Hw) as (Hm & Hm0 & Hcl & Hpos & Hj).
  destruct Hw as (Hnd & Hc & Hused & Hother).
  apply Forall_cons in Hc as [_ Hc].
  split_and!.
  - rewrite fmap_app. simpl. rewrite <- app_assoc. simpl.
    by rewrite <- (Permutation_middle _ _ (j_id j)) in Hnd |- *.
  - done.
  - apply Forall_app. split.
    + apply Forall_forall. intros u Hu.
      destruct (proj1 (Forall_forall _ _) Hused u Hu)
        as (r0 & Hu0 & Hucl & Hum & Hrange).
      exists r0. split_and!; [done|done| |lia|lia].
      unfold decrement. rewrite lookup_update_unit_where_ne; [done|].
      intros Heq. apply Hj. rewrite Heq.
      apply list_elem_of_fmap. eauto.
    + apply Forall_singleton. exists (j_row j). simpl.
      split_and!; [done|done| |lia|lia].
      unfold decrement. by apply lookup_update_unit_where_eq.
  - intros id Hid. rewrite fmap_app in Hid. simpl in Hid.
    apply not_elem_of_app in Hid as [Hid Hne].
    apply not_elem_of_cons in Hne as [Hne _].
    unfold decrement. rewrite lookup_update_unit_where_ne by done.
    by apply Hother.
Qed.

(** The map after the compensation loop, when [used] are the units the
    walk has decremented so far. *)
Lemma walk_inv_rollback_tracks env m0 clinicId used' us m used :
  walk_inv m0 clinicId used' us m ->
  NoDup (uu_unitId <$> used) -> (forall u, u ∈ used -> u ∈ used') ->
  tracks m0 (rollback_units env clinicId used m).
Proof.
  intros Hw Hnd Hsub id.
  destruct (decide (id ∈ (uu_unitId <$> used))) as [Hin|Hout].
  - apply list_elem_of_fmap in Hin as (u & -> & Hu).
    destruct (walk_inv_used_lookup _ _ _ _ _ _ Hw (Hsub _ Hu))
      as (r0 & Hm0 & _ & Hm & Hrange).
    rewrite Hm0.
    destruct (rollback_units_used env clinicId used m u Hnd Hu)
      as [->|(r & Hr & _ & ->)].
    + eexists. split; [done|]. right. lia.
    + rewrite Hm in Hr. injection Hr as <-.
      rewrite set_available_quantity_twice. simpl.
      eexists. split; [done|]. left. lia.
  - rewrite rollback_units_other by done.
    apply (walk_inv_tracks _ _ _ _ _ Hw).
Qed.

(** When the store answers every call of the compensation, the units the
    walk has decremented are back to what the candidates were read from. *)
Lemma walk_inv_rollback_restores env m0 clinicId used us m :
  (forall k, fault env FefoRbRead k = None) ->
  (forall k, fault env FefoRbWrite k = None) ->
  walk_inv m0 clinicId used us m ->
  rollback_units env clinicId used m = m0.
Proof.
  intros Hread Hwrite Hw. apply map_eq. intros id.
  destruct (decide (id ∈ (uu_unitId <$> used))) as [Hin|Hout].
  - apply list_elem_of_fmap in Hin as (u & -> & Hu).
    destruct (walk_inv_used_lookup _ _ _ _ _ _ Hw Hu)
      as (r0 & Hm0 & Hcl & Hm & Hrange).
    assert (NoDup (uu_unitId <$> used)) as Hnd.
    { destruct Hw as (Hnd & _). by apply NoDup_app in Hnd as (? & _). }
    rewrite (rollback_units_restored env clinicId used Hread Hwrite
               m u _ Hnd Hu Hm Hcl).
    rewrite set_available_quantity_twice, Hm0. simpl. f_equal.
    transitivity (set_available_quantity (available_quantity r0) r0);
      [f_equal; lia|apply set_available_quantity_same].
  - rewrite rollback_units_other by done.
    destruct Hw as (_ & _ & _ & Hother). by apply Hother.
Qed.

(** ** The outcomes of one turn *)

Lemma fefo_step_throw env input userId clinicId j acc w msg w' :
  fefo_step env input userId clinicId j acc w = (Throw msg, w') ->
  (exists e, fault env FefoUpdate (j_id j) = Some e
     /\ msg = "Failed to update unit: " ++ e
     /\ units w' = rollback_units env clinicId (acc_unitsUsed acc) (units w)
     /\ transactions w' = transactions w)
  \/ (exists e, fault env FefoUpdate (j_id j) = None
        /\ fault env FefoInsert (j_id j) = Some e
        /\ msg = "Failed to create transaction: "
                 ++ or_default e "Unknown error"
        /\ units w'
           = restore_current env clinicId j
               (rollback_units env clinicId (acc_unitsUsed acc)
                  (decrement clinicId j (take_of acc j) (units w)))
        /\ transactions w' = transactions w)
  \/ (fault env FefoUpdate (j_id j) = None
      /\ fault env FefoInsert (j_id j) = None
      /\ j_drug j = None
      /\ msg = null_read "medication_name"
      /\ units w' = decrement clinicId j (take_of acc j) (units w)).
Proof.
  unfold fefo_step, restore_current. run.
  destruct (fault env FefoUpdate (j_id j)) as [e|]; run.
  { rewrite fefo_rollback_run. run. intros [= <- <-]. left. by eexists. }
  destruct (fault env FefoInsert (j_id j)) as [e|]; run.
  { rewrite fefo_rollback_run. run.
    destruct (fault env FefoRbCurrent (j_id j));
      intros [= <- <-]; right; left; by eexists. }
  destruct (fault env FefoFetch _); run;
    (destruct (j_drug j) as [d|]; run; [done|]);
    intros [= <- <-]; right; right; by split_and!.
Qed.

Lemma fefo_step_success env input userId clinicId j acc w :
  fault env FefoUpdate (j_id j) = None ->
  fault env FefoInsert (j_id j) = None ->
  is_Some (j_drug j) ->
  exists acc' w', fefo_step env input userId clinicId j acc w = (Ok acc', w').
Proof.
  intros Hu Hi [d Hd]. unfold fefo_step. run. rewrite Hu. run.
  rewrite Hi. run. rewrite Hd.
  destruct (fault env FefoFetch _); run; by eexists _, _.
Qed.

(** ** The walk never raises an available quantity *)

Lemma take_of_range acc j :
  0 < remainingQuantity acc -> 0 < available_quantity (j_row j) ->
  0 <= take_of acc j <= available_quantity (j_row j).
Proof. unfold take_of. lia. Qed.

Lemma walk_inv_abort_tracks env m0 clinicId used j us m take :
  walk_inv m0 clinicId used (j :: us) m ->
  0 <= take <= available_quantity (j_row j) ->
  tracks m0 (restore_current env clinicId j
               (rollback_units env clinicId used
                  (decrement clinicId j take m))).
Proof.
  intros Hw Htake.
  destruct (walk_inv_head _ _ _ _ _ _ Hw) as (_ & Hm0 & _).
  pose proof (walk_inv_step _ _ _ _ _ _ _ "" Hw Htake) as Hw1.
  assert (tracks m0 (rollback_units env clinicId used
                       (decrement clinicId j take m))) as Ht.
  { eapply walk_inv_rollback_tracks; [exact Hw1| |].
    - destruct Hw as (Hnd & _). by apply NoDup_app in Hnd as (? & _).
    - intros u Hu. apply elem_of_app. by left. }
  unfold restore_current. destruct (fault env FefoRbCurrent (j_id j)); [done|].
  apply tracks_update; [done|].
  intros r0 Hr0. rewrite Hm0 in Hr0. injection Hr0 as <-. by left.
Qed.

Lemma fefo_loop_tracks env input userId clinicId m0 us :
  forall acc w,
    walk_inv m0 clinicId (acc_unitsUsed acc) us (units w) ->
    tracks m0 (units (fefo_loop env input userId clinicId us acc w).2).
Proof.
  induction us as [|j us IH]; intros acc w Hw; simpl.
  - by apply walk_inv_tracks in Hw.
  - destruct (Z.leb_spec (remainingQuantity acc) 0) as [Hle|Hgt];
      [by apply walk_inv_tracks in Hw|].
    destruct (walk_inv_head _ _ _ _ _ _ Hw) as (_ & _ & _ & Hpos & _).
    pose proof (take_of_range acc j Hgt Hpos) as Htake.
    unfold bind.
    destruct (fefo_step env input userId clinicId j acc w)
      as [[acc1|msg] w1] eqn:Hstep.
    + apply fefo_step_ok in Hstep
        as (name & t & _ & _ & _ & Hused & _ & _ & _ & _ & Hunits & _).
      apply IH. rewrite Hused, Hunits. by apply walk_inv_step.
    + simpl. apply fefo_step_throw in Hstep
        as [(e & _ & _ & -> & _)|[(e & _ & _ & _ & -> & _)|(_ & _ & _ & _ & ->)]].
      * eapply walk_inv_rollback_tracks; [exact Hw| |done].
        destruct Hw as (Hnd & _). by apply NoDup_app in Hnd as (? & _).
      * by apply (walk_inv_abort_tracks env m0 clinicId _ j us).
      * eapply walk_inv_tracks.
        by apply (walk_inv_step m0 clinicId (acc_unitsUsed acc) j us
                    (units w) (take_of acc j) "").
Qed.

Lemma tracks_preserves_inv m m' : tracks m m' -> preserves_inv m m'.
Proof.
  intros Ht id r r' Hm Hinv Hm'. specialize (Ht id). rewrite Hm in Ht.
  destruct Ht as (a & Ha & Hrange). rewrite Hm' in Ha. injection Ha as ->.
  unfold unit_inv in *. simpl. lia.
Qed.

(** Whatever the store does during the call, a FEFO checkout leaves each
    unit with the same columns, except an available quantity that is the
    same or lower, and not negative when it changed. *)
Lemma fefo_tracks env input userId clinicId w :
  tracks (units w)
    (units (checkOutMedicationFEFO env input userId clinicId w).2).
Proof.
  unfold checkOutMedicationFEFO.
  destruct (fefo_invalid input); [auto with store|].
  destruct (fq_quantity input <=? 0); [auto with store|].
  unfold bind at 1. run.
  destruct (resolve_drugs env input w) as [drugIds|]; [|auto with store].
  destruct (fault env FefoUnits clinicId); [auto with store|].
  pose proof (fefo_candidates_of w clinicId drugIds) as Hcand.
  pose proof (fefo_candidates_NoDup w clinicId drugIds) as Hnd.
  destruct (fefo_candidates w clinicId drugIds) as [|j us];
    [auto with store|].
  destruct (_ <? _); [auto with store|].
  pose proof (fefo_loop_tracks env input userId clinicId (units w) (j :: us)
                {| remainingQuantity := fq_quantity input;
                   acc_transactions := []; acc_unitsUsed := [] |} w
                (walk_inv_init _ _ _ Hcand Hnd)) as Ht.
  unfold bind. by destruct (fefo_loop _ _ _ _ _ _ w) as [[acc|e] w1].
Qed.

(** ** Failure of the ledger insert in the middle of the walk *)

Lemma resolve_drugs_known env input w drugIds :
  resolve_drugs env input w = Ok drugIds ->
  forall id, id ∈ drugIds -> is_Some (drugs w !! id).
Proof.
  unfold resolve_drugs.
  destruct (fq_ndcId input) as [[|c ndc]|].
  2:{ destruct (fault env FefoDrug _); [done|].
      destruct (filter _ _) as [|p [|p' l]] eqn:Hf; [done| |done].
      intros [= <-] id ->%list_elem_of_singleton.
      assert (p ∈ filter (fun p => ndc_id p.2 = String c ndc)
                (map_to_list (drugs w))) as Hp by (rewrite Hf; left).
      apply list_elem_of_filter in Hp as [_ Hp]. destruct p as [k d].
      apply elem_of_map_to_list in Hp. by exists d. }
  all: destruct (fault env FefoDrug _); [done|];
    destruct (filter _ _) as [|p l] eqn:Hf; [done|];
    intros [= <-] id Hid; change (id ∈ fst <$> (p :: l)) in Hid;
    apply list_elem_of_fmap in Hid as ([k d] & -> & Hp);
    rewrite <- Hf in Hp; apply list_elem_of_filter in Hp as [_ Hp];
    apply elem_of_map_to_list in Hp; by exists d.
Qed.

Lemma fefo_candidates_drug env input w clinicId drugIds :
  resolve_drugs env input w = Ok drugIds ->
  Forall (fun j => is_Some (j_drug j)) (fefo_candidates w clinicId drugIds).
Proof.
  intros Hr. apply Forall_forall. intros j Hj.
  rewrite fefo_candidates_perm in Hj.
  apply list_elem_of_filter in Hj as [(_ & _ & Hd) Hin].
  apply elem_of_all_units in Hin as [_ ->].
  by apply (resolve_drugs_known _ _ _ _ Hr).
Qed.

(** While the candidates hold less than what remains, each turn takes the
    whole unit and the walk goes on. *)
Lemma fefo_loop_prefix env input userId clinicId m0 pre :
  forall rest acc w,
    Forall (fun j => fault env FefoUpdate (j_id j) = None
                     /\ fault env FefoInsert (j_id j) = None
                     /\ is_Some (j_drug j)) pre ->
    walk_inv m0 clinicId (acc_unitsUsed acc) (pre ++ rest) (units w) ->
    total_available pre < remainingQuantity acc ->
    exists acc1 w1 txs,
      fefo_loop env input userId clinicId (pre ++ rest) acc w
      = fefo_loop env input userId clinicId rest acc1 w1
      /\ walk_inv m0 clinicId (acc_unitsUsed acc1) rest (units w1)
      /\ remainingQuantity acc1 = remainingQuantity acc - total_available pre
      /\ transactions w1 = (transactions w ++ txs)%list
      /\ quantity <$> txs = (fun j => available_quantity (j_row j)) <$> pre
      /\ tx_unit_id <$> txs = j_id <$> pre
      /\ exists used,
           acc_unitsUsed acc1 = (acc_unitsUsed acc ++ used)%list
           /\ uu_unitId <$> used = j_id <$> pre
           /\ quantityTaken <$> used
              = (fun j => available_quantity (j_row j)) <$> pre.
Proof.
  induction pre as [|j pre IH]; intros rest acc w Hok Hw Htot.
  - exists acc, w, []. rewrite app_nil_r.
    split_and!; [done|done| |done..|by exists []; rewrite app_nil_r].
    unfold total_available. simpl. lia.
  - apply Forall_cons in Hok as [(Hu & Hi & Hd) Hok].
    rewrite total_available_cons in Htot.
    destruct (walk_inv_head _ _ _ _ _ _ Hw) as (_ & _ & _ & Hpos & _).
    assert (0 <= total_available pre) as Hpre.
    { destruct Hw as (_ & Hc & _). simpl in Hc.
      apply Forall_cons in Hc as [_ Hc]. apply Forall_app in Hc as [Hc _].
      by apply total_available_nonneg in Hc. }
    simpl. destruct (Z.leb_spec (remainingQuantity acc) 0); [lia|].
    destruct (fefo_step_success env input userId clinicId j acc w Hu Hi Hd)
      as (acc1 & w1 & Hstep).
    unfold bind at 1. rewrite Hstep.
    apply fefo_step_ok in Hstep
      as (name & t & _ & _ & Hrem & Hused & _ & _ & Hq & Hid & Hunits & Htx).
    assert (take_of acc j = available_quantity (j_row j)) as Htake
      by (unfold take_of; lia).
    rewrite Htake in *.
    destruct (IH rest acc1 w1 Hok) as (acc2 & w2 & txs & -> & Hw2 & Hrem2
                                        & Htx2 & Hq2 & Hid2
                                        & used & Hused2 & Huid & Hutk).
    { rewrite Hused, Hunits. apply walk_inv_step; [done|lia]. }
    { lia. }
    exists acc2, w2, (t :: txs).
    split_and!; [done|done|rewrite total_available_cons; lia| |..].
    + by rewrite Htx2, Htx, <- app_assoc.
    + by rewrite fmap_cons, Hq, Hq2.
    + by rewrite fmap_cons, Hid, Hid2.
    + exists (used_entry j (available_quantity (j_row j)) name :: used).
      split_and!.
      * by rewrite Hused2, Hused, <- app_assoc.
      * by rewrite !fmap_cons, Huid.
      * by rewrite !fmap_cons, Hutk.
Qed.

(** When the store answers every call, the walk over candidates whose
    drug is known runs to its end. *)
Lemma fefo_loop_returns env input userId clinicId us :
  (forall s k, fault env s k = None) ->
  Forall (fun j => is_Some (j_drug j)) us ->
  forall acc w,
    exists acc' w',
      fefo_loop env input userId clinicId us acc w = (Ok acc', w').
Proof.
  intros Hfault. induction 1 as [|j us Hj _ IH]; intros acc w; simpl.
  - by eexists _, _.
  - destruct (remainingQuantity acc <=? 0); [by eexists _, _|].
    destruct (fefo_step_success env input userId clinicId j acc w
                (Hfault _ _) (Hfault _ _) Hj) as (acc1 & w1 & Hstep).
    unfold bind. rewrite Hstep. apply IH.
Qed.

(** A well-formed request for a positive quantity that the candidates can
    cover is served, when the store answers every call. *)
Lemma fefo_returns env input userId clinicId w drugIds :
  (forall s k, fault env s k = None) ->
  fefo_invalid input = false ->
  resolve_drugs env input w = Ok drugIds ->
  0 < fq_quantity input
    <= total_available (fefo_candidates w clinicId drugIds) ->
  exists r w',
    checkOutMedicationFEFO env input userId clinicId w = (Ok r, w').
Proof.
  intros Hfault Hvalid Hdrugs [Hpos Hle].
  pose proof (fefo_candidates_drug _ _ _ clinicId _ Hdrugs) as Hdrug.
  unfold checkOutMedicationFEFO. rewrite Hvalid.
  destruct (Z.leb_spec (fq_quantity input) 0); [lia|].
  unfold bind at 1. run. rewrite Hdrugs, Hfault.
  destruct (fefo_candidates w clinicId drugIds) as [|j us] eqn:Hc.
  { unfold total_available in Hle. simpl in Hle. lia. }
  destruct (Z.ltb_spec (total_available (j :: us)) (fq_quantity input));
    [lia|].
  destruct (fefo_loop_returns env input userId clinicId (j :: us) Hfault
              Hdrug {| remainingQuantity := fq_quantity input;
                       acc_transactions := []; acc_unitsUsed := [] |} w)
    as (acc & w1 & Hloop).
  unfold bind. rewrite Hloop. by eexists _, _.
Qed.

(** The walk gets to [bad] with the units of [pre] taken in full; if the
    turn on [bad] throws, the call throws the same. *)
Lemma fefo_walk_reaches env input userId clinicId w drugIds pre bad post :
  fefo_invalid input = false ->
  resolve_drugs env input w = Ok drugIds ->
  fault env FefoUnits clinicId = None ->
  fefo_candidates w clinicId drugIds = (pre ++ bad :: post)%list ->
  Forall (fun j => fault env FefoUpdate (j_id j) = None
                   /\ fault env FefoInsert (j_id j) = None) pre ->
  total_available pre < fq_quantity input
    <= total_available (pre ++ bad :: post) ->
  exists acc1 w1 txs,
    walk_inv (units w) clinicId (acc_unitsUsed acc1) (bad :: post) (units w1)
    /\ 0 < remainingQuantity acc1
    /\ transactions w1 = (transactions w ++ txs)%list
    /\ quantity <$> txs = (fun j => available_quantity (j_row j)) <$> pre
    /\ tx_unit_id <$> txs = j_id <$> pre
    /\ (forall msg w',
         fefo_step env input userId clinicId bad acc1 w1 = (Throw msg, w') ->
         checkOutMedicationFEFO env input userId clinicId w = (Throw msg, w'))
    /\ remainingQuantity acc1 = fq_quantity input - total_available pre
    /\ uu_unitId <$> acc_unitsUsed acc1 = j_id <$> pre
    /\ quantityTaken <$> acc_unitsUsed acc1
       = (fun j => available_quantity (j_row j)) <$> pre.
Proof.
  intros Hvalid Hdrugs Hunits Hcands Hpre [Hlt Htot].
  pose proof (fefo_candidates_of w clinicId drugIds) as Hcand.
  pose proof (fefo_candidates_NoDup w clinicId drugIds) as Hnd.
  pose proof (fefo_candidates_drug _ _ _ clinicId _ Hdrugs) as Hdrug.
  rewrite Hcands in Hcand, Hnd, Hdrug.
  assert (0 <= total_available pre) as Hnonneg.
  { apply Forall_app in Hcand as [Hc _].
    by apply total_available_nonneg in Hc. }
  set (acc0 := {| remainingQuantity := fq_quantity input;
                  acc_transactions := []; acc_unitsUsed := [] |}).
  destruct (fefo_loop_prefix env input userId clinicId (units w) pre
              (bad :: post) acc0 w)
    as (acc1 & w1 & txs & Hloop & Hw1 & Hrem & Htx & Hq & Hid
        & used & Hused & Huid & Hutk).
  { apply Forall_app in Hdrug as [Hd _].
    apply Forall_forall. intros j Hj.
    destruct (proj1 (Forall_forall _ _) Hpre j Hj) as [Hu Hi].
    split_and!; [done..|]. by apply (proj1 (Forall_forall _ _) Hd). }
  { by apply walk_inv_init. }
  { done. }
  simpl in Hrem, Hused. subst used.
  exists acc1, w1, txs. split_and!; [done|lia|done|done|done| |done|done|done].
  intros msg w' Hstep.
  unfold checkOutMedicationFEFO. rewrite Hvalid.
  destruct (Z.leb_spec (fq_quantity input) 0); [lia|].
  unfold bind at 1. run. rewrite Hdrugs, Hunits, Hcands.
  destruct (pre ++ bad :: post)%list as [|j0 us0] eqn:Hlist;
    [by destruct pre|].
  destruct (Z.ltb_spec (total_available (j0 :: us0)) (fq_quantity input));
    [lia|].
  rewrite <- Hlist in *. clear Hlist.
  unfold bind. fold acc0. rewrite Hloop. simpl.
  destruct (Z.leb_spec (remainingQuantity acc1) 0); [lia|].
  unfold bind. by rewrite Hstep.
Qed.

Lemma only_fault_elsewhere env site key e s k :
  only_fault env site key e -> s <> site -> fault env s k = None.
Proof.
  intros Hfault Hs. rewrite (Hfault s k). apply decide_False. by intros [? _].
Qed.

Lemma only_fault_here env site key e :
  only_fault env site key e -> fault env site key = Some e.
Proof. intros Hfault. rewrite (Hfault site key). by apply decide_True. Qed.

Lemma only_fault_before env site e pre bad post :
  only_fault env site (j_id bad) e ->
  NoDup (j_id <$> (pre ++ bad :: post)%list) ->
  Forall (fun j => fault env site (j_id j) = None) pre.
Proof.
  intros Hfault Hnd. apply Forall_forall. intros j Hj.
  rewrite (Hfault site (j_id j)). apply decide_False.
  intros [_ Heq]. rewrite fmap_app in Hnd.
  apply NoDup_app in Hnd as (_ & Hdisj & _). apply (Hdisj (j_id j)).
  - apply list_elem_of_fmap. eauto.
  - rewrite Heq, fmap_cons. left.
Qed.

(** The sibling case: the only error of the store is on the update of
    [bad].  The call throws the update failure and the units table ends
    as it began. *)
Lemma fefo_update_failure_restores_units
    env input userId clinicId w drugIds pre bad post e :
  fefo_invalid input = false ->
  resolve_drugs env input w = Ok drugIds ->
  fefo_candidates w clinicId drugIds = (pre ++ bad :: post)%list ->
  only_fault env FefoUpdate (j_id bad) e ->
  total_available pre < fq_quantity input
    <= total_available (pre ++ bad :: post) ->
  exists w',
    checkOutMedicationFEFO env input userId clinicId w
    = (Throw ("Failed to update unit: " ++ e), w')
    /\ units w' = units w.
Proof.
  intros Hvalid Hdrugs Hcands Hfault Htot.
  pose proof (fefo_candidates_NoDup w clinicId drugIds) as Hnd.
  rewrite Hcands in Hnd.
  destruct (fefo_walk_reaches env input userId clinicId w drugIds
              pre bad post Hvalid Hdrugs)
    as (acc1 & w1 & txs & Hw1 & Hrem & _ & _ & _ & Hthrow & _);
    [by eapply only_fault_elsewhere|done| |done|].
  { pose proof (only_fault_before _ _ _ _ _ _ Hfault Hnd) as Hpre.
    eapply Forall_impl; [exact Hpre|]. intros j Hj. split; [done|].
    by eapply only_fault_elsewhere. }
  destruct (fefo_step env input userId clinicId bad acc1 w1)
    as [[acc2|msg] w2] eqn:Hstep.
  { apply fefo_step_ok in Hstep as (_ & _ & Hu & _).
    by rewrite (only_fault_here _ _ _ _ Hfault) in Hu. }
  exists w2. specialize (Hthrow _ _ eq_refl).
  apply fefo_step_throw in Hstep
    as [(e' & Hu & -> & Hunits & _)|[(_ & Hu & _)|(Hu & _)]];
    rewrite (only_fault_here _ _ _ _ Hfault) in Hu; [|done..].
  injection Hu as <-. split; [done|]. rewrite Hunits.
  apply (walk_inv_rollback_restores env (units w) clinicId _ (bad :: post));
    [intros k; by eapply only_fault_elsewhere..|done].
Qed.

(** What the compensation loop leaves of one of its units: what it held
    plus what had been taken from it when the store answers the re-read
    and accepts the write, and what it held otherwise. *)
Lemma rollback_units_at env clinicId used :
  forall m u r,
    NoDup (uu_unitId <$> used) -> u ∈ used ->
    m !! uu_unitId u = Some r -> clinic_id r = clinicId ->
    rollback_units env clinicId used m !! uu_unitId u
    = Some (if compensated env (uu_unitId u)
            then set_available_quantity
                   (available_quantity r + quantityTaken u) r
            else r).
Proof.
  induction used as [|u0 used IH]; intros m u r Hnd Hu Hm Hc;
    [by apply elem_of_nil in Hu|].
  apply NoDup_cons in Hnd as [Hu0 Hnd].
  apply elem_of_cons in Hu as [->|Hu].
  - simpl. rewrite rollback_units_other by done. unfold compensated.
    destruct (fault env FefoRbRead (uu_unitId u0)); [done|].
    rewrite (select_unit_where_eq _ _ _ _ Hm Hc).
    destruct (fault env FefoRbWrite (uu_unitId u0)); [done|].
    by apply lookup_update_unit_where_eq.
  - destruct (rollback_units_cons env clinicId u0 used m)
      as (m1 & -> & Hother & _).
    assert (uu_unitId u <> uu_unitId u0) as Hne.
    { intros Heq. apply Hu0. rewrite <- Heq.
      apply list_elem_of_fmap. eauto. }
    apply IH; [done..| |done]. by rewrite Hother.
Qed.

(** The [unitsUsed] entry of a candidate the walk has taken in full. *)
Lemma used_of_candidate (used : list UnitUsed) (pre : list UnitJoined) j :
  uu_unitId <$> used = j_id <$> pre ->
  quantityTaken <$> used = (fun j => available_quantity (j_row j)) <$> pre ->
  j ∈ pre ->
  exists u, u ∈ used /\ uu_unitId u = j_id j
            /\ quantityTaken u = available_quantity (j_row j).
Proof.
  intros Hid Htk Hj. apply list_elem_of_lookup in Hj as [i Hi].
  assert (is_Some (used !! i)) as [u Hu].
  { apply lookup_lt_is_Some. apply lookup_lt_Some in Hi.
    rewrite <- (length_fmap uu_unitId used), Hid, length_fmap. exact Hi. }
  exists u. split; [by eapply list_elem_of_lookup_2|].
  apply (f_equal (fun l => l !! i)) in Hid, Htk.
  rewrite !list_lookup_fmap in Hid. rewrite !list_lookup_fmap in Htk.
  rewrite Hu, Hi in Hid. rewrite Hu, Hi in Htk. simpl in Hid, Htk.
  by injection Hid; injection Htk.
Qed.

(** C3: the candidates are [pre ++ bad :: post], the request needs more
    than [pre] holds, the store answers the walk up to [bad] and accepts
    the decrement of [bad], and reports an error on the ledger insert for
    [bad].  The call throws the transaction failure naming the store's
    message.  Each unit of [pre], emptied by the walk, has its quantity
    back when the store answers its re-read and accepts the write that
    adds back what was taken, and stays empty otherwise.  The unit [bad]
    is not re-read: it is written back the quantity the candidates query
    had read, and holds it when the store accepts that one write,
    whatever the re-reads give; it stays decremented otherwise.  No other
    unit changes.  So the units table ends exactly as it began when the
    store accepts the whole compensation, whose outcome the code does not
    look at.  The ledger keeps the rows written for [pre]. *)
Theorem fefo_insert_failure_compensation
    env input userId clinicId w drugIds pre bad post e :
  fefo_invalid input = false ->
  resolve_drugs env input w = Ok drugIds ->
  fault env FefoUnits clinicId = None ->
  fefo_candidates w clinicId drugIds = (pre ++ bad :: post)%list ->
  Forall (fun j => fault env FefoUpdate (j_id j) = None
                   /\ fault env FefoInsert (j_id j) = None) pre ->
  fault env FefoUpdate (j_id bad) = None ->
  fault env FefoInsert (j_id bad) = Some e ->
  total_available pre < fq_quantity input
    <= total_available (pre ++ bad :: post) ->
  let taken := Z.min (fq_quantity input - total_available pre)
                     (available_quantity (j_row bad)) in
  exists w' txs,
    checkOutMedicationFEFO env input userId clinicId w
    = (Throw ("Failed to create transaction: "
              ++ or_default e "Unknown error"), w')
    /\ 0 < taken
    /\ Forall (fun j =>
         holds (units w') (j_id j) (j_row j)
           (if compensated env (j_id j)
            then available_quantity (j_row j) else 0)) pre
    /\ holds (units w') (j_id bad) (j_row bad)
         match fault env FefoRbCurrent (j_id bad) with
         | None => available_quantity (j_row bad)
         | Some _ => available_quantity (j_row bad) - taken
         end
    /\ (forall id, id ∉ j_id <$> (pre ++ [bad])%list ->
                   units w' !! id = units w !! id)
    /\ (Forall (fun j => compensated env (j_id j) = true) pre ->
        fault env FefoRbCurrent (j_id bad) = None ->
        units w' = units w)
    /\ transactions w' = (transactions w ++ txs)%list
    /\ quantity <$> txs = (fun j => available_quantity (j_row j)) <$> pre
    /\ tx_unit_id <$> txs = j_id <$> pre.
Proof.
  intros Hvalid Hdrugs Hunits Hcands Hpre Hupd Hins Htot taken.
  pose proof (fefo_candidates_of w clinicId drugIds) as Hcand.
  rewrite Hcands in Hcand.
  destruct (fefo_walk_reaches env input userId clinicId w drugIds
              pre bad post Hvalid Hdrugs Hunits Hcands Hpre Htot)
    as (acc1 & w1 & txs & Hw1 & Hrem & Htx & Hq & Hid & Hthrow
        & Hrem1 & Huid & Hutk).
  destruct (fefo_step env input userId clinicId bad acc1 w1)
    as [[acc2|msg] w2] eqn:Hstep.
  { apply fefo_step_ok in Hstep as (_ & _ & _ & Hi & _). congruence. }
  specialize (Hthrow _ _ eq_refl).
  apply fefo_step_throw in Hstep
    as [(e' & Hu & _)|[(e' & _ & Hi & -> & Hunits2 & Htx2)|(_ & Hi & _)]];
    [congruence| |congruence].
  rewrite Hins in Hi. injection Hi as <-.
  assert (take_of acc1 bad = taken) as Htake
    by (unfold take_of, taken; by rewrite Hrem1).
  rewrite Htake in Hunits2.
  destruct (walk_inv_head _ _ _ _ _ _ Hw1) as (Hm1 & Hm0 & Hcl & Hpos & Hj).
  assert (NoDup (uu_unitId <$> acc_unitsUsed acc1)) as Hndu.
  { destruct Hw1 as (Hnd1 & _). by apply NoDup_app in Hnd1 as (? & _). }
  assert (forall j, j ∈ pre ->
            units w2 !! j_id j
            = Some (if compensated env (j_id j) then j_row j
                    else set_available_quantity 0 (j_row j))) as Hpre2.
  { intros j Hjin.
    destruct (used_of_candidate _ _ _ Huid Hutk Hjin)
      as (u & Hu & Hui & Hut).
    destruct (walk_inv_used_lookup _ _ _ _ _ _ Hw1 Hu)
      as (r0 & Hr0 & Hrcl & Hr & Hrange).
    assert (r0 = j_row j) as ->.
    { apply Forall_app in Hcand as [Hc _].
      destruct (proj1 (Forall_forall _ _) Hc j Hjin) as (Hm & _).
      rewrite Hui, Hm in Hr0. by injection Hr0. }
    assert (j_id bad <> j_id j) as Hne.
    { intros Heq. apply Hj. rewrite Heq, <- Hui.
      apply list_elem_of_fmap. eauto. }
    rewrite Hunits2. unfold restore_current.
    transitivity (rollback_units env clinicId (acc_unitsUsed acc1)
                    (decrement clinicId bad taken (units w1)) !! j_id j).
    { destruct (fault env FefoRbCurrent (j_id bad)); [done|].
      by apply lookup_update_unit_where_ne. }
    assert (decrement clinicId bad taken (units w1) !! uu_unitId u
            = Some (set_available_quantity
                      (available_quantity (j_row j) - quantityTaken u)
                      (j_row j))) as Hr2.
    { unfold decrement.
      rewrite lookup_update_unit_where_ne by (by rewrite Hui).
      exact Hr. }
    rewrite <- Hui.
    rewrite (rollback_units_at env clinicId _ _ u _ Hndu Hu Hr2 Hrcl).
    f_equal. rewrite Hut, set_available_quantity_twice. simpl.
    destruct (compensated env (uu_unitId u)); [|f_equal; lia].
    transitivity (set_available_quantity (available_quantity (j_row j))
                    (j_row j));
      [f_equal; lia|apply set_available_quantity_same]. }
  assert (units w2 !! j_id bad
          = Some match fault env FefoRbCurrent (j_id bad) with
                 | None => j_row bad
                 | Some _ =>
                   set_available_quantity
                     (available_quantity (j_row bad) - taken) (j_row bad)
                 end) as Hbad2.
  { assert (rollback_units env clinicId (acc_unitsUsed acc1)
              (decrement clinicId bad taken (units w1)) !! j_id bad
            = Some (set_available_quantity
                      (available_quantity (j_row bad) - taken) (j_row bad)))
      as Hbad3.
    { rewrite rollback_units_other by done. unfold decrement.
      by apply lookup_update_unit_where_eq. }
    rewrite Hunits2. unfold restore_current.
    destruct (fault env FefoRbCurrent (j_id bad)); [done|].
    erewrite lookup_update_unit_where_eq; [|exact Hbad3|exact Hcl].
    by rewrite set_available_quantity_twice, set_available_quantity_same. }
  assert (forall id, id ∉ j_id <$> (pre ++ [bad])%list ->
                     units w2 !! id = units w !! id) as Hother2.
  { intros id Hout. rewrite fmap_app in Hout.
    apply not_elem_of_app in Hout as [Hout Hne]. rewrite <- Huid in Hout.
    simpl in Hne. apply not_elem_of_cons in Hne as [Hne _].
    rewrite Hunits2. unfold restore_current.
    transitivity (rollback_units env clinicId (acc_unitsUsed acc1)
                    (decrement clinicId bad taken (units w1)) !! id).
    { destruct (fault env FefoRbCurrent (j_id bad)); [done|].
      by apply lookup_update_unit_where_ne. }
    rewrite rollback_units_other by done. unfold decrement.
    rewrite lookup_update_unit_where_ne by done.
    destruct Hw1 as (_ & _ & _ & Hother). by apply Hother. }
  exists w2, txs. split_and!; [done| | | |done| |congruence|done|done].
  - unfold taken. lia.
  - apply Forall_forall. intros j Hjin. eexists.
    split; [by apply Hpre2|].
    destruct (compensated env (j_id j));
      [by rewrite set_available_quantity_same|done].
  - eexists. split; [exact Hbad2|].
    destruct (fault env FefoRbCurrent (j_id bad));
      [done|by rewrite set_available_quantity_same].
  - intros Hall Hcur. apply map_eq. intros id.
    destruct (decide (id ∈ j_id <$> (pre ++ [bad])%list)) as [Hin|Hout];
      [|by apply Hother2].
    apply list_elem_of_fmap in Hin as (j & -> & Hin).
    apply elem_of_app in Hin as [Hin|Hin].
    + rewrite (Hpre2 _ Hin), (proj1 (Forall_forall _ _) Hall _ Hin).
      apply Forall_app in Hcand as [Hc _].
      by destruct (proj1 (Forall_forall _ _) Hc j Hin) as (-> & _).
    + apply list_elem_of_singleton in Hin as ->.
      by rewrite Hbad2, Hcur, Hm0.
Qed.

(** The candidates are unit-1 then unit-2, 30 each, and 40 are asked.
    With the ledger down for unit-2 and the store answering the rest, the
    call throws and both units hold their 30 again; the row of the 30
    taken from unit-1 stays in the ledger. *)
Lemma fefo_insert_failure_compensation_witness :
  let env := Scenario.env_with
               (Scenario.fault_at FefoInsert "unit-2" "ledger down") in
  exists w' t,
    checkOutMedicationFEFO env (Scenario.by_ndc 40) "user-1" "clinic-1"
      Scenario.two_units
    = (Throw "Failed to create transaction: ledger down", w')
    /\ units w' = units Scenario.two_units
    /\ transactions w' = [t]
    /\ quantity t = 30 /\ tx_unit_id t = "unit-1".
Proof.
  intros env.
  destruct (fefo_insert_failure_compensation env (Scenario.by_ndc 40)
              "user-1" "clinic-1" Scenario.two_units ["drug-1"]
              [join Scenario.two_units "unit-1"
                 (Scenario.stock 30 30 "2025-01-01" "2024-12-02")]
              (join Scenario.two_units "unit-2"
                 (Scenario.stock 30 30 "2025-06-01" "2024-12-03"))
              [] "ledger down")
    as (w' & txs & Hrun & _ & _ & _ & _ & Hunits & Htx & Hq & Hid).
  - vm_compute; reflexivity.
  - vm_compute; reflexivity.
  - vm_compute; reflexivity.
  - vm_compute; reflexivity.
  - repeat constructor.
  - vm_compute; reflexivity.
  - vm_compute; reflexivity.
  - split; vm_compute; congruence.
  - destruct txs as [|t [|t' txs]]; try discriminate Hq.
    exists w', t. split; [exact Hrun|].
    split; [apply Hunits; [repeat constructor|reflexivity]|].
    split; [exact Htx|]. split; [by injection Hq|by injection Hid].
Defined.

(** The same call when the store also refuses the compensation.  With
    every re-read refused, unit-1 stays empty, and unit-2, which the code
    does not re-read, holds its 30 again.  With the write to the current
    unit refused, unit-1 is restored and unit-2 stays at 20.  In both runs
    the call throws the same message and the units table is not the
    initial one. *)
Lemma fefo_insert_failure_unrestored_counterexample :
  let call f := checkOutMedicationFEFO (Scenario.env_with f)
                  (Scenario.by_ndc 40) "user-1" "clinic-1"
                  Scenario.two_units in
  let available w id := available_quantity <$> units w !! id in
  let no_reread := call (fun s k =>
                     match s with
                     | FefoInsert =>
                       if String.eqb k "unit-2" then Some "ledger down"
                       else None
                     | FefoRbRead => Some "read refused"
                     | _ => None
                     end) in
  let no_write := call (fun s k =>
                    match s with
                    | FefoInsert =>
                      if String.eqb k "unit-2" then Some "ledger down"
                      else None
                    | FefoRbCurrent => Some "write refused"
                    | _ => None
                    end) in
  (available Scenario.two_units "unit-1" = Some 30
   /\ available Scenario.two_units "unit-2" = Some 30)
  /\ (no_reread.1 = Throw "Failed to create transaction: ledger down"
      /\ available no_reread.2 "unit-1" = Some 0
      /\ available no_reread.2 "unit-2" = Some 30)
  /\ (no_write.1 = Throw "Failed to create transaction: ledger down"
      /\ available no_write.2 "unit-1" = Some 30
      /\ available no_write.2 "unit-2" = Some 20).
Proof. split_and!; vm_compute; reflexivity. Qed.


(** ** Creating a unit *)

Lemma createUnit_unfold env input userId clinicId w :
  createUnit env input userId clinicId w
  = match resolve_unit_drug env input (entering w) with
    | (Ok drugId, w1) => createUnit_for env input drugId userId clinicId w1
    | (Throw e, w1) => (Throw e, w1)
    end.
Proof. reflexivity. Qed.

(** C5: on a lot whose maximum capacity is set, when the quantities of
    the lot's units plus the new total exceed the maximum, [createUnit]
    throws the capacity error, whose message states the current figure
    (over the maximum), the attempted one and the available one; it
    writes nothing after having resolved the drug, so that no unit is
    created and no transaction recorded. *)
Theorem createUnit_capacity_exceeded
    env input userId clinicId w drugId w1 lot maxCapacity :
  resolve_unit_drug env input (entering w) = (Ok (Some drugId), w1) ->
  drugId <> "" ->
  units w1 = units w -> transactions w1 = transactions w ->
  getLotById (cu_lotId input) clinicId w1 = Some lot ->
  max_capacity lot = Some maxCapacity ->
  maxCapacity < getLotCurrentCapacity (cu_lotId input) w1
                + cu_totalQuantity input ->
  exists w',
    createUnit env input userId clinicId w
    = (Throw (capacity_message (getLotCurrentCapacity (cu_lotId input) w)
                maxCapacity (cu_totalQuantity input)), w')
    /\ getLotCurrentCapacity (cu_lotId input) w
       = sumZ ((fun p => total_quantity p.2) <$>
               filter (fun p => lot_id p.2 = cu_lotId input)
                      (map_to_list (units w)))
    /\ units w' = units w
    /\ transactions w' = transactions w.
Proof.
  intros Hres Hne Hunits Htxs Hlot Hmax Hover.
  rewrite createUnit_unfold, Hres. unfold createUnit_for.
  destruct drugId as [|c s]; [done|]. run. rewrite Hlot, Hmax.
  assert (getLotCurrentCapacity (cu_lotId input) w1
          = getLotCurrentCapacity (cu_lotId input) w) as Hcap
    by (unfold getLotCurrentCapacity; by rewrite Hunits).
  rewrite Hcap in *.
  destruct (Z.ltb_spec maxCapacity
              (getLotCurrentCapacity (cu_lotId input) w
               + cu_totalQuantity input)); [|lia].
  by exists w1.
Qed.

Lemma createUnit_capacity_exceeded_witness :
  exists w',
    createUnit Scenario.env0 (Scenario.check_in_of 200) "user-1" "clinic-1"
      Scenario.nearly_full
    = (Throw ("Cannot add unit: Would exceed lot capacity. "
              ++ "Current: 900/1000, Attempting to add: 200, Available: 100"),
       w')
    /\ getLotCurrentCapacity "lot-1" Scenario.nearly_full = 900
    /\ units w' = units Scenario.nearly_full
    /\ transactions w' = transactions Scenario.nearly_full.
Proof.
  destruct (createUnit_capacity_exceeded Scenario.env0
              (Scenario.check_in_of 200) "user-1" "clinic-1"
              Scenario.nearly_full "drug-1" (entering Scenario.nearly_full)
              Scenario.shelf 1000)
    as (w' & Hrun & Hcap & Hunits & Htxs);
    [reflexivity|done|reflexivity|reflexivity|reflexivity|reflexivity
    |vm_compute; reflexivity|].
  exists w'. split_and!; [exact Hrun|reflexivity|exact Hunits|exact Htxs].
Defined.

Lemma getLotById_Some lotId clinicId w l :
  getLotById lotId clinicId w = Some l -> lots w !! lotId = Some l.
Proof.
  unfold getLotById. destruct (lots w !! lotId); [|done].
  by destruct (decide _); intros [= <-].
Qed.

(** C6: when the unit insert succeeds, [createUnit] makes one ledger
    insert, a [check_in] row for the full total quantity.  When the store
    accepts it, the ledger grows by exactly that row; when the store
    refuses it, the ledger is unchanged and the error is written to the
    console.  Either way the unit stays in the units table with its
    quantities and the call returns it (the drug and the acting user being
    rows of the store, as the lot is). *)
Theorem createUnit_ledger_entry_best_effort
    env input userId clinicId w drugId w1 lot :
  resolve_unit_drug env input (entering w) = (Ok (Some drugId), w1) ->
  drugId <> "" ->
  getLotById (cu_lotId input) clinicId w1 = Some lot ->
  (forall m, max_capacity lot = Some m ->
             getLotCurrentCapacity (cu_lotId input) w1
             + cu_totalQuantity input <= m) ->
  fault env CuInsert (fresh_unit_id env) = None ->
  units w1 !! fresh_unit_id env = None ->
  is_Some (drugs w1 !! drugId) -> is_Some (users w1 !! userId) ->
  exists v w' row,
    createUnit env input userId clinicId w = (Ok v, w')
    /\ view_id v = fresh_unit_id env
    /\ total_quantity (view_row v) = cu_totalQuantity input
    /\ units w' !! fresh_unit_id env = Some row
    /\ total_quantity row = cu_totalQuantity input
    /\ available_quantity row = cu_availableQuantity input
    /\ match fault env CuTxInsert (fresh_unit_id env) with
       | None =>
         exists t,
           transactions w' = (transactions w1 ++ [t])%list
           /\ tx_type t = check_in
           /\ quantity t = cu_totalQuantity input
           /\ tx_unit_id t = fresh_unit_id env
       | Some e =>
         transactions w' = transactions w1
         /\ (LError, "Error creating transaction: " ++ e) ∈ console w'
       end.
Proof.
  intros Hres Hne Hlot Hcap Hins Hfresh [d Hd] [u Hu].
  pose proof (getLotById_Some _ _ _ _ Hlot) as Hl.
  rewrite createUnit_unfold, Hres. unfold createUnit_for.
  destruct drugId as [|c s]; [done|]. run. rewrite Hlot.
  destruct (max_capacity lot) as [m|] eqn:Hmax; run.
  1: specialize (Hcap m eq_refl);
     destruct (Z.ltb_spec m (getLotCurrentCapacity (cu_lotId input) w1
                             + cu_totalQuantity input)); [lia|]; run.
  all: unfold insert_unit; rewrite Hins, Hfresh; run.
  all: destruct (fault env CuQrCode (fresh_unit_id env)); run.
  all: destruct (fault env CuTxInsert (fresh_unit_id env)) as [e|]; run.
  all: destruct (fault env CuFetch (fresh_unit_id env)); run.
  all: rewrite ?lookup_alter_eq, ?lookup_insert_eq; simpl.
  all: unfold formatUnit, join; simpl; rewrite ?Hd, ?Hl, ?Hu; simpl.
  all: eexists _, _, _; (split; [reflexivity|]); split_and!.
  all: try match goal with |- exists _, _ => eexists; split_and! end.
  all: unfold append_tx, with_console, with_units, with_transactions;
       repeat progress (simpl; rewrite ?lookup_alter_eq, ?lookup_insert_eq).
  all: try reflexivity.
  all: try reflexivity.
  all: try (apply elem_of_app; right; apply list_elem_of_singleton; done).
  all: try (apply elem_of_app; left; apply elem_of_app; right;
            apply list_elem_of_singleton; done).
Qed.

Lemma createUnit_ledger_entry_best_effort_witness :
  let env := Scenario.env_with
               (Scenario.fault_at CuTxInsert "unit-3" "ledger down") in
  exists v w' row,
    createUnit env (Scenario.check_in_of 50) "user-1" "clinic-1"
      Scenario.one_unit = (Ok v, w')
    /\ view_id v = "unit-3"
    /\ total_quantity (view_row v) = 50
    /\ units w' !! "unit-3" = Some row
    /\ total_quantity row = 50
    /\ available_quantity row = 50
    /\ transactions w' = transactions (entering Scenario.one_unit)
    /\ (LError, "Error creating transaction: ledger down") ∈ console w'.
Proof.
  intros env.
  destruct (createUnit_ledger_entry_best_effort env
              (Scenario.check_in_of 50) "user-1" "clinic-1"
              Scenario.one_unit "drug-1" (entering Scenario.one_unit)
              Scenario.shelf)
    as (v & w' & row & Hrun & Hid & Htot & Hrow & Hrt & Hra & Htx).
  - vm_compute; reflexivity.
  - intros ?; discriminate.
  - vm_compute; reflexivity.
  - intros m [= <-]; vm_compute; congruence.
  - vm_compute; reflexivity.
  - vm_compute; reflexivity.
  - eexists; vm_compute; reflexivity.
  - eexists; vm_compute; reflexivity.
  - exists v, w', row.
    split; [exact Hrun|]. split; [exact Hid|]. split; [exact Htot|].
    split; [exact Hrow|]. split; [exact Hrt|]. split; [exact Hra|].
    exact Htx.
Defined.

(** ** Units that exist are not touched by a check-in *)

Lemma createUnit_for_keeps env input drugId userId clinicId w id r :
  units w !! id = Some r ->
  units (createUnit_for env input drugId userId clinicId w).2 !! id = Some r.
Proof.
  intros Hr. unfold createUnit_for.
  destruct drugId as [[|c s]|]; [done| |done]. run.
  destruct (getLotById _ _ _) as [lot|]; [|done].
  assert (units (insert_unit env
                   (new_unit_row env input (String c s) userId clinicId)
                   w).2 !! id = Some r
          /\ forall k, (insert_unit env
                   (new_unit_row env input (String c s) userId clinicId)
                   w).1 = Ok (inr k) -> k <> id) as Hins.
  { unfold insert_unit. destruct (fault env CuInsert _); [done|].
    destruct (units w !! fresh_unit_id env) eqn:Hf; [done|]. simpl.
    assert (fresh_unit_id env <> id) by congruence.
    split; [by rewrite lookup_insert_ne|]. by intros k [= <-]. }
  destruct (max_capacity lot) as [m|]; run.
  1: destruct (m <? _); run; [done|].
  all: destruct (insert_unit env _ w) as [[[e|k]|e] w1];
       simpl in Hins; destruct Hins as [Hw1 Hk]; run; [done| |done].
  all: specialize (Hk k eq_refl).
  all: destruct (fault env CuQrCode k); run.
  all: destruct (fault env CuTxInsert k); run.
  all: destruct (fault env CuFetch k); run; try done.
  all: rewrite ?lookup_alter_ne by done; try done.
  all: destruct (units w1 !! k) as [rk|] eqn:Hrk;
       rewrite ?lookup_alter_eq, ?Hrk; run;
       try (destruct (formatUnit _)); run;
       rewrite ?lookup_alter_ne by done; done.
Qed.

(** The catalogue lookup is taken to write no unit. *)
Section CreateUnitFrame.

Context (env : Env).
Hypothesis catalogue_keeps_units :
  forall d w, units (getOrCreateDrug env d w).2 = units w.

Lemma resolve_unit_drug_units input w :
  units (resolve_unit_drug env input w).2 = units w.
Proof.
  pose proof catalogue_keeps_units as Hframe. unfold resolve_unit_drug.
  destruct (cu_drugData input) as [data|]; [|done].
  destruct (truthy_str (cu_drugId input)); [done|].
  unfold bind. specialize (Hframe data w).
  by destruct (getOrCreateDrug env data w) as [[d|e] w1].
Qed.

Lemma createUnit_keeps_units input userId clinicId w id r :
  units w !! id = Some r ->
  units (createUnit env input userId clinicId w).2 !! id = Some r.
Proof.
  intros Hr. rewrite createUnit_unfold.
  pose proof (resolve_unit_drug_units input (entering w)) as Hu.
  destruct (resolve_unit_drug env input (entering w)) as [[d|e] w1];
    simpl in Hu.
  - apply createUnit_for_keeps. by rewrite Hu.
  - simpl. by rewrite Hu.
Qed.

End CreateUnitFrame.

(** ** Checking out of one unit *)




Lemma checkOutUnit_tracks env input userId clinicId w :
  0 <= co_quantity input ->
  tracks (units w) (units (checkOutUnit env input userId clinicId w).2).
Proof.
  intros Hq. unfold checkOutUnit. run.
  destruct (fault env CoRead _); [auto with store|].
  destruct (select_unit_where _ _ _) as [unit|] eqn:Hsel;
    [|apply tracks_refl].
  apply select_unit_where_Some in Hsel as [Hunit Hclinic].
  destruct (Z.ltb_spec (available_quantity unit) (co_quantity input));
    [auto with store|].
  run. destruct (fault env CoUpdate _); run; [auto with store|].
  assert (tracks (units w)
            (update_unit_where (co_unitId input) clinicId
               (set_available_quantity
                  (available_quantity unit - co_quantity input))
               (units w))) as Hdec.
  { apply tracks_update; [auto with store|].
    intros r0 Hr0. rewrite Hunit in Hr0. injection Hr0 as <-. lia. }
  destruct (fault env CoInsert _); run.
  - destruct (fault env CoRollback _); run; [done|].
    apply tracks_update; [done|].
    intros r0 Hr0. rewrite Hunit in Hr0. injection Hr0 as <-. by left.
  - by destruct (fault env CoFetch _); run.
Qed.

(** [checkOutUnit] does not test the sign of the quantity: asked -5 of a
    unit holding 10 of 10, it writes 15 and records a check-out of -5. *)
Example checkOutUnit_negative_quantity :
  let run := checkOutUnit Scenario.env0 (Scenario.take_from "unit-1" (-5))
               "user-1" "clinic-1" Scenario.one_unit in
  (fun r => (available_quantity r, total_quantity r))
    <$> units run.2 !! "unit-1" = Some (15, 10)
  /\ quantity <$> transactions run.2 = [10; -5].
Proof. split; vm_compute; reflexivity. Qed.

(** ** Updating a unit *)

Lemma updateUnit_units env unitId updates clinicId w :
  units (updateUnit env unitId updates clinicId w).2 = units w
  \/ exists r, units w !! unitId = Some r /\ clinic_id r = clinicId
       /\ units (updateUnit env unitId updates clinicId w).2
          = <[unitId := apply_unit_updates updates r]> (units w).
Proof.
  unfold updateUnit. run.
  destruct (fault env UuUpdate unitId); [by left|].
  destruct (select_unit_where _ _ _) as [r|] eqn:Hsel; [|by left].
  apply select_unit_where_Some in Hsel as [Hr Hc].
  right. exists r. split_and!; [done..|]. run.
  unfold update_unit_where. rewrite Hr, decide_True by done.
  rewrite lookup_insert_eq.
  by destruct (formatUnit _).
Qed.

(** ** The unit invariant across the operations *)

(** C4, as the code has it.  [createUnit] leaves the units that exist as
    they are (the catalogue lookup standing by its contract of not
    writing units); [checkOutUnit], asked a quantity that is not
    negative, and [checkOutMedicationFEFO] keep the invariant
    [0 <= availableQuantity <= totalQuantity] of every unit, whether they
    return or throw and whatever the store does in between; [updateUnit]
    writes the quantities it is given without any check, and keeps the
    invariant when the row it writes satisfies it. *)
Theorem operations_and_unit_invariant env :
  (forall d w, units (getOrCreateDrug env d w).2 = units w) ->
  (forall input userId clinicId w,
      preserves_inv (units w)
        (units (createUnit env input userId clinicId w).2))
  /\ (forall unitId updates clinicId w,
         (forall r, units w !! unitId = Some r -> clinic_id r = clinicId ->
                    unit_inv (apply_unit_updates updates r)) ->
         preserves_inv (units w)
           (units (updateUnit env unitId updates clinicId w).2))
  /\ (forall input userId clinicId w,
         0 <= co_quantity input ->
         preserves_inv (units w)
           (units (checkOutUnit env input userId clinicId w).2))
  /\ (forall input userId clinicId w,
         preserves_inv (units w)
           (units (checkOutMedicationFEFO env input userId clinicId w).2)).
Proof.
  intros Hframe. split_and!.
  - intros input userId clinicId w id r r' Hr Hinv Hr'.
    rewrite (createUnit_keeps_units env Hframe input userId clinicId w id r
               Hr) in Hr'.
    by injection Hr' as <-.
  - intros unitId updates clinicId w Hnew id r r' Hr Hinv.
    destruct (updateUnit_units env unitId updates clinicId w)
      as [->|(r0 & Hr0 & Hc & ->)].
    + rewrite Hr. by intros [= <-].
    + destruct (decide (unitId = id)) as [<-|Hne].
      * rewrite lookup_insert_eq. intros [= <-]. by apply Hnew.
      * rewrite lookup_insert_ne, Hr by done. by intros [= <-].
  - intros input userId clinicId w Hq.
    by apply tracks_preserves_inv, checkOutUnit_tracks.
  - intros input userId clinicId w.
    apply tracks_preserves_inv, fefo_tracks.
Qed.

Lemma operations_and_unit_invariant_witness :
  preserves_inv (units Scenario.one_unit)
    (units (createUnit Scenario.env0 (Scenario.check_in_of 50) "user-1"
              "clinic-1" Scenario.one_unit).2)
  /\ preserves_inv (units Scenario.one_unit)
       (units (updateUnit Scenario.env0 "unit-1"
                 {| up_totalQuantity := None; up_availableQuantity := Some 7;
                    up_expiryDate := None; up_optionalNotes := None |}
                 "clinic-1" Scenario.one_unit).2)
  /\ preserves_inv (units Scenario.one_unit)
       (units (checkOutUnit Scenario.env0 (Scenario.take_from "unit-1" 4)
                 "user-1" "clinic-1" Scenario.one_unit).2)
  /\ preserves_inv (units Scenario.two_units)
       (units (checkOutMedicationFEFO Scenario.env0 (Scenario.by_ndc 40)
                 "user-1" "clinic-1" Scenario.two_units).2).
Proof.
  destruct (operations_and_unit_invariant Scenario.env0)
    as (Hcreate & Hupdate & Hout & Hfefo).
  - intros d w. reflexivity.
  - split; [apply Hcreate|]. split.
    + apply Hupdate. intros r Hr _.
      change (units Scenario.one_unit) with
        ({[ "unit-1" := Scenario.stock 10 10 "2025-06-01" "2024-12-02" ]}
           : gmap string UnitRow) in Hr.
      rewrite lookup_singleton_eq in Hr. injection Hr as <-.
      unfold unit_inv. simpl. lia.
    + split; [apply Hout; simpl; lia|apply Hfefo].
Defined.

(** C4 as stated fails on [updateUnit]: a unit with 10 of 10 available is
    given an available quantity of 25 and keeps its total of 10. *)
Lemma updateUnit_invariant_counterexample :
  let updates := {| up_totalQuantity := None;
                    up_availableQuantity := Some 25;
                    up_expiryDate := None; up_optionalNotes := None |} in
  let run := updateUnit Scenario.env0 "unit-1" updates "clinic-1"
               Scenario.one_unit in
  exists u r r',
    run.1 = Ok u
    /\ units Scenario.one_unit !! "unit-1" = Some r /\ unit_inv r
    /\ units run.2 !! "unit-1" = Some r' /\ ~ unit_inv r'
    /\ available_quantity r' = 25 /\ total_quantity r' = 10.
Proof.
  eexists _, _, _. split; [vm_compute; reflexivity|].
  split; [vm_compute; reflexivity|].
  split; [unfold unit_inv; simpl; lia|].
  split; [vm_compute; reflexivity|].
  split; [unfold unit_inv; simpl; lia|]. split; reflexivity.
Qed.

(** ** Listing units *)

Lemma map_formatUnit_length l us :
  map_formatUnit l = Ok us -> length us = length l.
Proof.
  revert us. induction l as [|j l IH]; intros us; simpl.
  - by intros [= <-].
  - destruct (formatUnit j); [|done].
    destruct (map_formatUnit l) as [us'|]; [|done].
    intros [= <-]. simpl. f_equal. by apply IH.
Qed.

Lemma range_length {A} (from to : Z) (l : list A) :
  0 <= to - from + 1 -> Z.of_nat (length (range from to l)) <= to - from + 1.
Proof. intros Hn. unfold range. rewrite length_take. lia. Qed.

(** C10: a [getUnits] call that returns, with a search text that is not
    empty, reports as [total] the number of units of the fetched page
    that match the text, which is the number of units it returns and is
    at most [pageSize]; without a search text (absent or empty), [total]
    is the exact number of units of the tenant. *)
Theorem getUnits_total env clinicId page pageSize search w r w' :
  getUnits env clinicId page pageSize search w = (Ok r, w') ->
  let from := (page - 1) * pageSize in
  let to := from + pageSize - 1 in
  (forall s, search = Some s -> s <> "" ->
     p_total r
     = Z.of_nat (length (filter (fun j => unit_matches (toLowerCase s) j)
                           (units_page w clinicId from to)))
     /\ p_total r = Z.of_nat (length (p_units r))
     /\ p_total r <= pageSize)
  /\ (search = None \/ search = Some "" ->
      p_total r = units_count w clinicId
      /\ units_count w clinicId
         = Z.of_nat (length (filter (fun j => in_clinic clinicId j)
                               (all_units w)))).
Proof.
  unfold getUnits. run.
  destruct (fault env LuQuery clinicId); [done|].
  destruct (((page - 1) * pageSize <? 0) || _) eqn:Hrange; [done|].
  apply orb_false_iff in Hrange as [_ Hlimit%Z.ltb_ge].
  destruct (map_formatUnit _) as [formatted|] eqn:Hfmt; [|done].
  run. intros [= <- <-]. simpl. split.
  - intros s -> Hs. destruct s as [|c s]; [done|]. simpl in *.
    apply map_formatUnit_length in Hfmt. rewrite Hfmt.
    split_and!; [done..|].
    etrans; [|etrans; [apply (range_length ((page - 1) * pageSize)
                                ((page - 1) * pageSize + pageSize - 1)
                                (order_by String.le
                                   (fun j => date_created (j_row j)) false
                                   (filter (fun j => in_clinic clinicId j)
                                      (all_units w))));
                       exact Hlimit|lia]].
    apply inj_le. unfold units_page.
    apply length_filter.
  - by intros [->| ->].
Qed.

(** On a page of one unit, two units of the tenant match the text and
    [total] is 1. *)
Lemma getUnits_total_witness :
  exists r w',
    getUnits Scenario.env0 "clinic-1" 1 1 (Some "Aspirin") Scenario.two_units
    = (Ok r, w')
    /\ p_total r = Z.of_nat (length (p_units r))
    /\ p_total r <= 1
    /\ p_total r = 1
    /\ length (filter (fun j => unit_matches "aspirin" j)
                 (all_units Scenario.two_units)) = 2%nat
    /\ units_count Scenario.two_units "clinic-1" = 2.
Proof.
  eexists _, _. split; [vm_compute; reflexivity|].
  destruct (getUnits_total Scenario.env0 "clinic-1" 1 1 (Some "Aspirin")
              Scenario.two_units _ _ ltac:(vm_compute; reflexivity))
    as [Hsearch _].
  destruct (Hsearch "Aspirin" eq_refl ltac:(discriminate))
    as (Htotal & Hlen & Hle).
  split; [exact Hlen|]. split; [exact Hle|].
  split; [vm_compute; reflexivity|].
  split; vm_compute; reflexivity.
Defined.

(** ** Advanced filtering *)

(** C8: today is 2025-03-01; the tenant has a unit expired on 2025-01-01
    and one expiring on 2025-06-01.  With the explicit range alone
    (2025-05-01 to 2025-12-31) [getUnitsAdvanced] returns the second unit;
    with the same range and the window [EXPIRED] it returns nothing: the
    window is still applied, in conjunction with the range. *)
Theorem getUnitsAdvanced_window_with_range :
  exists alone both w1 w2,
    getUnitsAdvanced Scenario.env0 "clinic-1" (Scenario.range_filters None)
      1 50 Scenario.two_units = (Ok alone, w1)
    /\ getUnitsAdvanced Scenario.env0 "clinic-1"
         (Scenario.range_filters (Some EXPIRED)) 1 50 Scenario.two_units
       = (Ok both, w2)
    /\ unitId <$> p_units alone = ["unit-2"]
    /\ p_units both = []
    /\ p_total alone = 1 /\ p_total both = 0.
Proof.
  eexists _, _, _, _. split; [vm_compute; reflexivity|].
  split; [vm_compute; reflexivity|]. by split_and!.
Qed.

(** Whatever the explicit range, the units returned satisfy the window. *)
Lemma advanced_server_filter_window env clinicId filters j :
  advanced_server_filter env clinicId filters j = true ->
  window_filter env (f_expirationWindow filters) j = true
  /\ date_range_filter (f_expiryDateFrom filters)
       (f_expiryDateTo filters) j = true.
Proof.
  unfold advanced_server_filter.
  by intros [[_ ?]%andb_true_iff ?]%andb_true_iff.
Qed.

Lemma elem_of_sort_insert {A} (cmp : A -> A -> Z) (x y : A) (l : list A) :
  y ∈ sort_insert cmp x l -> y = x \/ y ∈ l.
Proof.
  induction l as [|z l IH]; simpl.
  - intros ->%list_elem_of_singleton. by left.
  - destruct (0 <? cmp x z).
    + intros [->|Hy]%elem_of_cons; [right; left|].
      destruct (IH Hy) as [->|?]; [by left|right; by right].
    + intros [->|Hy]%elem_of_cons; [by left|by right].
Qed.

Lemma elem_of_array_sort {A} (cmp : A -> A -> Z) (y : A) (l : list A) :
  y ∈ array_sort cmp l -> y ∈ l.
Proof.
  unfold array_sort. induction l as [|x l IH]; simpl; [done|].
  intros [->|Hy]%elem_of_sort_insert; [left|right; by apply IH].
Qed.

Lemma elem_of_range {A} (from to : Z) (y : A) (l : list A) :
  y ∈ range from to l -> y ∈ l.
Proof.
  unfold range. intros Hy. by apply subseteq_take, subseteq_drop in Hy.
Qed.

Lemma map_formatUnit_elem l us u :
  map_formatUnit l = Ok us -> u ∈ us ->
  exists j, j ∈ l /\ j_id j = unitId u /\ j_row j = unitRow u.
Proof.
  revert us. induction l as [|j l IH]; intros us; simpl.
  - intros [= <-] Hu. by apply elem_of_nil in Hu.
  - destruct (formatUnit j) as [u0|] eqn:Hfmt; [|done].
    destruct (map_formatUnit l) as [us'|]; [|done].
    intros [= <-] [->|Hu]%elem_of_cons.
    + exists j. split; [left|]. unfold formatUnit in Hfmt.
      destruct (j_drug j), (j_lot j), (j_user j); try done.
      by injection Hfmt as <-.
    + destruct (IH us' eq_refl Hu) as (j' & ? & ?). exists j'.
      split; [by right|done].
Qed.

(** Every unit [getUnitsAdvanced] returns passed the window of the
    request and its explicit range, both. *)
Lemma getUnitsAdvanced_returns_within_both
    env clinicId filters page pageSize w r w' u :
  getUnitsAdvanced env clinicId filters page pageSize w = (Ok r, w') ->
  u ∈ p_units r ->
  exists j,
    j ∈ all_units w /\ j_id j = unitId u
    /\ window_filter env (f_expirationWindow filters) j = true
    /\ date_range_filter (f_expiryDateFrom filters)
         (f_expiryDateTo filters) j = true.
Proof.
  unfold getUnitsAdvanced. run.
  destruct (fault env AqQuery clinicId); [done|].
  destruct (_ || _); [done|].
  destruct (map_formatUnit _) as [formatted|] eqn:Hfmt; [|done].
  run. intros [= <- <-] Hu. simpl in Hu.
  destruct (map_formatUnit_elem _ _ _ Hfmt Hu) as (j & Hj & Hid & _).
  exists j.
  assert (j ∈ filter (fun j => advanced_server_filter env clinicId filters j)
                (all_units w)) as Hsel.
  { assert (j ∈ filter (fun j => advanced_client_filter filters j)
                  (range ((page - 1) * pageSize)
                     ((page - 1) * pageSize + pageSize - 1)
                     (advanced_server_order
                        (default EXPIRY_DATE (f_sortBy filters))
                        match default ASC (f_sortOrder filters) with
                        | ASC => true | DESC => false
                        end
                        (filter (fun j => advanced_server_filter env clinicId
                                            filters j) (all_units w)))))
      as Hc.
    { unfold advanced_client_sort in Hj.
      destruct (default EXPIRY_DATE (f_sortBy filters));
        try done; by apply elem_of_array_sort in Hj. }
    apply list_elem_of_filter in Hc as [_ Hc]. apply elem_of_range in Hc.
    unfold advanced_server_order, order_by in Hc.
    destruct (default EXPIRY_DATE (f_sortBy filters));
      by rewrite merge_sort_Permutation in Hc. }
  apply list_elem_of_filter in Hsel as [Hf Hin].
  apply Is_true_true in Hf.
  destruct (advanced_server_filter_window _ _ _ _ Hf). by split_and!.
Qed.

(** * Further properties of the operations *)

(** ** The allocator, when it succeeds *)

Lemma fefo_step_records env input userId clinicId j acc w acc' w' :
  fefo_step env input userId clinicId j acc w = (Ok acc', w') ->
  exists name t,
    remainingQuantity acc' = remainingQuantity acc - take_of acc j
    /\ acc_unitsUsed acc'
       = (acc_unitsUsed acc ++ [used_entry j (take_of acc j) name])%list
    /\ acc_transactions acc' = (acc_transactions acc ++ [t])%list
    /\ records userId clinicId t (used_entry j (take_of acc j) name)
    /\ units w' = decrement clinicId j (take_of acc j) (units w)
    /\ transactions w' = (transactions w ++ [t])%list.
Proof.
  unfold fefo_step. run.
  destruct (fault env FefoUpdate (j_id j)) as [e|]; run.
  { rewrite fefo_rollback_run. by run. }
  destruct (fault env FefoInsert (j_id j)) as [e|]; run.
  { rewrite fefo_rollback_run. run.
    by destruct (fault env FefoRbCurrent (j_id j)). }
  destruct (fault env FefoFetch _); run;
    (destruct (j_drug j) as [d|]; run; [|done]);
    intros [= <- <-]; simpl;
    eexists (medication_name d), _; by repeat split.
Qed.

(** The walk, from a state that satisfies its invariant to a successful
    end: it served a prefix [done] of the candidates, one ledger row and
    one [unitsUsed] entry each, and every entry but the last took all the
    unit had. *)
Lemma fefo_loop_success env input userId clinicId m0 us :
  forall acc w acc' w',
    fefo_loop env input userId clinicId us acc w = (Ok acc', w') ->
    walk_inv m0 clinicId (acc_unitsUsed acc) us (units w) ->
    exists done rest used txs,
      us = (done ++ rest)%list
      /\ acc_unitsUsed acc' = (acc_unitsUsed acc ++ used)%list
      /\ acc_transactions acc' = (acc_transactions acc ++ txs)%list
      /\ transactions w' = (transactions w ++ txs)%list
      /\ Forall2 (records userId clinicId) txs used
      /\ Forall2 (fun j u => uu_unitId u = j_id j
                             /\ uu_expiryDate u = expiry j
                             /\ 0 < quantityTaken u
                                  <= available_quantity (j_row j)) done used
      /\ walk_inv m0 clinicId (acc_unitsUsed acc') rest (units w')
      /\ (remainingQuantity acc <= 0 -> used = [])
      /\ (forall init last, used = (init ++ [last])%list ->
            Forall (fun u => exists r0,
                      m0 !! uu_unitId u = Some r0
                      /\ quantityTaken u = available_quantity r0) init).
Proof.
  induction us as [|j us IH]; intros acc w acc' w'; simpl.
  - intros [= <- <-] Hw. exists [], [], [], []. rewrite !app_nil_r.
    split_and!; try done. intros [|??] ?; discriminate.
  - destruct (Z.leb_spec (remainingQuantity acc) 0) as [Hle|Hgt].
    { intros [= <- <-] Hw. exists [], (j :: us), [], []. rewrite !app_nil_r.
      split_and!; try done. intros [|??] ?; discriminate. }
    unfold bind at 1.
    destruct (fefo_step env input userId clinicId j acc w)
      as [[acc1|e] w1] eqn:Hstep; [|done].
    intros Hloop Hw.
    apply fefo_step_records in Hstep
      as (name & t & Hrem & Hused & Htxs & Hrec & Hunits & Hledger).
    destruct (walk_inv_head _ _ _ _ _ _ Hw) as (_ & Hm0 & _ & Hpos & _).
    assert (0 < take_of acc j <= available_quantity (j_row j)) as Htake
      by (unfold take_of; lia).
    eapply IH in Hloop as
      (done & rest & used & txs & -> & Hused' & Htxs' & Hledger' & Hrecs
       & Hdone & Hw' & Hstop & Hgreedy).
    2:{ rewrite Hused, Hunits. apply walk_inv_step; [done|lia]. }
    exists (j :: done), rest,
      (used_entry j (take_of acc j) name :: used), (t :: txs).
    split_and!.
    + done.
    + by rewrite Hused', Hused, <- app_assoc.
    + by rewrite Htxs', Htxs, <- app_assoc.
    + by rewrite Hledger', Hledger, <- app_assoc.
    + by constructor.
    + by constructor.
    + done.
    + lia.
    + intros [|u init] last Heq; [constructor|].
      simpl in Heq. injection Heq as <- Heq.
      constructor; [|by eapply Hgreedy].
      exists (j_row j). split; [done|]. simpl.
      destruct (Z.le_gt_cases (remainingQuantity acc1) 0) as [Hz|Hz].
      * rewrite (Hstop Hz) in Heq. by destruct init.
      * unfold take_of in *. lia.
Qed.

Lemma fefo_ok_inv env input userId clinicId w r w' :
  checkOutMedicationFEFO env input userId clinicId w = (Ok r, w') ->
  exists drugIds acc,
    resolve_drugs env input w = Ok drugIds
    /\ 0 < fq_quantity input
    /\ fefo_loop env input userId clinicId
         (fefo_candidates w clinicId drugIds)
         {| remainingQuantity := fq_quantity input;
            acc_transactions := []; acc_unitsUsed := [] |} w = (Ok acc, w')
    /\ r_transactions r = acc_transactions acc
    /\ unitsUsed r = acc_unitsUsed acc.
Proof.
  unfold checkOutMedicationFEFO.
  destruct (fefo_invalid input); [done|].
  destruct (Z.leb_spec (fq_quantity input) 0) as [|Hq]; [done|].
  unfold bind at 1. run.
  destruct (resolve_drugs env input w) as [drugIds|]; [|done].
  destruct (fault env FefoUnits clinicId); [done|].
  destruct (fefo_candidates w clinicId drugIds) as [|j us] eqn:Hc; [done|].
  destruct (Z.ltb_spec (total_available (j :: us)) (fq_quantity input))
    as [|Htot]; [done|].
  unfold bind.
  destruct (fefo_loop _ _ _ _ _ _ w) as [[acc|e] w1] eqn:Hloop; [|done].
  intros [= <- <-]. simpl. exists drugIds, acc. by rewrite Hc.
Qed.

(** What a successful allocation is made of: a prefix of the candidates
    in expiry order, with the entries and ledger rows of the walk. *)
Lemma fefo_success_walk env input userId clinicId w r w' :
  checkOutMedicationFEFO env input userId clinicId w = (Ok r, w') ->
  exists drugIds done rest,
    resolve_drugs env input w = Ok drugIds
    /\ fefo_candidates w clinicId drugIds = (done ++ rest)%list
    /\ transactions w' = (transactions w ++ r_transactions r)%list
    /\ Forall2 (records userId clinicId) (r_transactions r) (unitsUsed r)
    /\ Forall2 (fun j u => uu_unitId u = j_id j
                           /\ uu_expiryDate u = expiry j
                           /\ 0 < quantityTaken u
                                <= available_quantity (j_row j))
         done (unitsUsed r)
    /\ walk_inv (units w) clinicId (unitsUsed r) rest (units w')
    /\ (forall init last, unitsUsed r = (init ++ [last])%list ->
          Forall (fun u => exists r0,
                    units w !! uu_unitId u = Some r0
                    /\ quantityTaken u = available_quantity r0) init).
Proof.
  intros (drugIds & acc & Hres & Hq & Hloop & Htx & Hused)%fefo_ok_inv.
  eapply (fefo_loop_success _ _ _ _ (units w)) in Hloop as
    (done & rest & used & txs & Hsplit & Hused' & Htxs' & Hledger & Hrecs
     & Hdone & Hw' & _ & Hgreedy).
  2:{ apply walk_inv_init;
        [apply fefo_candidates_of|apply fefo_candidates_NoDup]. }
  simpl in Hused', Htxs'. rewrite Htx, Hused, Htxs', Hused'.
  exists drugIds, done, rest. split_and!; try done.
  by rewrite <- Hused'.
Qed.



(** X2: a successful FEFO checkout appends its [transactions] to the
    ledger, in order and after all the rows that were there; there is one
    row per entry of [unitsUsed], in the same order, and it is a
    [check_out] of that unit for the quantity taken from it, by the
    acting user, in the tenant. *)
Theorem fefo_success_ledger_rows env input userId clinicId w r w' :
  checkOutMedicationFEFO env input userId clinicId w = (Ok r, w') ->
  transactions w' = (transactions w ++ r_transactions r)%list
  /\ Forall2 (records userId clinicId) (r_transactions r) (unitsUsed r).
Proof.
  by intros (drugIds & done & rest & _ & _ & Hledger & Hrecs & _)
    %fefo_success_walk.
Qed.

Lemma fefo_success_ledger_rows_witness :
  exists r w',
    checkOutMedicationFEFO Scenario.env0 (Scenario.by_ndc 40) "user-1"
      "clinic-1" Scenario.two_units = (Ok r, w')
    /\ (fun t => (tx_unit_id t, quantity t)) <$> transactions w'
       = [("unit-1", 30); ("unit-2", 10)]
    /\ transactions w'
       = (transactions Scenario.two_units ++ r_transactions r)%list
    /\ Forall2 (records "user-1" "clinic-1") (r_transactions r) (unitsUsed r).
Proof.
  eexists _, _. split; [vm_compute; reflexivity|].
  split; [reflexivity|].
  eapply (fefo_success_ledger_rows Scenario.env0
            (Scenario.by_ndc 40) "user-1" "clinic-1" Scenario.two_units).
  vm_compute. reflexivity.
Defined.

(** X3: a successful FEFO checkout serves the candidates in the order of
    the query, soonest expiry first, without skipping any: the units it
    used are a prefix of the candidates, every used unit but the last is
    left with nothing available, and the candidates after the last used
    one keep their rows. *)
Theorem fefo_success_exhausts_earlier_units
    env input userId clinicId w r w' :
  checkOutMedicationFEFO env input userId clinicId w = (Ok r, w') ->
  exists drugIds done rest,
    resolve_drugs env input w = Ok drugIds
    /\ fefo_candidates w clinicId drugIds = (done ++ rest)%list
    /\ uu_unitId <$> unitsUsed r = j_id <$> done
    /\ (forall init last, unitsUsed r = (init ++ [last])%list ->
          Forall (fun u => exists r', units w' !! uu_unitId u = Some r'
                                      /\ available_quantity r' = 0) init)
    /\ Forall (fun j => units w' !! j_id j = Some (j_row j)) rest.
Proof.
  intros (drugIds & done & rest & Hres & Hsplit & _ & _ & Hdone & Hw
          & Hgreedy)%fefo_success_walk.
  exists drugIds, done, rest. split_and!; [done|done| | |].
  - clear -Hdone. induction Hdone as [|j u js us Hj _ IH]; [done|].
    csimpl. f_equal; [|done]. by destruct Hj as (? & _).
  - intros init last Heq. specialize (Hgreedy init last Heq).
    apply Forall_forall. intros u Hu.
    destruct (proj1 (Forall_forall _ _) Hgreedy u Hu) as (r0 & Hm0 & Htook).
    assert (u ∈ unitsUsed r) as Hin
      by (rewrite Heq; apply elem_of_app; by left).
    destruct (walk_inv_used_lookup _ _ _ _ _ _ Hw Hin)
      as (r1 & Hm1 & _ & Hm & _).
    rewrite Hm0 in Hm1. injection Hm1 as <-.
    eexists. split; [done|]. simpl. lia.
  - destruct Hw as (Hnd & Hc & _ & Hother).
    apply Forall_forall. intros j Hj.
    destruct (proj1 (Forall_forall _ _) Hc j Hj) as (Hm0 & _).
    rewrite Hother; [done|].
    apply NoDup_app in Hnd as (_ & Hdisj & _). intros Hin.
    apply (Hdisj _ Hin). apply list_elem_of_fmap. eauto.
Qed.

Lemma fefo_success_exhausts_earlier_units_witness :
  exists r w' drugIds done rest,
    checkOutMedicationFEFO Scenario.env0 (Scenario.by_ndc 40) "user-1"
      "clinic-1" Scenario.two_units = (Ok r, w')
    /\ (fun p => available_quantity p.2) <$> map_to_list (units w')
       = [0; 20]
    /\ resolve_drugs Scenario.env0 (Scenario.by_ndc 40) Scenario.two_units
       = Ok drugIds
    /\ fefo_candidates Scenario.two_units "clinic-1" drugIds
       = (done ++ rest)%list
    /\ uu_unitId <$> unitsUsed r = j_id <$> done
    /\ (forall init last, unitsUsed r = (init ++ [last])%list ->
          Forall (fun u => exists r', units w' !! uu_unitId u = Some r'
                                      /\ available_quantity r' = 0) init)
    /\ Forall (fun j => units w' !! j_id j = Some (j_row j)) rest.
Proof.
  edestruct (fefo_success_exhausts_earlier_units Scenario.env0
               (Scenario.by_ndc 40) "user-1" "clinic-1" Scenario.two_units)
    as (drugIds & done & rest & H); [vm_compute; reflexivity|].
  eexists _, _, drugIds, done, rest.
  split; [vm_compute; reflexivity|]. split; [vm_compute; reflexivity|].
  exact H.
Defined.

(** ** What the checkouts write

    Every write of [checkOutUnit], of [checkOutMedicationFEFO] and of its
    compensation sets the available quantity of one unit selected by id
    and tenant; a relation between unit tables that such a write respects
    holds between the table before and after the call, whatever the
    outcome. *)
Section UnitWrites.

Context (clinicId : string) (R : relation (gmap string UnitRow)).
Hypothesis R_refl : forall m, R m m.
Hypothesis R_trans : forall m1 m2 m3, R m1 m2 -> R m2 m3 -> R m1 m3.
Hypothesis R_write :
  forall id a m,
    R m (update_unit_where id clinicId (set_available_quantity a) m).

Lemma rollback_units_writes env used :
  forall m, R m (rollback_units env clinicId used m).
Proof.
  induction used as [|u used IH]; intros m; simpl; [done|].
  destruct (fault env FefoRbRead _); [apply IH|].
  destruct (select_unit_where _ _ _); [|apply IH].
  destruct (fault env FefoRbWrite _); [apply IH|].
  eapply R_trans; [apply R_write|apply IH].
Qed.

Lemma restore_current_writes env j m : R m (restore_current env clinicId j m).
Proof.
  unfold restore_current. by destruct (fault env FefoRbCurrent _).
Qed.

Lemma fefo_step_writes env input userId j acc w :
  R (units w) (units (fefo_step env input userId clinicId j acc w).2).
Proof.
  destruct (fefo_step env input userId clinicId j acc w)
    as [[acc1|msg] w1] eqn:Hstep; simpl.
  - apply fefo_step_ok in Hstep
      as (name & t & _ & _ & _ & _ & _ & _ & _ & _ & -> & _).
    apply R_write.
  - apply fefo_step_throw in Hstep
      as [(e & _ & _ & -> & _)|[(e & _ & _ & _ & -> & _)|(_ & _ & _ & _ & ->)]].
    + apply rollback_units_writes.
    + eapply R_trans; [apply R_write|].
      eapply R_trans; [apply rollback_units_writes|].
      apply restore_current_writes.
    + apply R_write.
Qed.

Lemma fefo_loop_writes env input userId us :
  forall acc w,
    R (units w) (units (fefo_loop env input userId clinicId us acc w).2).
Proof.
  induction us as [|j us IH]; intros acc w; simpl; [done|].
  destruct (remainingQuantity acc <=? 0); [done|].
  unfold bind.
  pose proof (fefo_step_writes env input userId j acc w) as Hstep.
  destruct (fefo_step env input userId clinicId j acc w)
    as [[acc1|msg] w1]; simpl in Hstep; [|done].
  eapply R_trans; [exact Hstep|apply IH].
Qed.

Lemma fefo_writes env input userId w :
  R (units w) (units (checkOutMedicationFEFO env input userId clinicId w).2).
Proof.
  unfold checkOutMedicationFEFO.
  destruct (fefo_invalid input); [done|].
  destruct (fq_quantity input <=? 0); [done|].
  unfold bind at 1. run.
  destruct (resolve_drugs env input w) as [drugIds|]; [|done].
  destruct (fault env FefoUnits clinicId); [done|].
  destruct (fefo_candidates w clinicId drugIds) as [|j us]; [done|].
  destruct (_ <? _); [done|].
  pose proof (fefo_loop_writes env input userId (j :: us)
                {| remainingQuantity := fq_quantity input;
                   acc_transactions := []; acc_unitsUsed := [] |} w) as Ht.
  unfold bind. by destruct (fefo_loop _ _ _ _ _ _ w) as [[acc|e] w1].
Qed.

Lemma checkOutUnit_writes env input userId w :
  R (units w) (units (checkOutUnit env input userId clinicId w).2).
Proof.
  unfold checkOutUnit. run.
  destruct (fault env CoRead _); [done|].
  destruct (select_unit_where _ _ _) as [unit|]; [|done].
  destruct (_ <? _); [done|].
  run. destruct (fault env CoUpdate _); run; [done|].
  destruct (fault env CoInsert _); run.
  - destruct (fault env CoRollback _); run; [apply R_write|].
    eapply R_trans; apply R_write.
  - destruct (fault env CoFetch _); run; apply R_write.
Qed.

End UnitWrites.

Lemma other_tenants_untouched_refl clinicId m :
  other_tenants_untouched clinicId m m.
Proof. by intros id r. Qed.

Lemma other_tenants_untouched_trans clinicId m1 m2 m3 :
  other_tenants_untouched clinicId m1 m2 ->
  other_tenants_untouched clinicId m2 m3 ->
  other_tenants_untouched clinicId m1 m3.
Proof. intros H12 H23 id r Hr Hne. apply H23; [|done]. by apply H12. Qed.

Lemma other_tenants_untouched_write clinicId id f m :
  other_tenants_untouched clinicId m (update_unit_where id clinicId f m).
Proof.
  intros id' r Hr Hne. unfold update_unit_where.
  destruct (m !! id) as [r0|] eqn:Hid; [|done].
  destruct (decide _) as [Hc|]; [|done].
  rewrite lookup_insert_ne; [done|]. intros ->. congruence.
Qed.

Lemma keeps_units_refl m : keeps_units m m.
Proof. intros id r Hr. by exists r. Qed.

Lemma keeps_units_trans m1 m2 m3 :
  keeps_units m1 m2 -> keeps_units m2 m3 -> keeps_units m1 m3.
Proof.
  intros H12 H23 id r Hr.
  destruct (H12 id r Hr) as (r2 & Hr2 & Hl & Hd & Hc).
  destruct (H23 id r2 Hr2) as (r3 & Hr3 & Hl' & Hd' & Hc').
  exists r3. split; [done|]. by rewrite Hl', Hd', Hc'.
Qed.

Lemma keeps_units_write clinicId id a m :
  keeps_units m (update_unit_where id clinicId (set_available_quantity a) m).
Proof.
  intros id' r Hr. unfold update_unit_where.
  destruct (m !! id) as [r0|] eqn:Hid; [|by exists r].
  destruct (decide _) as [Hc|]; [|by exists r].
  destruct (decide (id = id')) as [<-|Hne].
  - rewrite lookup_insert_eq. rewrite Hid in Hr. injection Hr as <-.
    by eexists.
  - rewrite lookup_insert_ne by done. by exists r.
Qed.

Lemma keeps_units_insert id (r : UnitRow) m :
  (forall r0, m !! id = Some r0 ->
     lot_id r = lot_id r0 /\ drug_id r = drug_id r0
     /\ clinic_id r = clinic_id r0) ->
  keeps_units m (<[id := r]> m).
Proof.
  intros Hsame id' r' Hr'.
  destruct (decide (id = id')) as [<-|Hne].
  - rewrite lookup_insert_eq. exists r. split; [done|]. by apply Hsame.
  - rewrite lookup_insert_ne by done. by exists r'.
Qed.

Lemma apply_unit_updates_keeps updates r :
  lot_id (apply_unit_updates updates r) = lot_id r
  /\ drug_id (apply_unit_updates updates r) = drug_id r
  /\ clinic_id (apply_unit_updates updates r) = clinic_id r.
Proof.
  unfold apply_unit_updates, apply_opt.
  by destruct (up_optionalNotes updates), (up_expiryDate updates),
    (up_availableQuantity updates), (up_totalQuantity updates).
Qed.

(** X4: none of the four operations that write units touches a unit of
    another tenant: whatever the outcome of the call and whatever the
    store does in between, a unit whose tenant is not the caller's has
    afterwards the row it had before ([createUnit]: the catalogue lookup
    standing by its contract of not writing units). *)
Theorem operations_leave_other_tenants env :
  (forall d w, units (getOrCreateDrug env d w).2 = units w) ->
  (forall input userId clinicId w,
      other_tenants_untouched clinicId (units w)
        (units (createUnit env input userId clinicId w).2))
  /\ (forall unitId updates clinicId w,
         other_tenants_untouched clinicId (units w)
           (units (updateUnit env unitId updates clinicId w).2))
  /\ (forall input userId clinicId w,
         other_tenants_untouched clinicId (units w)
           (units (checkOutUnit env input userId clinicId w).2))
  /\ (forall input userId clinicId w,
         other_tenants_untouched clinicId (units w)
           (units (checkOutMedicationFEFO env input userId clinicId w).2)).
Proof.
  intros Hcat. split_and!.
  - intros input userId clinicId w id r Hr _.
    by apply createUnit_keeps_units.
  - intros unitId updates clinicId w id r Hr Hne.
    destruct (updateUnit_units env unitId updates clinicId w)
      as [->|(r0 & Hr0 & Hc & ->)]; [done|].
    rewrite lookup_insert_ne; [done|]. intros ->. congruence.
  - intros input userId clinicId w.
    apply checkOutUnit_writes;
      eauto using other_tenants_untouched_refl,
        other_tenants_untouched_trans, other_tenants_untouched_write.
  - intros input userId clinicId w.
    apply fefo_writes;
      eauto using other_tenants_untouched_refl,
        other_tenants_untouched_trans, other_tenants_untouched_write.
Qed.

Lemma operations_leave_other_tenants_witness :
  let theirs := Some Ward.foreign_stock in
  units (createUnit Scenario.env0 (Scenario.check_in_of 50) "user-1"
           "clinic-1" Ward.two_tenants).2 !! "unit-9" = theirs
  /\ units (updateUnit Scenario.env0 "unit-9"
              {| up_totalQuantity := None; up_availableQuantity := Some 0;
                 up_expiryDate := None; up_optionalNotes := None |}
              "clinic-1" Ward.two_tenants).2 !! "unit-9" = theirs
  /\ units (checkOutUnit Scenario.env0 (Scenario.take_from "unit-9" 5)
              "user-1" "clinic-1" Ward.two_tenants).2 !! "unit-9" = theirs
  /\ units (checkOutMedicationFEFO Scenario.env0 (Scenario.by_ndc 60)
              "user-1" "clinic-1" Ward.two_tenants).2 !! "unit-9" = theirs.
Proof.
  destruct (operations_leave_other_tenants Scenario.env0)
    as (Hcreate & Hupdate & Hout & Hfefo); [intros d w; reflexivity|].
  split_and!.
  - apply Hcreate; [vm_compute; reflexivity|discriminate].
  - apply Hupdate; [vm_compute; reflexivity|discriminate].
  - apply Hout; [vm_compute; reflexivity|discriminate].
  - apply Hfefo; [vm_compute; reflexivity|discriminate].
Defined.

(** X5: none of the four operations deletes a unit or files it elsewhere:
    whatever the outcome of the call, every unit that was in the store is
    still there under its id, in the same lot, of the same drug and of
    the same tenant. *)
Theorem operations_keep_units env :
  (forall d w, units (getOrCreateDrug env d w).2 = units w) ->
  (forall input userId clinicId w,
      keeps_units (units w)
        (units (createUnit env input userId clinicId w).2))
  /\ (forall unitId updates clinicId w,
         keeps_units (units w)
           (units (updateUnit env unitId updates clinicId w).2))
  /\ (forall input userId clinicId w,
         keeps_units (units w)
           (units (checkOutUnit env input userId clinicId w).2))
  /\ (forall input userId clinicId w,
         keeps_units (units w)
           (units (checkOutMedicationFEFO env input userId clinicId w).2)).
Proof.
  intros Hcat. split_and!.
  - intros input userId clinicId w id r Hr. exists r.
    split; [by apply createUnit_keeps_units|done].
  - intros unitId updates clinicId w.
    destruct (updateUnit_units env unitId updates clinicId w)
      as [->|(r0 & Hr0 & Hc & ->)]; [apply keeps_units_refl|].
    apply keeps_units_insert. intros r1 Hr1.
    rewrite Hr0 in Hr1. injection Hr1 as <-.
    apply apply_unit_updates_keeps.
  - intros input userId clinicId w.
    apply checkOutUnit_writes;
      eauto using keeps_units_refl, keeps_units_trans, keeps_units_write.
  - intros input userId clinicId w.
    apply fefo_writes;
      eauto using keeps_units_refl, keeps_units_trans, keeps_units_write.
Qed.

Lemma operations_keep_units_witness :
  keeps_units (units Scenario.one_unit)
    (units (createUnit Scenario.env0 (Scenario.check_in_of 50) "user-1"
              "clinic-1" Scenario.one_unit).2)
  /\ keeps_units (units Scenario.one_unit)
       (units (updateUnit Scenario.env0 "unit-1"
                 {| up_totalQuantity := Some 0; up_availableQuantity := Some 0;
                    up_expiryDate := None; up_optionalNotes := None |}
                 "clinic-1" Scenario.one_unit).2)
  /\ keeps_units (units Scenario.one_unit)
       (units (checkOutUnit Scenario.env0 (Scenario.take_from "unit-1" 10)
                 "user-1" "clinic-1" Scenario.one_unit).2)
  /\ keeps_units (units Scenario.two_units)
       (units (checkOutMedicationFEFO Scenario.env0 (Scenario.by_ndc 60)
                 "user-1" "clinic-1" Scenario.two_units).2).
Proof.
  destruct (operations_keep_units Scenario.env0)
    as (Hcreate & Hupdate & Hout & Hfefo); [intros d w; reflexivity|].
  split_and!; [apply Hcreate|apply Hupdate|apply Hout|apply Hfefo].
Defined.

(** ** The ledger only grows *)

Lemma fefo_step_ledger env input userId clinicId j acc w :
  exists added,
    transactions (fefo_step env input userId clinicId j acc w).2
    = (transactions w ++ added)%list
    /\ Forall (ledger_row_of check_out (j_id j) userId clinicId) added.
Proof.
  unfold fefo_step. run.
  destruct (fault env FefoUpdate (j_id j)) as [e|]; run.
  { rewrite fefo_rollback_run. run. exists []. by rewrite app_nil_r. }
  destruct (fault env FefoInsert (j_id j)) as [e|]; run.
  { rewrite fefo_rollback_run. run.
    destruct (fault env FefoRbCurrent (j_id j)); run;
      exists []; by rewrite app_nil_r. }
  eexists [_].
  split; [destruct (fault env FefoFetch _); run; by destruct (j_drug j)|].
  by apply Forall_singleton.
Qed.

Lemma fefo_loop_ledger env input userId clinicId us :
  forall acc w,
    exists added,
      transactions (fefo_loop env input userId clinicId us acc w).2
      = (transactions w ++ added)%list
      /\ Forall (fun t => exists unitId,
                   ledger_row_of check_out unitId userId clinicId t) added.
Proof.
  induction us as [|j us IH]; intros acc w; simpl.
  { exists []. by rewrite app_nil_r. }
  destruct (remainingQuantity acc <=? 0).
  { exists []. by rewrite app_nil_r. }
  unfold bind.
  destruct (fefo_step_ledger env input userId clinicId j acc w)
    as (added & Hadd & Hrows).
  assert (Forall (fun t => exists unitId,
                    ledger_row_of check_out unitId userId clinicId t) added)
    as Hrows' by (eapply Forall_impl; [exact Hrows|]; eauto).
  destruct (fefo_step env input userId clinicId j acc w)
    as [[acc1|msg] w1]; simpl in Hadd; [|by exists added].
  destruct (IH acc1 w1) as (more & Hmore & Hrows2).
  exists (added ++ more)%list. rewrite Hmore, Hadd, app_assoc.
  split; [done|]. by apply Forall_app.
Qed.

Lemma fefo_ledger env input userId clinicId w :
  exists added,
    transactions (checkOutMedicationFEFO env input userId clinicId w).2
    = (transactions w ++ added)%list
    /\ Forall (fun t => exists unitId,
                 ledger_row_of check_out unitId userId clinicId t) added.
Proof.
  assert (exists added : list TxRow,
            transactions w = (transactions w ++ added)%list
            /\ Forall (fun t => exists unitId,
                 ledger_row_of check_out unitId userId clinicId t) added)
    as Hsame by (exists []; by rewrite app_nil_r).
  unfold checkOutMedicationFEFO.
  destruct (fefo_invalid input); [done|].
  destruct (fq_quantity input <=? 0); [done|].
  unfold bind at 1. run.
  destruct (resolve_drugs env input w) as [drugIds|]; [|done].
  destruct (fault env FefoUnits clinicId); [done|].
  destruct (fefo_candidates w clinicId drugIds) as [|j us]; [done|].
  destruct (_ <? _); [done|].
  pose proof (fefo_loop_ledger env input userId clinicId (j :: us)
                {| remainingQuantity := fq_quantity input;
                   acc_transactions := []; acc_unitsUsed := [] |} w) as Ht.
  unfold bind. by destruct (fefo_loop _ _ _ _ _ _ w) as [[acc|e] w1].
Qed.

Lemma checkOutUnit_ledger env input userId clinicId w :
  exists added,
    transactions (checkOutUnit env input userId clinicId w).2
    = (transactions w ++ added)%list
    /\ (length added <= 1)%nat
    /\ Forall (fun t => ledger_row_of check_out (co_unitId input) userId
                          clinicId t
                        /\ quantity t = co_quantity input) added.
Proof.
  assert (exists added : list TxRow,
            transactions w = (transactions w ++ added)%list
            /\ (length added <= 1)%nat
            /\ Forall (fun t => ledger_row_of check_out (co_unitId input)
                                  userId clinicId t
                                /\ quantity t = co_quantity input) added)
    as Hsame by (exists []; rewrite app_nil_r; split_and!; [done|simpl; lia|done]).
  unfold checkOutUnit. run.
  destruct (fault env CoRead _); [done|].
  destruct (select_unit_where _ _ _) as [unit|]; [|done].
  destruct (_ <? _); [done|].
  run. destruct (fault env CoUpdate _); run; [done|].
  destruct (fault env CoInsert _); run.
  - by destruct (fault env CoRollback _); run.
  - eexists [_].
    split; [by destruct (fault env CoFetch _); run|].
    split; [simpl; lia|]. by apply Forall_singleton.
Qed.

Lemma createUnit_for_ledger env input drugId userId clinicId w :
  exists added,
    transactions (createUnit_for env input drugId userId clinicId w).2
    = (transactions w ++ added)%list
    /\ (length added <= 1)%nat
    /\ Forall (fun t => ledger_row_of check_in (fresh_unit_id env) userId
                          clinicId t
                        /\ quantity t = cu_totalQuantity input) added.
Proof.
  assert (exists added : list TxRow,
            transactions w = (transactions w ++ added)%list
            /\ (length added <= 1)%nat
            /\ Forall (fun t => ledger_row_of check_in (fresh_unit_id env)
                                  userId clinicId t
                                /\ quantity t = cu_totalQuantity input) added)
    as Hsame by (exists []; rewrite app_nil_r; split_and!; [done|simpl; lia|done]).
  unfold createUnit_for.
  destruct drugId as [[|c s]|]; [done| |done]. run.
  destruct (getLotById _ _ _) as [lot|]; [|done].
  destruct (max_capacity lot) as [m|]; run.
  1: destruct (m <? _); run; [done|].
  all: unfold insert_unit; run.
  all: destruct (fault env CuInsert _); run; [done|].
  all: destruct (units w !! fresh_unit_id env); run; [done|].
  all: destruct (fault env CuQrCode _); run;
         (destruct (fault env CuTxInsert _); run; [exists []|eexists [_]]);
         (split;
          [rewrite ?app_nil_r;
           (destruct (fault env CuFetch _); run; [done|]);
           rewrite ?lookup_alter_eq, ?lookup_insert_eq; run;
           by destruct (formatUnit _)
          |split; [simpl; lia|first [done|by apply Forall_singleton]]]).
Qed.

(** X6: the operations on units only add to the ledger.  Whatever the
    outcome of the call and whatever the store does in between, the rows
    that were in the ledger are still there, unchanged and in the same
    order, followed by the rows of the call: at most one [check_in] row
    of the new unit for [createUnit] (the catalogue lookup standing by
    its contract of not writing the ledger), none for [updateUnit], at
    most one [check_out] row of the unit and quantity asked for
    [checkOutUnit], and [check_out] rows of the acting user in the tenant
    for [checkOutMedicationFEFO]. *)
Theorem operations_append_to_ledger env :
  (forall d w, transactions (getOrCreateDrug env d w).2 = transactions w) ->
  (forall input userId clinicId w,
      exists added,
        transactions (createUnit env input userId clinicId w).2
        = (transactions w ++ added)%list
        /\ (length added <= 1)%nat
        /\ Forall (fun t => ledger_row_of check_in (fresh_unit_id env) userId
                              clinicId t
                            /\ quantity t = cu_totalQuantity input) added)
  /\ (forall unitId updates clinicId w,
         transactions (updateUnit env unitId updates clinicId w).2
         = transactions w)
  /\ (forall input userId clinicId w,
         exists added,
           transactions (checkOutUnit env input userId clinicId w).2
           = (transactions w ++ added)%list
           /\ (length added <= 1)%nat
           /\ Forall (fun t => ledger_row_of check_out (co_unitId input)
                                 userId clinicId t
                               /\ quantity t = co_quantity input) added)
  /\ (forall input userId clinicId w,
         exists added,
           transactions
             (checkOutMedicationFEFO env input userId clinicId w).2
           = (transactions w ++ added)%list
           /\ Forall (fun t => exists unitId,
                        ledger_row_of check_out unitId userId clinicId t)
                added).
Proof.
  intros Hcat. split_and!.
  - intros input userId clinicId w. rewrite createUnit_unfold.
    assert (transactions (resolve_unit_drug env input (entering w)).2
            = transactions w) as Hres.
    { unfold resolve_unit_drug.
      destruct (cu_drugData input) as [data|]; [|done].
      destruct (truthy_str (cu_drugId input)); [done|].
      unfold bind. specialize (Hcat data (entering w)).
      by destruct (getOrCreateDrug env data (entering w)) as [[d|e] w1]. }
    destruct (resolve_unit_drug env input (entering w)) as [[d|e] w1];
      simpl in Hres.
    + rewrite <- Hres. apply createUnit_for_ledger.
    + exists []. rewrite app_nil_r. split_and!; [done|simpl; lia|done].
  - intros unitId updates clinicId w. unfold updateUnit. run.
    destruct (fault env UuUpdate unitId); [done|].
    destruct (select_unit_where _ _ _) as [r|] eqn:Hsel; [|done].
    apply select_unit_where_Some in Hsel as [Hr Hc]. run.
    unfold update_unit_where. rewrite Hr, decide_True by done.
    rewrite lookup_insert_eq. by destruct (formatUnit _).
  - intros. apply checkOutUnit_ledger.
  - intros. apply fefo_ledger.
Qed.

Lemma operations_append_to_ledger_witness :
  (exists added,
     transactions (createUnit Scenario.env0 (Scenario.check_in_of 50)
                     "user-1" "clinic-1" Scenario.one_unit).2
     = (transactions Scenario.one_unit ++ added)%list
     /\ (length added <= 1)%nat)
  /\ transactions (updateUnit Scenario.env0 "unit-1"
                     {| up_totalQuantity := Some 12;
                        up_availableQuantity := None;
                        up_expiryDate := None; up_optionalNotes := None |}
                     "clinic-1" Scenario.one_unit).2
     = transactions Scenario.one_unit
  /\ (exists added,
        transactions (checkOutUnit Scenario.env0
                        (Scenario.take_from "unit-1" 4) "user-1" "clinic-1"
                        Scenario.one_unit).2
        = (transactions Scenario.one_unit ++ added)%list
        /\ (length added <= 1)%nat)
  /\ (exists added,
        transactions (checkOutMedicationFEFO Scenario.env0
                        (Scenario.by_ndc 40) "user-1" "clinic-1"
                        Scenario.two_units).2
        = (transactions Scenario.two_units ++ added)%list).
Proof.
  destruct (operations_append_to_ledger Scenario.env0)
    as (Hcreate & Hupdate & Hout & Hfefo); [intros d w; reflexivity|].
  split_and!.
  - destruct (Hcreate (Scenario.check_in_of 50) "user-1" "clinic-1"
                Scenario.one_unit) as (added & Hadd & Hlen & _).
    exists added. split; [exact Hadd|exact Hlen].
  - apply Hupdate.
  - destruct (Hout (Scenario.take_from "unit-1" 4) "user-1" "clinic-1"
                Scenario.one_unit) as (added & Hadd & Hlen & _).
    exists added. split; [exact Hadd|exact Hlen].
  - destruct (Hfefo (Scenario.by_ndc 40) "user-1" "clinic-1"
                Scenario.two_units) as (added & Hadd & _).
    exists added. exact Hadd.
Defined.

(** ** Failures of the allocator *)

(** X7: the candidates are [pre ++ bad :: post], the request needs more
    than [pre] holds, and the only error the store reports is on the
    update of [bad].  The call throws the update failure with the store's
    message and the units table ends exactly as it began, the
    compensation having given back to the units of [pre] what was taken;
    the ledger keeps the [check_out] rows written for [pre], one per unit
    and for all the unit had. *)
Theorem fefo_update_failure_keeps_ledger_rows
    env input userId clinicId w drugIds pre bad post e :
  fefo_invalid input = false ->
  resolve_drugs env input w = Ok drugIds ->
  fefo_candidates w clinicId drugIds = (pre ++ bad :: post)%list ->
  only_fault env FefoUpdate (j_id bad) e ->
  total_available pre < fq_quantity input
    <= total_available (pre ++ bad :: post) ->
  exists w' txs,
    checkOutMedicationFEFO env input userId clinicId w
    = (Throw ("Failed to update unit: " ++ e), w')
    /\ units w' = units w
    /\ transactions w' = (transactions w ++ txs)%list
    /\ quantity <$> txs = (fun j => available_quantity (j_row j)) <$> pre
    /\ tx_unit_id <$> txs = j_id <$> pre.
Proof.
  intros Hvalid Hdrugs Hcands Hfault Htot.
  pose proof (fefo_candidates_NoDup w clinicId drugIds) as Hnd.
  rewrite Hcands in Hnd.
  destruct (fefo_walk_reaches env input userId clinicId w drugIds
              pre bad post Hvalid Hdrugs)
    as (acc1 & w1 & txs & Hw1 & Hrem & Htx & Hq & Hid & Hthrow & _);
    [by eapply only_fault_elsewhere|done| |done|].
  { pose proof (only_fault_before _ _ _ _ _ _ Hfault Hnd) as Hpre.
    eapply Forall_impl; [exact Hpre|]. intros j Hj. split; [done|].
    by eapply only_fault_elsewhere. }
  destruct (fefo_step env input userId clinicId bad acc1 w1)
    as [[acc2|msg] w2] eqn:Hstep.
  { apply fefo_step_ok in Hstep as (_ & _ & Hu & _).
    by rewrite (only_fault_here _ _ _ _ Hfault) in Hu. }
  exists w2, txs. specialize (Hthrow _ _ eq_refl).
  apply fefo_step_throw in Hstep
    as [(e' & Hu & -> & Hunits & Htx2)|[(_ & Hu & _)|(Hu & _)]];
    rewrite (only_fault_here _ _ _ _ Hfault) in Hu; [|done..].
  injection Hu as <-. split_and!; [done| |congruence|done..].
  rewrite Hunits.
  apply (walk_inv_rollback_restores env (units w) clinicId _ (bad :: post));
    [intros k; by eapply only_fault_elsewhere..|done].
Qed.

Lemma fefo_update_failure_keeps_ledger_rows_witness :
  let env := Scenario.env_with
               (Scenario.fault_at FefoUpdate "unit-2" "write refused") in
  exists w' t,
    checkOutMedicationFEFO env (Scenario.by_ndc 40) "user-1" "clinic-1"
      Scenario.two_units
    = (Throw "Failed to update unit: write refused", w')
    /\ units w' = units Scenario.two_units
    /\ transactions w' = [t]
    /\ quantity t = 30 /\ tx_unit_id t = "unit-1".
Proof.
  intros env.
  destruct (fefo_update_failure_keeps_ledger_rows env (Scenario.by_ndc 40)
              "user-1" "clinic-1" Scenario.two_units ["drug-1"]
              [join Scenario.two_units "unit-1"
                 (Scenario.stock 30 30 "2025-01-01" "2024-12-02")]
              (join Scenario.two_units "unit-2"
                 (Scenario.stock 30 30 "2025-06-01" "2024-12-03"))
              [] "write refused")
    as (w' & txs & Hrun & Hunits & Htx & Hq & Hid).
  - vm_compute; reflexivity.
  - vm_compute; reflexivity.
  - vm_compute; reflexivity.
  - intros s k. reflexivity.
  - split; vm_compute; congruence.
  - destruct txs as [|t [|t' txs]]; try discriminate Hq.
    exists w', t. split; [exact Hrun|]. split; [exact Hunits|].
    split; [exact Htx|]. split; [by injection Hq|by injection Hid].
Defined.

Lemma fefo_loop_answers env input userId clinicId us :
  Forall (fun j => fault env FefoUpdate (j_id j) = None
                   /\ fault env FefoInsert (j_id j) = None
                   /\ is_Some (j_drug j)) us ->
  forall acc w,
    exists acc' w',
      fefo_loop env input userId clinicId us acc w = (Ok acc', w').
Proof.
  induction 1 as [|j us (Hu & Hi & Hj) _ IH]; intros acc w; simpl.
  - by eexists _, _.
  - destruct (remainingQuantity acc <=? 0); [by eexists _, _|].
    destruct (fefo_step_success env input userId clinicId j acc w Hu Hi Hj)
      as (acc1 & w1 & Hstep).
    unfold bind. rewrite Hstep. apply IH.
Qed.

(** X8: when the store accepts the updates of units and the inserts into
    the ledger, a FEFO checkout that throws has written nothing: the
    request is refused (malformed, no positive quantity, no such drug,
    no unit, not enough stock, or the query failed) before the first
    write, and the store, console included, is as it was. *)
Theorem fefo_rejection_leaves_store env input userId clinicId w e w' :
  (forall k, fault env FefoUpdate k = None) ->
  (forall k, fault env FefoInsert k = None) ->
  checkOutMedicationFEFO env input userId clinicId w = (Throw e, w') ->
  w' = w.
Proof.
  intros Hu Hi. unfold checkOutMedicationFEFO.
  destruct (fefo_invalid input); [by intros [= _ <-]|].
  destruct (fq_quantity input <=? 0); [by intros [= _ <-]|].
  unfold bind at 1. run.
  destruct (resolve_drugs env input w) as [drugIds|] eqn:Hdrugs;
    [|by intros [= _ <-]].
  destruct (fault env FefoUnits clinicId); [by intros [= _ <-]|].
  pose proof (fefo_candidates_drug _ _ _ clinicId _ Hdrugs) as Hdrug.
  destruct (fefo_candidates w clinicId drugIds) as [|j us];
    [by intros [= _ <-]|].
  destruct (_ <? _); [by intros [= _ <-]|].
  destruct (fefo_loop_answers env input userId clinicId (j :: us)) with
    (acc := {| remainingQuantity := fq_quantity input;
               acc_transactions := []; acc_unitsUsed := [] |}) (w := w)
    as (acc & w1 & Hloop).
  { eapply Forall_impl; [exact Hdrug|]. by intros x Hx. }
  unfold bind. by rewrite Hloop.
Qed.

Lemma fefo_rejection_leaves_store_witness :
  (checkOutMedicationFEFO Scenario.env0 (Scenario.by_ndc 100) "user-1"
     "clinic-1" Scenario.two_units).1
  = Throw "Insufficient quantity. Available: 60, Requested: 100"
  /\ (checkOutMedicationFEFO Scenario.env0 (Scenario.by_ndc 100) "user-1"
        "clinic-1" Scenario.two_units).2 = Scenario.two_units.
Proof.
  split; [vm_compute; reflexivity|].
  apply (fefo_rejection_leaves_store Scenario.env0 (Scenario.by_ndc 100)
           "user-1" "clinic-1" Scenario.two_units
           "Insufficient quantity. Available: 60, Requested: 100");
    [intros k; reflexivity|intros k; reflexivity|vm_compute; reflexivity].
Defined.

(** ** Checking out of one unit: refusals and failures *)

(** X9: a [checkOutUnit] that throws leaves the ledger as it was, and
    leaves the units as they were unless the update was made and the
    write that undoes it was refused; a unit that is missing, or that
    belongs to another tenant, gives [Unit not found], and a quantity
    above what the unit holds gives the insufficient-quantity message,
    both without any write. *)
Theorem checkOutUnit_failure_leaves_store
    env input userId clinicId w e w' :
  checkOutUnit env input userId clinicId w = (Throw e, w') ->
  transactions w' = transactions w
  /\ (fault env CoRollback (co_unitId input) = None -> units w' = units w)
  /\ (select_unit_where (co_unitId input) clinicId (units w) = None ->
      e = "Unit not found" /\ w' = w)
  /\ (forall unit,
        fault env CoRead (co_unitId input) = None ->
        select_unit_where (co_unitId input) clinicId (units w) = Some unit ->
        available_quantity unit < co_quantity input ->
        e = insufficient_message (available_quantity unit) (co_quantity input)
        /\ w' = w).
Proof.
  unfold checkOutUnit. run.
  destruct (fault env CoRead _) as [e0|].
  { intros [= <- <-]. split_and!; [done..|]. intros unit [=]. }
  destruct (select_unit_where _ _ _) as [unit|] eqn:Hsel.
  2:{ intros [= <- <-]. split_and!; [done..|]. intros unit _ [=]. }
  apply select_unit_where_Some in Hsel as [Hunit Hclinic].
  destruct (Z.ltb_spec (available_quantity unit) (co_quantity input)).
  { intros [= <- <-]. split_and!; [done..|]. by intros ? _ [= <-] _. }
  run. destruct (fault env CoUpdate _); run.
  { intros [= <- <-]. split_and!; [done..|].
    intros ? _ [= <-] ?. lia. }
  destruct (fault env CoInsert _); run.
  - destruct (fault env CoRollback _); run; intros [= <- <-]; simpl.
    + split_and!; [done..|]. intros ? _ [= <-] ?. lia.
    + split_and!; [done| |done|intros ? _ [= <-] ?; lia].
      intros _. unfold update_unit_where at 2. rewrite Hunit.
      rewrite decide_True by done.
      unfold update_unit_where. rewrite lookup_insert_eq. simpl.
      rewrite decide_True by done.
      rewrite insert_insert_eq, set_available_quantity_twice,
        set_available_quantity_same.
      by apply insert_id.
  - by destruct (fault env CoFetch _).
Qed.

Lemma checkOutUnit_failure_leaves_store_witness :
  let run := checkOutUnit Scenario.env0 (Scenario.take_from "unit-9" 1)
               "user-1" "clinic-1" Ward.two_tenants in
  units Ward.two_tenants !! "unit-9" = Some Ward.foreign_stock
  /\ run.1 = Throw "Unit not found"
  /\ transactions run.2 = transactions Ward.two_tenants
  /\ units run.2 = units Ward.two_tenants
  /\ run.2 = Ward.two_tenants.
Proof.
  intros run.
  destruct (checkOutUnit_failure_leaves_store Scenario.env0
              (Scenario.take_from "unit-9" 1) "user-1" "clinic-1"
              Ward.two_tenants "Unit not found" run.2)
    as (Hledger & Hunits & Hmissing & _); [vm_compute; reflexivity|].
  split; [vm_compute; reflexivity|]. split; [vm_compute; reflexivity|].
  split; [exact Hledger|]. split; [apply Hunits; reflexivity|].
  apply Hmissing. vm_compute; reflexivity.
Defined.



(** ** Creating, updating and reading back one unit *)

Lemma formatUnit_Ok j u :
  formatUnit j = Ok u ->
  unitId u = j_id j /\ unitRow u = j_row j /\ j_drug j = Some (drug u)
  /\ j_lot j = Some (lot u) /\ j_user j = Some (user u).
Proof.
  unfold formatUnit.
  destruct (j_drug j), (j_lot j), (j_user j); try done.
  by intros [= <-].
Qed.

Lemma getUnitById_reads env unitId clinicId w r u :
  fault env GuFetch unitId = None ->
  units w !! unitId = Some r -> clinic_id r = clinicId ->
  formatUnit (join w unitId r) = Ok u ->
  getUnitById env unitId clinicId w = (Ok (Some u), w).
Proof.
  intros Hfault Hr Hc Hu. unfold getUnitById. run.
  by rewrite Hfault, (select_unit_where_eq _ _ _ _ Hr Hc), Hu.
Qed.

Lemma createUnit_for_formatted env input drugId userId clinicId w u w' :
  createUnit_for env input drugId userId clinicId w
  = (Ok (FormattedUnit u), w') ->
  exists r,
    units w' !! unitId u = Some r
    /\ formatUnit (join w' (unitId u) r) = Ok u
    /\ unitId u = fresh_unit_id env
    /\ units w !! unitId u = None
    /\ r = set_qr_code
             (match fault env CuQrCode (fresh_unit_id env) with
              | None => Some (fresh_unit_id env)
              | Some _ => None
              end)
             (new_unit_row env input (default "" drugId) userId clinicId).
Proof.
  unfold createUnit_for.
  destruct drugId as [[|c s]|]; [done| |done]. run.
  destruct (getLotById _ _ _) as [lot|]; [|done].
  destruct (max_capacity lot) as [m|]; run.
  1: destruct (m <? _); run; [done|].
  all: unfold insert_unit; run.
  all: destruct (fault env CuInsert _); run; [done|].
  all: destruct (units w !! fresh_unit_id env) eqn:Hfresh; run; [done|].
  all: destruct (fault env CuQrCode _); run;
         (destruct (fault env CuTxInsert _); run);
         (destruct (fault env CuFetch _); run; [done|]);
         rewrite ?lookup_alter_eq, ?lookup_insert_eq; run;
         (destruct (formatUnit _) as [u0|] eqn:Hu; [|done]);
         intros [= <- <-];
         pose proof (formatUnit_Ok _ _ Hu) as (Hid & _); simpl in Hid;
         rewrite Hid; simpl;
         rewrite ?lookup_alter_eq, ?lookup_insert_eq; simpl;
         eexists; (split; [reflexivity|]); (split; [exact Hu|]);
         (split; [done|]); (split; [done|]); done.
Qed.

(** X11: the unit [createUnit] returns, formatted, is the row it
    inserted: a unit of the tenant, in the lot and with the quantities
    and expiry date of the request, whose QR code is its own id when the
    store accepted the QR update and is missing otherwise; and
    [getUnitById] reads back exactly that unit for the tenant, and
    nothing for any other tenant. *)
Theorem createUnit_then_getUnitById env input userId clinicId w u w' :
  createUnit env input userId clinicId w = (Ok (FormattedUnit u), w') ->
  fault env GuFetch (unitId u) = None ->
  getUnitById env (unitId u) clinicId w' = (Ok (Some u), w')
  /\ (forall other, other <> clinicId ->
        getUnitById env (unitId u) other w' = (Ok None, w'))
  /\ total_quantity (unitRow u) = cu_totalQuantity input
  /\ available_quantity (unitRow u) = cu_availableQuantity input
  /\ expiry_date (unitRow u) = cu_expiryDate input
  /\ lot_id (unitRow u) = cu_lotId input
  /\ user_id (unitRow u) = userId
  /\ clinic_id (unitRow u) = clinicId
  /\ qr_code (unitRow u)
     = match fault env CuQrCode (unitId u) with
       | None => Some (unitId u)
       | Some _ => None
       end.
Proof.
  rewrite createUnit_unfold.
  destruct (resolve_unit_drug env input (entering w)) as [[d|e] w1];
    [|done].
  intros (r & Hr & Hu & Hid & _ & Hrow)%createUnit_for_formatted Hfault.
  pose proof (formatUnit_Ok _ _ Hu) as (_ & Hur & _). simpl in Hur.
  assert (clinic_id r = clinicId) as Hc by (by rewrite Hrow).
  split; [by eapply getUnitById_reads|].
  split.
  { intros other Hne. unfold getUnitById. run. rewrite Hfault.
    unfold select_unit_where. rewrite Hr.
    rewrite decide_False; [done|congruence]. }
  by rewrite Hur, Hrow, Hid.
Qed.

Lemma createUnit_then_getUnitById_witness :
  exists u w',
    createUnit Scenario.env0 (Scenario.check_in_of 50) "user-1" "clinic-1"
      Scenario.one_unit = (Ok (FormattedUnit u), w')
    /\ unitId u = "unit-3"
    /\ getUnitById Scenario.env0 (unitId u) "clinic-1" w' = (Ok (Some u), w')
    /\ (forall other, other <> "clinic-1" ->
          getUnitById Scenario.env0 (unitId u) other w' = (Ok None, w'))
    /\ total_quantity (unitRow u) = 50
    /\ available_quantity (unitRow u) = 50
    /\ expiry_date (unitRow u) = "2025-09-01"
    /\ lot_id (unitRow u) = "lot-1"
    /\ user_id (unitRow u) = "user-1"
    /\ clinic_id (unitRow u) = "clinic-1"
    /\ qr_code (unitRow u) = Some "unit-3".
Proof.
  eexists _, _. split; [vm_compute; reflexivity|].
  split; [reflexivity|].
  apply (createUnit_then_getUnitById Scenario.env0 (Scenario.check_in_of 50)
           "user-1" "clinic-1" Scenario.one_unit);
    [vm_compute; reflexivity|reflexivity].
Defined.

(** X12: with a request that names its drug, and the drug and the acting
    user on file, a [createUnit] that throws has created nothing: the
    units and the ledger are as they were.  (The request is refused
    before the insert, or the insert itself failed; what comes after the
    insert is best effort and does not throw.) *)
Theorem createUnit_failure_leaves_store env input userId clinicId w e w' :
  cu_drugData input = None ->
  (forall d, cu_drugId input = Some d -> is_Some (drugs w !! d)) ->
  is_Some (users w !! userId) ->
  createUnit env input userId clinicId w = (Throw e, w') ->
  units w' = units w /\ transactions w' = transactions w.
Proof.
  intros Hdata Hdrug [usr Husr].
  rewrite createUnit_unfold. unfold resolve_unit_drug. rewrite Hdata.
  unfold ret. unfold createUnit_for.
  destruct (cu_drugId input) as [[|c s]|]; [by intros [= _ <-]|
                                            |by intros [= _ <-]].
  destruct (Hdrug _ eq_refl) as [drg Hdrg]. run.
  destruct (getLotById _ _ _) as [lot|] eqn:Hlot; [|by intros [= _ <-]].
  apply getLotById_Some in Hlot. simpl in Hlot.
  destruct (max_capacity lot) as [m|]; run.
  1: destruct (m <? _); run; [by intros [= _ <-]|].
  all: unfold insert_unit; run.
  all: destruct (fault env CuInsert _); run; [by intros [= _ <-]|].
  all: destruct (units w !! fresh_unit_id env) eqn:Hfresh; run;
         [by intros [= _ <-]|].
  all: destruct (fault env CuQrCode _); run;
         (destruct (fault env CuTxInsert _); run);
         (destruct (fault env CuFetch _); run; [done|]);
         rewrite ?lookup_alter_eq, ?lookup_insert_eq; run;
         unfold formatUnit, join; simpl; by rewrite Hdrg, Hlot, Husr.
Qed.

Lemma createUnit_failure_leaves_store_witness :
  let run := createUnit Scenario.env0 (Scenario.check_in_of 50) "user-1"
               "clinic-2" Scenario.one_unit in
  run.1 = Throw "Lot not found"
  /\ units run.2 = units Scenario.one_unit
  /\ transactions run.2 = transactions Scenario.one_unit.
Proof.
  intros run. split; [vm_compute; reflexivity|].
  apply (createUnit_failure_leaves_store Scenario.env0
           (Scenario.check_in_of 50) "user-1" "clinic-2" Scenario.one_unit
           "Lot not found").
  - reflexivity.
  - intros d [= <-]. vm_compute. eauto.
  - vm_compute. eauto.
  - vm_compute; reflexivity.
Defined.

(** X13: an [updateUnit] that returns found the unit in the tenant; the
    unit it returns is the stored row after the update, in which each of
    the four columns that the request gives has the given value and every
    other column, the ones the request leaves out included, is as it
    was; no other unit and no ledger row changed; and [getUnitById] reads
    back the unit returned. *)
Theorem updateUnit_success_only_if env unitId0 updates clinicId w u w' :
  updateUnit env unitId0 updates clinicId w = (Ok u, w') ->
  exists r,
    units w !! unitId0 = Some r
    /\ clinic_id r = clinicId
    /\ unitId u = unitId0
    /\ units w' = <[unitId0 := unitRow u]> (units w)
    /\ transactions w' = transactions w
    /\ total_quantity (unitRow u)
       = default (total_quantity r) (up_totalQuantity updates)
    /\ available_quantity (unitRow u)
       = default (available_quantity r) (up_availableQuantity updates)
    /\ expiry_date (unitRow u)
       = default (expiry_date r) (up_expiryDate updates)
    /\ optional_notes (unitRow u)
       = match up_optionalNotes updates with
         | Some n => Some n
         | None => optional_notes r
         end
    /\ set_optional_notes (optional_notes r)
         (set_expiry_date (expiry_date r)
            (set_available_quantity (available_quantity r)
               (set_total_quantity (total_quantity r) (unitRow u)))) = r
    /\ (fault env GuFetch unitId0 = None ->
        getUnitById env unitId0 clinicId w' = (Ok (Some u), w')).
Proof.
  unfold updateUnit. run.
  destruct (fault env UuUpdate unitId0); [done|].
  destruct (select_unit_where _ _ _) as [r|] eqn:Hsel; [|done].
  apply select_unit_where_Some in Hsel as [Hr Hc]. run.
  unfold update_unit_where. rewrite Hr, decide_True by done.
  rewrite lookup_insert_eq.
  destruct (formatUnit _) as [u0|] eqn:Hu; [|done].
  intros [= <- <-]. exists r.
  pose proof (formatUnit_Ok _ _ Hu) as (Hid & Hrow & _).
  simpl in Hid, Hrow. rewrite Hrow. simpl.
  destruct (apply_unit_updates_keeps updates r) as (_ & _ & Hc').
  split_and!; try done.
  - unfold apply_unit_updates, apply_opt.
    by destruct (up_optionalNotes updates), (up_expiryDate updates),
      (up_availableQuantity updates), (up_totalQuantity updates).
  - unfold apply_unit_updates, apply_opt.
    by destruct (up_optionalNotes updates), (up_expiryDate updates),
      (up_availableQuantity updates), (up_totalQuantity updates).
  - unfold apply_unit_updates, apply_opt.
    by destruct (up_optionalNotes updates), (up_expiryDate updates),
      (up_availableQuantity updates), (up_totalQuantity updates).
  - unfold apply_unit_updates, apply_opt.
    by destruct (up_optionalNotes updates), (up_expiryDate updates),
      (up_availableQuantity updates), (up_totalQuantity updates).
  - unfold apply_unit_updates, apply_opt.
    by destruct (up_optionalNotes updates), (up_expiryDate updates),
      (up_availableQuantity updates), (up_totalQuantity updates), r.
  - intros Hfault.
    apply (getUnitById_reads env unitId0 clinicId _
             (apply_unit_updates updates r) u0 Hfault); [|by rewrite Hc'|done].
    simpl. by rewrite lookup_insert_eq.
Qed.

Lemma updateUnit_success_only_if_witness :
  let updates := {| up_totalQuantity := None; up_availableQuantity := Some 7;
                    up_expiryDate := None; up_optionalNotes := Some "recount" |} in
  exists u w',
    updateUnit Scenario.env0 "unit-1" updates "clinic-1" Scenario.one_unit
    = (Ok u, w')
    /\ (total_quantity (unitRow u), available_quantity (unitRow u),
        optional_notes (unitRow u)) = (10, 7, Some "recount")
    /\ getUnitById Scenario.env0 "unit-1" "clinic-1" w' = (Ok (Some u), w').
Proof.
  intros updates.
  edestruct (updateUnit_success_only_if Scenario.env0 "unit-1" updates
               "clinic-1" Scenario.one_unit)
    as (r & _ & _ & _ & _ & _ & _ & _ & _ & _ & _ & Hread);
    [vm_compute; reflexivity|].
  eexists _, _. split; [vm_compute; reflexivity|].
  split; [reflexivity|]. apply Hread. reflexivity.
Defined.

(** X14: [updateUnit] on a unit that is missing or that belongs to
    another tenant, or when the store reports an error, throws the
    update failure, with the store's message or the one for a missing
    row, and leaves the store as it was. *)
Theorem updateUnit_refusal_leaves_store env unitId0 updates clinicId w :
  fault env UuUpdate unitId0 <> None
  \/ (forall r, units w !! unitId0 = Some r -> clinic_id r <> clinicId) ->
  updateUnit env unitId0 updates clinicId w
  = (Throw ("Failed to update unit: "
            ++ default single_row_message (fault env UuUpdate unitId0)), w).
Proof.
  unfold updateUnit. run.
  destruct (fault env UuUpdate unitId0) as [e|]; [done|].
  intros [?|Hother]; [done|].
  unfold select_unit_where.
  destruct (units w !! unitId0) as [r|]; [|done].
  by rewrite decide_False by (by apply Hother).
Qed.

Lemma updateUnit_refusal_leaves_store_witness :
  units Ward.two_tenants !! "unit-9" = Some Ward.foreign_stock
  /\ updateUnit Scenario.env0 "unit-9"
       {| up_totalQuantity := None; up_availableQuantity := Some 0;
          up_expiryDate := None; up_optionalNotes := None |}
       "clinic-1" Ward.two_tenants
     = (Throw ("Failed to update unit: "
               ++ "JSON object requested, multiple (or no) rows returned"),
        Ward.two_tenants).
Proof.
  split; [vm_compute; reflexivity|].
  apply (updateUnit_refusal_leaves_store Scenario.env0 "unit-9").
  right. intros r Hr.
  assert (r = Ward.foreign_stock) as ->
    by (vm_compute in Hr; by injection Hr).
  simpl. discriminate.
Defined.

(** ** Reading units *)

Lemma map_formatUnit_Forall2 l us :
  map_formatUnit l = Ok us -> Forall2 (fun j u => formatUnit j = Ok u) l us.
Proof.
  revert us. induction l as [|j l IH]; intros us; simpl.
  - intros [= <-]. constructor.
  - destruct (formatUnit j) as [u|] eqn:Hu; [|done].
    destruct (map_formatUnit l) as [us'|]; [|done].
    intros [= <-]. constructor; [done|by apply IH].
Qed.

Lemma formatted_keys {A} (kj : UnitJoined -> A) (ku : Unit -> A) l us :
  (forall j u, formatUnit j = Ok u -> ku u = kj j) ->
  Forall2 (fun j u => formatUnit j = Ok u) l us ->
  ku <$> us = kj <$> l.
Proof.
  intros Hk. induction 1 as [|j u l us Hu _ IH]; [done|].
  csimpl. by rewrite IH, (Hk _ _ Hu).
Qed.

Lemma formatted_ids l us :
  Forall2 (fun j u => formatUnit j = Ok u) l us -> unitId <$> us = j_id <$> l.
Proof.
  apply formatted_keys. by intros j u (? & _)%formatUnit_Ok.
Qed.

Lemma formatted_rows {A} (k : UnitRow -> A) l us :
  Forall2 (fun j u => formatUnit j = Ok u) l us ->
  (fun u => k (unitRow u)) <$> us = (fun j => k (j_row j)) <$> l.
Proof.
  apply formatted_keys. by intros j u (_ & -> & _)%formatUnit_Ok.
Qed.

Lemma formatted_elem l us u :
  Forall2 (fun j u => formatUnit j = Ok u) l us -> u ∈ us ->
  exists j, j ∈ l /\ formatUnit j = Ok u.
Proof.
  intros Hf (i & Hi)%list_elem_of_lookup.
  destruct (Forall2_lookup_r _ _ _ _ _ Hf Hi) as (j & Hj & Hu).
  exists j. split; [|done]. by eapply list_elem_of_lookup_2.
Qed.

Lemma join_elem_of_all_units w id r :
  units w !! id = Some r -> join w id r ∈ all_units w.
Proof.
  intros Hr. unfold all_units. apply list_elem_of_fmap.
  exists (id, r). split; [done|]. by apply elem_of_map_to_list.
Qed.

Lemma all_units_joined w j :
  j ∈ all_units w ->
  units w !! j_id j = Some (j_row j) /\ j = join w (j_id j) (j_row j).
Proof.
  unfold all_units. intros ([id r] & -> & Hp)%list_elem_of_fmap.
  by apply elem_of_map_to_list in Hp.
Qed.

Lemma StronglySorted_sublist {A} (R : relation A) (l1 l2 : list A) :
  l1 `sublist_of` l2 -> StronglySorted R l2 -> StronglySorted R l1.
Proof.
  induction 1 as [|x l1 l2 Hsub IH|x l1 l2 Hsub IH]; [done|..].
  - intros [Hx Hs]%StronglySorted_cons. apply StronglySorted_cons.
    split; [|by apply IH].
    eapply Forall_forall. intros y Hy.
    apply (proj1 (Forall_forall _ _) Hx). by eapply sublist_subseteq.
  - intros [_ Hs]%StronglySorted_cons. by apply IH.
Qed.

Lemma order_by_keys_sorted {A} (R : relation A)
    `{!RelDecision R, !Total R, !Transitive R}
    (key : UnitJoined -> A) (ascending : bool) (l : list UnitJoined) :
  StronglySorted (if ascending then R else flip R)
    (key <$> order_by R key ascending l).
Proof.
  unfold order_by.
  apply (StronglySorted_fmap key (ordered R key ascending)).
  { intros a b. unfold ordered. by destruct ascending. }
  apply Sorted_StronglySorted.
  { intros a b c. unfold ordered. destruct ascending; intros; by etrans. }
  apply Sorted_merge_sort, _.
Qed.

Lemma order_by_elem {A} (R : relation A) `{!RelDecision R}
    (key : UnitJoined -> A) (ascending : bool) (l : list UnitJoined) j :
  j ∈ order_by R key ascending l <-> j ∈ l.
Proof. unfold order_by. by rewrite merge_sort_Permutation. Qed.

Lemma order_by_NoDup {A} (R : relation A) `{!RelDecision R}
    (key : UnitJoined -> A) (ascending : bool) (l : list UnitJoined) :
  NoDup (j_id <$> l) -> NoDup (j_id <$> order_by R key ascending l).
Proof. unfold order_by. by rewrite merge_sort_Permutation. Qed.

Lemma range_sublist {A} (from to : Z) (l : list A) :
  range from to l `sublist_of` l.
Proof.
  unfold range. etrans; [apply sublist_take|apply sublist_drop].
Qed.

Lemma NoDup_ids_sublist (l1 l2 : list UnitJoined) :
  l1 `sublist_of` l2 -> NoDup (j_id <$> l2) -> NoDup (j_id <$> l1).
Proof.
  intros Hsub Hnd. eapply sublist_NoDup; [exact Hnd|by apply fmap_sublist].
Qed.

(** X15: [getUnitById] never writes; the unit it returns is the stored
    row of that id with its drug, lot and user rows, and is of the tenant
    asked; a unit of another tenant is not returned. *)
Theorem getUnitById_tenant env unitId0 clinicId w :
  (getUnitById env unitId0 clinicId w).2 = w
  /\ (forall u, (getUnitById env unitId0 clinicId w).1 = Ok (Some u) ->
        unitId u = unitId0
        /\ units w !! unitId0 = Some (unitRow u)
        /\ clinic_id (unitRow u) = clinicId
        /\ drugs w !! drug_id (unitRow u) = Some (drug u)
        /\ lots w !! lot_id (unitRow u) = Some (lot u)
        /\ users w !! user_id (unitRow u) = Some (user u))
  /\ (forall r, units w !! unitId0 = Some r -> clinic_id r <> clinicId ->
        (getUnitById env unitId0 clinicId w).1 = Ok None).
Proof.
  unfold getUnitById. run.
  destruct (fault env GuFetch unitId0).
  { by split_and!. }
  destruct (select_unit_where _ _ _) as [r|] eqn:Hsel.
  - apply select_unit_where_Some in Hsel as [Hr Hc].
    destruct (formatUnit _) as [u|] eqn:Hu; simpl.
    + split_and!; [done| |congruence].
      intros ? [= <-].
      apply formatUnit_Ok in Hu as (? & Hrow & ? & ? & ?).
      simpl in *. by rewrite Hrow.
    + split_and!; [done|done|congruence].
  - by split_and!.
Qed.

Lemma getUnitById_tenant_witness :
  units Ward.two_tenants !! "unit-9" = Some Ward.foreign_stock
  /\ (getUnitById Scenario.env0 "unit-9" "clinic-1" Ward.two_tenants).1
     = Ok None
  /\ exists u,
       (getUnitById Scenario.env0 "unit-9" "clinic-2" Ward.two_tenants).1
       = Ok (Some u)
       /\ unitRow u = Ward.foreign_stock.
Proof.
  split; [vm_compute; reflexivity|]. split.
  - destruct (getUnitById_tenant Scenario.env0 "unit-9" "clinic-1"
                Ward.two_tenants) as (_ & _ & Hother).
    apply (Hother Ward.foreign_stock); [vm_compute; reflexivity|].
    vm_compute. discriminate.
  - eexists. split; vm_compute; reflexivity.
Defined.

(** X16: a page of [getUnits] holds stored units of the tenant, each
    once, newest first, and no more of them than the page size; the call
    does not write. *)
Theorem getUnits_page env clinicId page pageSize search w r w' :
  getUnits env clinicId page pageSize search w = (Ok r, w') ->
  w' = w
  /\ Forall (fun u => units w !! unitId u = Some (unitRow u)
                      /\ clinic_id (unitRow u) = clinicId) (p_units r)
  /\ NoDup (unitId <$> p_units r)
  /\ StronglySorted (flip String.le)
       ((fun u => date_created (unitRow u)) <$> p_units r)
  /\ Z.of_nat (length (p_units r)) <= pageSize
  /\ p_page r = page /\ p_pageSize r = pageSize.
Proof.
  unfold getUnits. run.
  destruct (fault env LuQuery clinicId); [done|].
  destruct (Z.ltb_spec ((page - 1) * pageSize) 0); [done|].
  destruct (Z.ltb_spec ((page - 1) * pageSize + pageSize - 1
                        - (page - 1) * pageSize + 1) 0); [done|].
  simpl.
  set (rows := units_page w clinicId _ _).
  set (found := match search with
                | Some (String _ _ as s) =>
                  filter (fun j => unit_matches (toLowerCase s) j) rows
                | _ => rows
                end).
  assert (found `sublist_of` rows) as Hsub.
  { unfold found. destruct search as [[|??]|]; try done.
    apply sublist_filter. }
  destruct (map_formatUnit found) as [us|] eqn:Hus; [|done].
  intros [= <- <-]. simpl.
  apply map_formatUnit_Forall2 in Hus.
  assert (rows `sublist_of`
            order_by String.le (fun j => date_created (j_row j)) false
              (filter (fun j => in_clinic clinicId j) (all_units w)))
    as Hrows by apply range_sublist.
  split_and!; [done| | | | |done|done].
  - apply Forall_forall. intros u Hu.
    destruct (formatted_elem _ _ _ Hus Hu) as (j & Hj & Hfmt).
    apply formatUnit_Ok in Hfmt as (-> & -> & _).
    eapply sublist_subseteq in Hj; [|exact Hsub].
    eapply sublist_subseteq in Hj; [|exact Hrows].
    apply order_by_elem, list_elem_of_filter in Hj as [Hc Hj].
    apply all_units_joined in Hj as [Hj _].
    split; [done|]. unfold in_clinic in Hc.
    by apply bool_decide_unpack in Hc.
  - rewrite (formatted_ids _ _ Hus).
    eapply NoDup_ids_sublist; [exact Hsub|].
    eapply NoDup_ids_sublist; [exact Hrows|].
    apply order_by_NoDup, NoDup_filter_ids, NoDup_all_units.
  - rewrite (formatted_rows date_created _ _ Hus).
    eapply StronglySorted_sublist;
      [apply fmap_sublist; etrans; [exact Hsub|exact Hrows]|].
    apply (order_by_keys_sorted String.le
             (fun j => date_created (j_row j)) false).
  - rewrite <- (Forall2_length _ _ _ Hus).
    apply sublist_length in Hsub.
    pose proof (range_length ((page - 1) * pageSize)
                  ((page - 1) * pageSize + pageSize - 1)
                  (order_by String.le (fun j => date_created (j_row j)) false
                     (filter (fun j => in_clinic clinicId j) (all_units w))))
      as Hlen.
    fold (units_page w clinicId ((page - 1) * pageSize)
            ((page - 1) * pageSize + pageSize - 1)) in Hlen.
    fold rows in Hlen. lia.
Qed.

Lemma getUnits_page_witness :
  exists r,
    getUnits Scenario.env0 "clinic-1" 1 10 None Ward.two_tenants
    = (Ok r, Ward.two_tenants)
    /\ unitId <$> p_units r = ["unit-2"; "unit-1"]
    /\ Forall (fun u => units Ward.two_tenants !! unitId u = Some (unitRow u)
                        /\ clinic_id (unitRow u) = "clinic-1") (p_units r)
    /\ NoDup (unitId <$> p_units r)
    /\ StronglySorted (flip String.le)
         ((fun u => date_created (unitRow u)) <$> p_units r)
    /\ Z.of_nat (length (p_units r)) <= 10.
Proof.
  edestruct (getUnits_page Scenario.env0 "clinic-1" 1 10 None
               Ward.two_tenants)
    as (_ & Hin & Hnd & Hsorted & Hlen & _); [vm_compute; reflexivity|].
  eexists. split; [vm_compute; reflexivity|]. split; [reflexivity|].
  split; [exact Hin|]. split; [exact Hnd|]. split; [exact Hsorted|].
  exact Hlen.
Defined.

(** X17: for a request that does not filter by location, a page of
    [getUnitsAdvanced] holds stored units of the tenant, each inside the
    expiration window and the explicit expiry range of the filters and
    passing the filters on the drug applied after the query (the bounds
    on the strength, the strength unit); there are no more of them than
    the page size, nor than [total], which counts the units the query
    selected before the page was cut and before the later filters; the
    call does not write. *)
Theorem getUnitsAdvanced_page env clinicId filters page pageSize w r w' :
  f_locationIds filters = None ->
  getUnitsAdvanced env clinicId filters page pageSize w = (Ok r, w') ->
  w' = w
  /\ Forall (fun u =>
       units w !! unitId u = Some (unitRow u)
       /\ clinic_id (unitRow u) = clinicId
       /\ window_filter env (f_expirationWindow filters)
            (join w (unitId u) (unitRow u)) = true
       /\ date_range_filter (f_expiryDateFrom filters)
            (f_expiryDateTo filters) (join w (unitId u) (unitRow u)) = true
       /\ (forall m, f_minStrength filters = Some m -> m <= strength (drug u))
       /\ (forall m, f_maxStrength filters = Some m -> strength (drug u) <= m)
       /\ (forall s, f_strengthUnit filters = Some s -> s <> "" ->
             strength_unit (drug u) = s)) (p_units r)
  /\ NoDup (unitId <$> p_units r)
  /\ Z.of_nat (length (p_units r)) <= pageSize
  /\ Z.of_nat (length (p_units r)) <= p_total r
  /\ p_total r
     = Z.of_nat (length (filter (fun j => advanced_server_filter env clinicId
                                            filters j) (all_units w))).
Proof.
  intros _. unfold getUnitsAdvanced. run.
  destruct (fault env AqQuery clinicId); [done|].
  destruct (Z.ltb_spec ((page - 1) * pageSize) 0); [done|].
  destruct (Z.ltb_spec ((page - 1) * pageSize + pageSize - 1
                        - (page - 1) * pageSize + 1) 0); [done|].
  simpl.
  set (selected := filter (fun j => advanced_server_filter env clinicId
                                      filters j) (all_units w)).
  set (sortField := default EXPIRY_DATE (f_sortBy filters)).
  set (ascending := match default ASC (f_sortOrder filters) with
                    | ASC => true | DESC => false end).
  set (sorted := advanced_server_order sortField ascending selected).
  set (rows := range _ _ sorted).
  set (kept := filter (fun j => advanced_client_filter filters j) rows).
  set (found := advanced_client_sort env sortField ascending kept).
  assert (sorted ≡ₚ selected) as Hsorted.
  { unfold sorted, advanced_server_order, order_by.
    destruct sortField; apply merge_sort_Permutation. }
  assert (found ≡ₚ kept) as Hfound.
  { unfold found, advanced_client_sort.
    assert (forall (cmp : UnitJoined -> UnitJoined -> Z) l,
              array_sort cmp l ≡ₚ l) as Hsort.
    { intros cmp l. unfold array_sort.
      induction l as [|x l IH]; simpl; [done|].
      rewrite <- IH at 2. generalize (foldr (sort_insert cmp) [] l).
      intros k. induction k as [|y k IHk]; simpl; [done|].
      destruct (0 <? cmp x y); [|done].
      rewrite IHk. apply Permutation_swap. }
    destruct sortField; try done; apply Hsort. }
  assert (kept `sublist_of` sorted) as Hkept.
  { unfold kept, rows. etrans; [apply sublist_filter|apply range_sublist]. }
  destruct (map_formatUnit found) as [us|] eqn:Hus; [|done].
  intros [= <- <-]. simpl.
  apply map_formatUnit_Forall2 in Hus.
  split_and!; [done| | | | |done].
  - apply Forall_forall. intros u Hu.
    destruct (formatted_elem _ _ _ Hus Hu) as (j & Hj & Hfmt).
    apply formatUnit_Ok in Hfmt as (-> & -> & Hdrug & Hlot & _).
    rewrite Hfound in Hj.
    apply list_elem_of_filter in Hj as [Hclient Hj].
    apply elem_of_range in Hj. rewrite Hsorted in Hj.
    apply list_elem_of_filter in Hj as [Hserver Hj].
    apply all_units_joined in Hj as [Hj Hjoin]. rewrite <- Hjoin.
    apply Is_true_true in Hserver, Hclient.
    pose proof (advanced_server_filter_window _ _ _ _ Hserver) as [Hw Hd].
    unfold advanced_server_filter in Hserver.
    apply andb_true_iff in Hserver as [[Hc _]%andb_true_iff _].
    apply bool_decide_eq_true in Hc.
    unfold advanced_client_filter in Hclient. rewrite Hdrug, Hlot in Hclient.
    simpl in Hclient.
    apply andb_true_iff in Hclient as [_ Hclient].
    apply andb_true_iff in Hclient as [Hclient _].
    apply andb_true_iff in Hclient as [Hclient _].
    apply andb_true_iff in Hclient as [Hclient _].
    apply andb_true_iff in Hclient as [Hclient Hunit].
    apply andb_true_iff in Hclient as [Hmin Hmax].
    split_and!; try done.
    + intros m Hm. rewrite Hm in Hmin.
      apply negb_true_iff, Z.ltb_ge in Hmin. lia.
    + intros m Hm. rewrite Hm in Hmax.
      apply negb_true_iff, Z.ltb_ge in Hmax. lia.
    + intros s Hs Hne. rewrite Hs in Hunit. destruct s; [done|].
      by apply bool_decide_eq_true in Hunit.
  - rewrite (formatted_ids _ _ Hus), Hfound.
    eapply NoDup_ids_sublist; [exact Hkept|].
    rewrite Hsorted. apply NoDup_filter_ids, NoDup_all_units.
  - rewrite <- (Forall2_length _ _ _ Hus), Hfound.
    assert (length kept <= length rows)%nat
      by apply sublist_length, sublist_filter.
    pose proof (range_length ((page - 1) * pageSize)
                  ((page - 1) * pageSize + pageSize - 1) sorted) as Hlen.
    fold rows in Hlen. lia.
  - rewrite <- (Forall2_length _ _ _ Hus), Hfound.
    apply sublist_length in Hkept. rewrite Hsorted in Hkept. lia.
Qed.

Lemma getUnitsAdvanced_page_witness :
  let filters := Scenario.range_filters None in
  exists r,
    getUnitsAdvanced Scenario.env0 "clinic-1" filters 1 50 Ward.two_tenants
    = (Ok r, Ward.two_tenants)
    /\ unitId <$> p_units r = ["unit-2"]
    /\ NoDup (unitId <$> p_units r)
    /\ Z.of_nat (length (p_units r)) <= 50
    /\ Z.of_nat (length (p_units r)) <= p_total r.
Proof.
  intros filters.
  edestruct (getUnitsAdvanced_page Scenario.env0 "clinic-1" filters 1 50
               Ward.two_tenants)
    as (_ & _ & Hnd & Hlen & Htotal & _);
    [reflexivity|vm_compute; reflexivity|].
  eexists. split; [vm_compute; reflexivity|]. split; [reflexivity|].
  split; [exact Hnd|]. split; [exact Hlen|exact Htotal].
Defined.

(** X18: [getInventoryByLocation] returns stored units of the tenant that
    have stock left and whose lot is at the location, each once, soonest
    expiry first; when it returns, every unit of the tenant with stock
    left in a lot at that location is among them; the call does not
    write. *)
Theorem getInventoryByLocation_lists_location
    error locationId clinicId w us w' :
  getInventoryByLocation error locationId clinicId w = (Ok us, w') ->
  w' = w
  /\ Forall (fun u =>
       units w !! unitId u = Some (unitRow u)
       /\ clinic_id (unitRow u) = clinicId
       /\ 0 < available_quantity (unitRow u)
       /\ lots w !! lot_id (unitRow u) = Some (lot u)
       /\ location_id (lot u) = locationId) us
  /\ (forall id r l,
        units w !! id = Some r -> clinic_id r = clinicId ->
        0 < available_quantity r ->
        lots w !! lot_id r = Some l -> location_id l = locationId ->
        id ∈ unitId <$> us)
  /\ NoDup (unitId <$> us)
  /\ StronglySorted String.le ((fun u => expiry_date (unitRow u)) <$> us).
Proof.
  unfold getInventoryByLocation. run.
  destruct error; [done|].
  set (found := filter (fun j => at_location locationId j)
                  (stock_by_expiry w clinicId)).
  assert (forall j, j ∈ found <->
            j ∈ all_units w /\ in_stock clinicId j = true
            /\ at_location locationId j = true) as Hfound.
  { intros j. unfold found, stock_by_expiry.
    rewrite list_elem_of_filter, order_by_elem, list_elem_of_filter.
    rewrite <- !Is_true_true. tauto. }
  destruct (map_formatUnit found) as [us0|] eqn:Hus; [|done].
  intros [= <- <-]. apply map_formatUnit_Forall2 in Hus.
  split_and!; [done| | | |].
  - apply Forall_forall. intros u Hu.
    destruct (formatted_elem _ _ _ Hus Hu) as (j & Hj & Hfmt).
    apply formatUnit_Ok in Hfmt as (-> & -> & _ & Hlot & _).
    apply Hfound in Hj as (Hj & Hstock & Hat).
    apply all_units_joined in Hj as [Hj Hjoin].
    unfold in_stock, in_clinic in Hstock.
    apply andb_true_iff in Hstock as [Hc Hpos].
    apply bool_decide_eq_true in Hc. apply Z.ltb_lt in Hpos.
    unfold at_location in Hat. rewrite Hlot in Hat. simpl in Hat.
    apply bool_decide_eq_true in Hat.
    split_and!; try done. rewrite Hjoin in Hlot. exact Hlot.
  - intros id r l Hr Hc Hpos Hl Hloc.
    rewrite (formatted_ids _ _ Hus). apply list_elem_of_fmap.
    exists (join w id r). split; [done|]. apply Hfound.
    split; [by apply join_elem_of_all_units|].
    unfold in_stock, in_clinic, at_location. simpl. rewrite Hl. simpl.
    split; [apply andb_true_iff; split|].
    + by apply bool_decide_eq_true.
    + by apply Z.ltb_lt.
    + by apply bool_decide_eq_true.
  - rewrite (formatted_ids _ _ Hus).
    eapply NoDup_ids_sublist; [apply sublist_filter|].
    apply order_by_NoDup, NoDup_filter_ids, NoDup_all_units.
  - rewrite (formatted_rows expiry_date _ _ Hus).
    eapply StronglySorted_sublist; [apply fmap_sublist, sublist_filter|].
    apply (order_by_keys_sorted String.le expiry true).
Qed.

Lemma getInventoryByLocation_lists_location_witness :
  exists us,
    getInventoryByLocation None "loc-1" "clinic-1" Ward.two_tenants
    = (Ok us, Ward.two_tenants)
    /\ unitId <$> us = ["unit-1"; "unit-2"]
    /\ NoDup (unitId <$> us)
    /\ StronglySorted String.le ((fun u => expiry_date (unitRow u)) <$> us).
Proof.
  edestruct (getInventoryByLocation_lists_location None "loc-1" "clinic-1"
               Ward.two_tenants)
    as (_ & _ & _ & Hnd & Hsorted); [vm_compute; reflexivity|].
  eexists. split; [vm_compute; reflexivity|]. split; [reflexivity|].
  split; [exact Hnd|exact Hsorted].
Defined.

Lemma array_sort_by_key {A} (k : A -> Z) (ascending : bool) (l : list A) :
  StronglySorted (if ascending then Z.le else flip Z.le)
    (k <$> array_sort (fun a b => if ascending then k a - k b
                                  else k b - k a) l).
Proof.
  set (cmp := fun a b => if ascending then k a - k b else k b - k a).
  set (R := if ascending then Z.le else flip Z.le).
  assert (forall x y, 0 < cmp x y -> R (k y) (k x)) as Hafter.
  { intros x y. unfold cmp, R, flip. destruct ascending; lia. }
  assert (forall x y, ~ 0 < cmp x y -> R (k x) (k y)) as Hbefore.
  { intros x y. unfold cmp, R, flip. destruct ascending; lia. }
  assert (forall a b c, R a b -> R b c -> R a c) as Htrans.
  { intros a b c. unfold R, flip. destruct ascending; lia. }
  unfold array_sort. induction l as [|x l IH]; simpl; [constructor|].
  revert IH. generalize (foldr (sort_insert cmp) [] l). clear l.
  intros l Hl. induction l as [|y l IH]; simpl.
  { repeat constructor. }
  apply StronglySorted_cons in Hl as [Hy Hl]. csimpl in Hy.
  destruct (Z.ltb_spec 0 (cmp x y)) as [Hlt|Hge]; csimpl.
  - apply StronglySorted_cons. split; [|by apply IH].
    apply Forall_forall. intros z Hz.
    apply list_elem_of_fmap in Hz as (z0 & -> & Hz0).
    apply elem_of_sort_insert in Hz0 as [->|Hz0]; [by apply Hafter|].
    apply (proj1 (Forall_forall _ _) Hy). by apply list_elem_of_fmap_2.
  - apply StronglySorted_cons. split.
    + constructor; [apply Hbefore; lia|].
      eapply Forall_impl; [exact Hy|]. intros z Hz.
      eapply Htrans; [|exact Hz]. apply Hbefore. lia.
    + by apply StronglySorted_cons.
Qed.

(** X19: the order of a page of [getUnitsAdvanced], for a request that
    does not filter by location.  Without [sortBy], or by expiry date, by
    creation date or by quantity, the units come in the order of that
    column, in the direction asked (ascending when none is given), as
    the query returned them; by strength, they are the units of the page
    the query returned in expiry order and what the later filters kept of
    it, put in the order of the strength of their drug. *)
Theorem getUnitsAdvanced_order env clinicId filters page pageSize w r w' :
  f_locationIds filters = None ->
  getUnitsAdvanced env clinicId filters page pageSize w = (Ok r, w') ->
  let ascending :=
    match default ASC (f_sortOrder filters) with ASC => true | DESC => false
    end in
  match default EXPIRY_DATE (f_sortBy filters) with
  | EXPIRY_DATE =>
    StronglySorted (if ascending then String.le else flip String.le)
      ((fun u => expiry_date (unitRow u)) <$> p_units r)
  | CREATED_DATE =>
    StronglySorted (if ascending then String.le else flip String.le)
      ((fun u => date_created (unitRow u)) <$> p_units r)
  | QUANTITY =>
    StronglySorted (if ascending then Z.le else flip Z.le)
      ((fun u => available_quantity (unitRow u)) <$> p_units r)
  | STRENGTH =>
    StronglySorted (if ascending then Z.le else flip Z.le)
      ((fun u => strength (drug u)) <$> p_units r)
  | MEDICATION_NAME => True
  end.
Proof.
  intros _. unfold getUnitsAdvanced. run.
  destruct (fault env AqQuery clinicId); [done|].
  destruct (_ || _); [done|]. simpl.
  set (selected := filter (fun j => advanced_server_filter env clinicId
                                      filters j) (all_units w)).
  set (ascending := match default ASC (f_sortOrder filters) with
                    | ASC => true | DESC => false end).
  destruct (map_formatUnit _) as [us|] eqn:Hus; [|done].
  intros [= <- <-]. simpl. apply map_formatUnit_Forall2 in Hus.
  destruct (default EXPIRY_DATE (f_sortBy filters)); simpl in Hus; [| | | |].
  - rewrite (formatted_rows expiry_date _ _ Hus).
    eapply StronglySorted_sublist;
      [apply fmap_sublist; etrans; [apply sublist_filter|apply range_sublist]|].
    apply (order_by_keys_sorted String.le expiry ascending).
  - done.
  - rewrite (formatted_rows available_quantity _ _ Hus).
    eapply StronglySorted_sublist;
      [apply fmap_sublist; etrans; [apply sublist_filter|apply range_sublist]|].
    apply (order_by_keys_sorted Z.le
             (fun j => available_quantity (j_row j)) ascending).
  - rewrite (formatted_rows date_created _ _ Hus).
    eapply StronglySorted_sublist;
      [apply fmap_sublist; etrans; [apply sublist_filter|apply range_sublist]|].
    apply (order_by_keys_sorted String.le
             (fun j => date_created (j_row j)) ascending).
  - rewrite (formatted_keys strength_of (fun u => strength (drug u)) _ _
               ltac:(intros j u (_ & _ & Hd & _)%formatUnit_Ok;
                     unfold strength_of; by rewrite Hd) Hus).
    apply (array_sort_by_key strength_of ascending).
Qed.

Lemma getUnitsAdvanced_order_witness :
  let filters :=
    {| f_expiryDateFrom := None; f_expiryDateTo := None;
       f_locationIds := None; f_minStrength := None; f_maxStrength := None;
       f_strengthUnit := None; f_expirationWindow := None;
       f_medicationName := None; f_genericName := None; f_ndcId := None;
       f_sortBy := Some CREATED_DATE; f_sortOrder := Some DESC |} in
  exists r,
    getUnitsAdvanced Scenario.env0 "clinic-1" filters 1 50 Ward.two_tenants
    = (Ok r, Ward.two_tenants)
    /\ unitId <$> p_units r = ["unit-2"; "unit-1"]
    /\ StronglySorted (flip String.le)
         ((fun u => date_created (unitRow u)) <$> p_units r).
Proof.
  intros filters.
  pose proof (getUnitsAdvanced_order Scenario.env0 "clinic-1" filters 1 50
                Ward.two_tenants) as Horder.
  eexists. split; [vm_compute; reflexivity|]. split; [reflexivity|].
  eapply (Horder _ _ eq_refl). vm_compute; reflexivity.
Defined.

(** ** Grouping units by drug and expiry date *)



















(** ** Quick search *)

(** X22: a query that is empty, or whose [trim()] has a [length] below
    two, is answered with the empty list without a call to the store: the
    result is the same whether the store would have answered or failed,
    and nothing is written, the console included.  [trim] and [length]
    are the engine's, whatever they compute. *)
Theorem searchUnits_short_query str toNumber error env query clinicId w :
  query = "" \/ (js_length str (js_trim str query) < 2)%nat ->
  searchUnits str toNumber error env query clinicId w = (Ok [], w).
Proof.
  intros Hshort. unfold searchUnits.
  destruct query as [|c query]; [done|].
  destruct Hshort as [|Hshort]; [done|].
  by rewrite (proj2 (Nat.ltb_lt _ _) Hshort).
Qed.

(** One character between blanks, [e] with an acute accent: two bytes of
    UTF-8, one UTF-16 code unit. *)
Lemma searchUnits_short_query_witness :
  String.length (trim " é ") = 2%nat
  /\ searchUnits Ward.strings Ward.to_number (Some "connection lost")
       Scenario.env0 " é " "clinic-1" Ward.two_tenants
     = (Ok [], Ward.two_tenants).
Proof.
  split; [vm_compute; reflexivity|].
  apply searchUnits_short_query. right. vm_compute. lia.
Defined.

(** X23: when the store reports an error on a query that is not empty
    and whose [trim()] has a [length] of two or more, [searchUnits] throws
    a message that carries its prefix twice, the error thrown inside the
    [try] block being caught and wrapped again; the console gets two
    lines and the units and the ledger are as they were. *)
Theorem searchUnits_storage_error str toNumber env query clinicId w e :
  query <> "" ->
  (2 <= js_length str (js_trim str query))%nat ->
  exists w',
    searchUnits str toNumber (Some e) env query clinicId w
    = (Throw ("Failed to search units: Failed to search units: " ++ e), w')
    /\ console w'
       = (console w
          ++ [(LError, ("Error searching units: " ++ e)%string);
              (LError, ("Error in searchUnits: Failed to search units: "
                        ++ e)%string)])%list
    /\ units w' = units w /\ transactions w' = transactions w.
Proof.
  intros Hquery Hlong. unfold searchUnits.
  destruct query as [|c query]; [done|].
  rewrite (proj2 (Nat.ltb_ge _ _) Hlong).
  unfold try_catch. run. eexists. split; [reflexivity|]. simpl.
  by rewrite <- app_assoc.
Qed.

Lemma searchUnits_storage_error_witness :
  exists w',
    searchUnits Ward.strings Ward.to_number (Some "timeout") Scenario.env0
      "aspirin" "clinic-1" Ward.two_tenants
    = (Throw "Failed to search units: Failed to search units: timeout", w')
    /\ units w' = units Ward.two_tenants.
Proof.
  destruct (searchUnits_storage_error Ward.strings Ward.to_number
              Scenario.env0 "aspirin" "clinic-1" Ward.two_tenants "timeout")
    as (w' & Hrun & _ & Hunits & _); [done|vm_compute; lia|].
  exists w'. split; [exact Hrun|exact Hunits].
Defined.

(** X24: what [searchUnits] returns when the store answers: at most 20
    units, each once, each a stored unit of the tenant with stock left
    that matches the trimmed, lower-cased query on its id, its
    medication or generic name, or its strength; for a query that does
    not look like a unit id they come newest first; the call does not
    write. *)
Theorem searchUnits_results str toNumber env query clinicId w us w' :
  searchUnits str toNumber None env query clinicId w = (Ok us, w') ->
  let queryLower := toLowerCase (js_trim str query) in
  w' = w
  /\ (length us <= 20)%nat
  /\ NoDup (unitId <$> us)
  /\ Forall (fun u =>
       units w !! unitId u = Some (unitRow u)
       /\ clinic_id (unitRow u) = clinicId
       /\ 0 < available_quantity (unitRow u)
       /\ search_matches (toNumber queryLower) queryLower
            (join w (unitId u) (unitRow u)) = true) us
  /\ (looks_like_unit_id str (js_trim str query) = false ->
      StronglySorted (flip String.le)
        ((fun u => date_created (unitRow u)) <$> us)).
Proof.
  unfold searchUnits.
  destruct query as [|c query].
  { intros [= <- <-]. cbv zeta.
    split_and!; [done|simpl; lia|constructor|constructor|intros _; constructor]. }
  destruct (_ <? 2)%nat.
  { intros [= <- <-]. cbv zeta.
    split_and!; [done|simpl; lia|constructor|constructor|intros _; constructor]. }
  unfold try_catch. run.
  set (q := js_trim str (String c query)).
  set (rows := search_rows str env w q clinicId).
  set (base := filter (fun j => in_stock clinicId j) (all_units w)).
  assert (rows `sublist_of`
            (if looks_like_unit_id str q then base
             else order_by String.le (fun j => date_created (j_row j))
                    false base)) as Hrows.
  { unfold rows, search_rows. fold base. destruct (looks_like_unit_id str q).
    - etrans; [apply sublist_take|apply sublist_filter].
    - apply sublist_take. }
  assert (forall j, j ∈ rows -> j ∈ base) as Hbase.
  { intros j Hj. eapply sublist_subseteq in Hj; [|exact Hrows].
    destruct (looks_like_unit_id str q); [done|]. by apply order_by_elem in Hj. }
  assert (NoDup (j_id <$> rows)) as Hnd.
  { eapply NoDup_ids_sublist; [exact Hrows|].
    destruct (looks_like_unit_id str q);
      [|apply order_by_NoDup]; apply NoDup_filter_ids, NoDup_all_units. }
  destruct rows as [|j0 rows0] eqn:Hrows0.
  { intros [= <- <-]. cbv zeta.
    split_and!; [done|simpl; lia|constructor|constructor|intros _; constructor]. }
  rewrite <- Hrows0 in *. clear Hrows0.
  set (found := take 20 (filter (fun j => search_matches
                                           (toNumber (toLowerCase q))
                                           (toLowerCase q) j) rows)).
  assert (found `sublist_of` rows) as Hfound.
  { unfold found. etrans; [apply sublist_take|apply sublist_filter]. }
  destruct (map_formatUnit found) as [us0|] eqn:Hus; [|done].
  intros [= <- <-]. cbv zeta. apply map_formatUnit_Forall2 in Hus.
  split_and!; [done| | | |].
  - rewrite <- (Forall2_length _ _ _ Hus). unfold found.
    rewrite length_take. lia.
  - rewrite (formatted_ids _ _ Hus). by eapply NoDup_ids_sublist.
  - apply Forall_forall. intros u Hu.
    destruct (formatted_elem _ _ _ Hus Hu) as (j & Hj & Hfmt).
    apply formatUnit_Ok in Hfmt as (-> & -> & _).
    unfold found in Hj. apply subseteq_take in Hj.
    apply list_elem_of_filter in Hj as [Hmatch Hj].
    apply Hbase, list_elem_of_filter in Hj as [Hstock Hj].
    apply all_units_joined in Hj as [Hj Hjoin]. rewrite <- Hjoin.
    apply Is_true_true in Hstock, Hmatch.
    apply andb_true_iff in Hstock as [Hc Hpos].
    apply bool_decide_eq_true in Hc. apply Z.ltb_lt in Hpos.
    by split_and!.
  - intros Hfree. rewrite Hfree in Hrows.
    rewrite (formatted_rows date_created _ _ Hus).
    eapply StronglySorted_sublist;
      [apply fmap_sublist; etrans; [exact Hfound|exact Hrows]|].
    apply (order_by_keys_sorted String.le
             (fun j => date_created (j_row j)) false).
Qed.

Lemma searchUnits_results_witness :
  exists us,
    searchUnits Ward.strings Ward.to_number None Scenario.env0 " ASPIRIN "
      "clinic-1" Ward.two_tenants = (Ok us, Ward.two_tenants)
    /\ unitId <$> us = ["unit-2"; "unit-1"]
    /\ (length us <= 20)%nat
    /\ NoDup (unitId <$> us)
    /\ StronglySorted (flip String.le)
         ((fun u => date_created (unitRow u)) <$> us).
Proof.
  edestruct (searchUnits_results Ward.strings Ward.to_number Scenario.env0
               " ASPIRIN " "clinic-1" Ward.two_tenants)
    as (_ & Hlen & Hnd & _ & Hsorted); [vm_compute; reflexivity|].
  eexists. split; [vm_compute; reflexivity|]. split; [reflexivity|].
  split; [exact Hlen|]. split; [exact Hnd|]. apply Hsorted.
  vm_compute; reflexivity.
Defined.

(** ** Reading and correcting the ledger *)

Lemma normalize_temp_never_spaced l :
  loc_temp (normalize_temp l) <> "room temp".
Proof.
  unfold normalize_temp. simpl.
  destruct (String.eqb_spec (loc_temp l) "room temp"); [done|done].
Qed.

Lemma formatTransaction_keeps x :
  x_row (formatTransaction x) = x_row x
  /\ x_user (formatTransaction x) = x_user x
  /\ (forall u l loc,
        x_unit (formatTransaction x) = Some u ->
        xu_lot u = Some (l, Some loc) -> loc_temp loc <> "room temp").
Proof.
  split_and!; [done..|].
  intros u l loc. unfold formatTransaction. simpl.
  destruct (x_unit x) as [u0|]; [|done]. intros [= <-]. simpl.
  destruct (xu_lot u0) as [[l0 [loc0|]]|]; [|done..].
  intros [= <- <-]. apply normalize_temp_never_spaced.
Qed.

Lemma tx_page_sublist w clinicId unitId0 from to :
  tx_page w clinicId unitId0 from to
  `sublist_of` merge_sort newest_first
     (filter (fun t => tx_selected_by clinicId unitId0 t) (transactions w)).
Proof. apply range_sublist. Qed.

(** X25: the [total] of [getTransactions], like the one of [getUnits]:
    with a search text it is the number of rows of the fetched page that
    match, which is the number of rows returned and at most the page
    size; without one it is the number of ledger rows of the tenant (of
    the one unit, when a unit is given), whatever the page. *)
Theorem getTransactions_total
    error locations clinicId page pageSize search unitId0 w r w' :
  getTransactions error locations clinicId page pageSize search unitId0 w
  = (Ok r, w') ->
  (forall s, search = Some s -> s <> "" ->
     tp_total r = Z.of_nat (length (tp_transactions r))
     /\ tp_total r <= pageSize)
  /\ (search = None \/ search = Some "" ->
      tp_total r
      = Z.of_nat (length (filter (fun t => tx_selected_by clinicId unitId0 t)
                            (transactions w)))).
Proof.
  unfold getTransactions. run.
  destruct error; [done|].
  destruct (Z.ltb_spec ((page - 1) * pageSize) 0); [done|].
  destruct (Z.ltb_spec ((page - 1) * pageSize + pageSize - 1
                        - (page - 1) * pageSize + 1) 0); [done|].
  simpl. intros [= <- <-]. simpl. split.
  - intros s -> Hs. destruct s as [|c s]; [done|]. simpl.
    rewrite length_fmap. split; [done|].
    etrans; [apply inj_le, length_filter|].
    rewrite length_fmap.
    pose proof (range_length ((page - 1) * pageSize)
                  ((page - 1) * pageSize + pageSize - 1)
                  (merge_sort newest_first
                     (filter (fun t => tx_selected_by clinicId unitId0 t)
                        (transactions w)))) as Hlen.
    unfold tx_page. lia.
  - by intros [-> | ->].
Qed.

Lemma getTransactions_total_witness :
  exists r,
    getTransactions None Ward.locations "clinic-1" 1 1 (Some "round") None
      Ward.ledger = (Ok r, Ward.ledger)
    /\ tp_total r = Z.of_nat (length (tp_transactions r))
    /\ tp_total r <= 1
    /\ tp_total r = 1
    /\ length (filter (fun t => tx_selected_by "clinic-1" None t)
                 (transactions Ward.ledger)) = 2%nat.
Proof.
  edestruct (getTransactions_total None Ward.locations "clinic-1" 1 1
               (Some "round") None Ward.ledger) as (Hsearch & _);
    [vm_compute; reflexivity|].
  destruct (Hsearch "round" eq_refl) as (Hlen & Hle); [discriminate|].
  eexists. split; [vm_compute; reflexivity|].
  split; [exact Hlen|]. split; [exact Hle|].
  split; vm_compute; reflexivity.
Defined.

(** X26: a page of [getTransactions] holds ledger rows of the tenant (of
    the one unit, when a unit is given), newest first, no more of them
    than the page size, each with the user row of its author; a row of
    another tenant is never among them; the temperature of an embedded
    location never reads ["room temp"]; the call does not write. *)
Theorem getTransactions_page
    error locations clinicId page pageSize search unitId0 w r w' :
  getTransactions error locations clinicId page pageSize search unitId0 w
  = (Ok r, w') ->
  w' = w
  /\ Forall (fun x =>
       x_row x ∈ transactions w
       /\ tx_clinic_id (x_row x) = clinicId
       /\ (forall u, unitId0 = Some u -> u <> "" -> tx_unit_id (x_row x) = u)
       /\ x_user x = users w !! tx_user_id (x_row x)
       /\ (forall u l loc, x_unit x = Some u ->
             xu_lot u = Some (l, Some loc) -> loc_temp loc <> "room temp"))
       (tp_transactions r)
  /\ Z.of_nat (length (tp_transactions r)) <= pageSize
  /\ StronglySorted (flip String.le)
       ((fun x => timestamp (x_row x)) <$> tp_transactions r).
Proof.
  unfold getTransactions. run.
  destruct error; [done|].
  destruct (Z.ltb_spec ((page - 1) * pageSize) 0); [done|].
  destruct (Z.ltb_spec ((page - 1) * pageSize + pageSize - 1
                        - (page - 1) * pageSize + 1) 0); [done|].
  simpl. intros [= <- <-]. simpl.
  set (rows := tx_page w clinicId unitId0 _ _).
  set (joined := tx_join_full locations w <$> rows).
  set (found := match search with
                | Some (String _ _ as s) =>
                  filter (fun x => tx_matches (toLowerCase s) x) joined
                | _ => joined
                end).
  assert (found `sublist_of` joined) as Hsub.
  { unfold found. destruct search as [[|??]|]; try done.
    apply sublist_filter. }
  pose proof (tx_page_sublist w clinicId unitId0 ((page - 1) * pageSize)
                ((page - 1) * pageSize + pageSize - 1)) as Hrows.
  fold rows in Hrows.
  split_and!; [done| | |].
  - apply Forall_fmap, Forall_forall. intros x Hx.
    eapply sublist_subseteq in Hx; [|exact Hsub].
    apply list_elem_of_fmap in Hx as (t & -> & Ht).
    eapply sublist_subseteq in Ht; [|exact Hrows].
    rewrite merge_sort_Permutation in Ht.
    apply list_elem_of_filter in Ht as [Hsel Ht].
    apply Is_true_true, andb_true_iff in Hsel as [Hc Hu].
    apply bool_decide_eq_true in Hc.
    split_and!; [done|done| |done|].
    + intros u -> Hne. destruct u; [done|].
      by apply bool_decide_eq_true in Hu.
    + apply formatTransaction_keeps.
  - rewrite length_fmap.
    apply sublist_length in Hsub. unfold joined in Hsub.
    rewrite length_fmap in Hsub.
    pose proof (range_length ((page - 1) * pageSize)
                  ((page - 1) * pageSize + pageSize - 1)
                  (merge_sort newest_first
                     (filter (fun t => tx_selected_by clinicId unitId0 t)
                        (transactions w)))) as Hlen.
    fold (tx_page w clinicId unitId0 ((page - 1) * pageSize)
            ((page - 1) * pageSize + pageSize - 1)) in Hlen.
    fold rows in Hlen. lia.
  - rewrite <- list_fmap_compose.
    assert (((fun x => timestamp (x_row x)) ∘ formatTransaction) <$> found
            `sublist_of` timestamp <$> rows) as Hts.
    { etrans; [apply fmap_sublist, Hsub|]. unfold joined.
      by rewrite <- list_fmap_compose. }
    eapply StronglySorted_sublist; [exact Hts|].
    eapply StronglySorted_sublist; [apply fmap_sublist, Hrows|].
    apply (StronglySorted_fmap timestamp newest_first); [by intros a b|].
    apply StronglySorted_merge_sort; [|apply _].
    intros a b c. unfold newest_first. intros; by etrans.
Qed.

Lemma getTransactions_page_witness :
  exists r,
    getTransactions None Ward.locations "clinic-1" 1 10 None None Ward.ledger
    = (Ok r, Ward.ledger)
    /\ (fun x => transaction_id (x_row x)) <$> tp_transactions r
       = ["tx-1"; "tx-0"]
    /\ Z.of_nat (length (tp_transactions r)) <= 10
    /\ StronglySorted (flip String.le)
         ((fun x => timestamp (x_row x)) <$> tp_transactions r).
Proof.
  edestruct (getTransactions_page None Ward.locations "clinic-1" 1 10 None
               None Ward.ledger) as (_ & _ & Hlen & Hsorted);
    [vm_compute; reflexivity|].
  eexists. split; [vm_compute; reflexivity|]. split; [reflexivity|].
  split; [exact Hlen|exact Hsorted].
Defined.

(** X27: [getTransactionById] never throws and never writes; the row it
    returns is a ledger row of that id and of the tenant asked, with the
    user row of its author and no lot embedded in its unit; when the
    ledger has no row of that id in the tenant, rows of other tenants
    notwithstanding, it returns nothing. *)
Theorem getTransactionById_tenant error transactionId clinicId w :
  (getTransactionById error transactionId clinicId w).2 = w
  /\ (exists found,
        (getTransactionById error transactionId clinicId w).1 = Ok found
        /\ forall x, found = Some x ->
             x_row x ∈ transactions w
             /\ transaction_id (x_row x) = transactionId
             /\ tx_clinic_id (x_row x) = clinicId
             /\ x_user x = users w !! tx_user_id (x_row x)
             /\ (forall u, x_unit x = Some u -> xu_lot u = None))
  /\ ((forall t, t ∈ transactions w -> transaction_id t = transactionId ->
         tx_clinic_id t <> clinicId) ->
      (getTransactionById error transactionId clinicId w).1 = Ok None).
Proof.
  unfold getTransactionById. run.
  set (sel := filter (fun t => tx_selected transactionId clinicId t)
                (transactions w)).
  assert (forall t, t ∈ sel ->
            t ∈ transactions w /\ transaction_id t = transactionId
            /\ tx_clinic_id t = clinicId) as Hsel.
  { intros t [Ht Hin]%list_elem_of_filter.
    apply Is_true_true, andb_true_iff in Ht as [Hid Hc].
    apply bool_decide_eq_true in Hid, Hc. done. }
  destruct error as [e|].
  { split_and!; [done| |done]. by eexists. }
  destruct sel as [|t [|t' rest]] eqn:Hs; simpl.
  - split_and!; [done| |done]. by eexists.
  - destruct (Hsel t) as (Hin & Hid & Hc); [by left|].
    split_and!; [done| |].
    + eexists. split; [done|]. intros x [= <-]. simpl.
      split_and!; [done..|].
      intros u. destruct (units w !! tx_unit_id t); [|done].
      by intros [= <-].
    + intros Hother. by destruct (Hother t Hin Hid).
  - split_and!; [done| |done]. by eexists.
Qed.

Lemma getTransactionById_tenant_witness :
  Ward.elsewhere ∈ transactions Ward.ledger
  /\ (getTransactionById None "tx-2" "clinic-1" Ward.ledger).1 = Ok None
  /\ exists x,
       (getTransactionById None "tx-2" "clinic-2" Ward.ledger).1
       = Ok (Some x)
       /\ x_row x = Ward.elsewhere.
Proof.
  destruct (getTransactionById_tenant None "tx-2" "clinic-1" Ward.ledger)
    as (_ & _ & Hother).
  split; [vm_compute; do 2 right; left|].
  split; [|eexists; split; vm_compute; reflexivity].
  apply Hother. intros t Ht Hid.
  change (transactions Ward.ledger)
    with [Scenario.ledger_row; Ward.checked_out; Ward.elsewhere] in Ht.
  repeat (apply elem_of_cons in Ht as [->|Ht]); try discriminate Hid.
  - simpl. discriminate.
  - by apply elem_of_nil in Ht.
Defined.

Lemma apply_tx_updates_keeps updates t :
  transaction_id (apply_tx_updates updates t) = transaction_id t
  /\ timestamp (apply_tx_updates updates t) = timestamp t
  /\ tx_type (apply_tx_updates updates t) = tx_type t
  /\ tx_unit_id (apply_tx_updates updates t) = tx_unit_id t
  /\ patient_name (apply_tx_updates updates t) = patient_name t
  /\ tx_patient_reference_id (apply_tx_updates updates t)
     = tx_patient_reference_id t
  /\ tx_user_id (apply_tx_updates updates t) = tx_user_id t
  /\ tx_clinic_id (apply_tx_updates updates t) = tx_clinic_id t
  /\ quantity (apply_tx_updates updates t)
     = default (quantity t) (tu_quantity updates)
  /\ notes (apply_tx_updates updates t)
     = match tu_notes updates with Some n => Some n | None => notes t end.
Proof.
  unfold apply_tx_updates, apply_opt.
  by destruct (tu_notes updates), (tu_quantity updates).
Qed.

(** X28: what [updateTransaction] does to the ledger.  When it returns,
    there was exactly one row of that id in the tenant; the ledger has
    the same rows in the same order, every row but that one untouched,
    and that one, which is the row returned, differs from the old one in
    the quantity and the notes only, each taking the value given or
    staying as it was.  When it throws, the store is as it was. *)
Theorem updateTransaction_one_row env transactionId updates clinicId w :
  (forall t w',
      updateTransaction env transactionId updates clinicId w = (Ok t, w') ->
      exists pre old post,
        transactions w = (pre ++ old :: post)%list
        /\ transactions w' = (pre ++ t :: post)%list
        /\ Forall (fun o => tx_selected transactionId clinicId o = false)
             (pre ++ post)%list
        /\ transaction_id old = transactionId
        /\ tx_clinic_id old = clinicId
        /\ t = apply_tx_updates updates old
        /\ transaction_id t = transaction_id old
        /\ timestamp t = timestamp old
        /\ tx_type t = tx_type old
        /\ tx_unit_id t = tx_unit_id old
        /\ tx_user_id t = tx_user_id old
        /\ tx_clinic_id t = tx_clinic_id old
        /\ quantity t = default (quantity old) (tu_quantity updates)
        /\ notes t = match tu_notes updates with
                     | Some n => Some n
                     | None => notes old
                     end)
  /\ (forall e w',
        updateTransaction env transactionId updates clinicId w
        = (Throw e, w') -> w' = w).
Proof.
  unfold updateTransaction. run.
  destruct (fault env UtUpdate transactionId).
  { split; [done|]. by intros ? ? [= _ <-]. }
  assert (forall l t,
            filter (fun o => tx_selected transactionId clinicId o) l = [t] ->
            exists pre post,
              l = (pre ++ t :: post)%list
              /\ Forall (fun o => tx_selected transactionId clinicId o = false)
                   (pre ++ post)%list
              /\ tx_selected transactionId clinicId t = true
              /\ (fun o => if tx_selected transactionId clinicId o
                           then apply_tx_updates updates o else o) <$> l
                 = (pre ++ apply_tx_updates updates t :: post)%list)
    as Hsplit.
  { induction l as [|o l IH]; intros t; [done|].
    rewrite filter_cons.
    destruct (tx_selected transactionId clinicId o) eqn:Ho.
    - rewrite decide_True by (by apply Is_true_true).
      intros [= -> Hrest]. exists [], l. simpl. rewrite Ho.
      assert (Forall (fun o => tx_selected transactionId clinicId o = false) l)
        as Hnone.
      { apply Forall_forall. intros o Hin.
        destruct (tx_selected transactionId clinicId o) eqn:Hsel; [|done].
        assert (o ∈ filter (fun o => tx_selected transactionId clinicId o) l)
          as Hf by (apply list_elem_of_filter; split;
                    [by apply Is_true_true|done]).
        rewrite Hrest in Hf. by apply elem_of_nil in Hf. }
      split_and!; [done|done|done|]. f_equal.
      clear -Hnone. induction Hnone as [|o l Ho _ IH]; [done|].
      simpl. rewrite Ho. by f_equal.
    - rewrite decide_False by (by rewrite Is_true_false).
      intros Hrest. destruct (IH t Hrest) as (pre & post & -> & Hn & Ht & Hmap).
      exists (o :: pre), post. csimpl. rewrite Ho, Hmap.
      split_and!; [done| |done|done]. by constructor. }
  destruct (filter _ (transactions w)) as [|t0 [|t1 rest]] eqn:Hsel.
  - split; [done|]. by intros ? ? [= _ <-].
  - destruct (Hsplit _ _ Hsel) as (pre & post & Hw & Hnone & Ht0 & Hmap).
    split; [|done].
    intros t w' [= <- <-]. simpl. rewrite Hmap.
    apply andb_true_iff in Ht0 as [Hid Hc].
    apply bool_decide_eq_true in Hid, Hc.
    pose proof (apply_tx_updates_keeps updates t0)
      as (? & ? & ? & ? & ? & ? & ? & ? & ? & ?).
    exists pre, t0, post. by split_and!.
  - split; [done|]. by intros ? ? [= _ <-].
Qed.

Lemma updateTransaction_one_row_witness :
  exists t w',
    updateTransaction Scenario.env0 "tx-1"
      {| tu_quantity := Some 2; tu_notes := None |} "clinic-1" Ward.ledger
    = (Ok t, w')
    /\ transactions w' = [Scenario.ledger_row; t; Ward.elsewhere]
    /\ quantity t = 2 /\ notes t = Some "evening round"
    /\ tx_type t = check_out /\ tx_unit_id t = "unit-1".
Proof.
  destruct (updateTransaction_one_row Scenario.env0 "tx-1"
              {| tu_quantity := Some 2; tu_notes := None |} "clinic-1"
              Ward.ledger) as (Hok & _).
  edestruct Hok as (pre & old & post & Hw & Hw' & _ & _ & _ & Ht & _);
    [vm_compute; reflexivity|].
  eexists _, _. split; [vm_compute; reflexivity|].
  split; [vm_compute; reflexivity|]. by split_and!.
Defined.
